(** * Interplanetary simulation: the numerical core, embedded and verified

    A shallow embedding of the orbital-mechanics and spacecraft-state code of
    the simulator (OrbitalMechanics.js, SpacecraftSystems.js, ManoeuvreNode.js,
    BaseSpacecraft.js, TrajectoryPlanner.js, constants.js) together with the
    properties its specification states about it.

    Numbers.  A JavaScript number is modelled by [num]: a finite value carried
    by a real of the Standard Library, the two infinities, and NaN.  Finite
    arithmetic is exact (no rounding, no overflow, no underflow); the special
    values follow IEEE 754 as JavaScript exposes it (a comparison with NaN is
    false, [0/0] and [Infinity - Infinity] are NaN, [x/0] is an infinity).
    The model has one zero, which divides like [+0].

    Doubles.  Where the range or the rounding of doubles changes what the
    code does, the code is embedded a second time: the two
    [calculateFuelRequired] over the exact values with the range of doubles
    (a result beyond [Number.MAX_VALUE] is an infinity), and the Kepler
    solver of the manoeuvre node over doubles proper, every operation rounded
    to the nearest double ([Binary64], and the modules whose name ends in
    [64]).

    Objects.  A [THREE.Vector3] is a record of three numbers; a method that
    mutates its receiver becomes a function returning the new value, and a
    class instance becomes a record threaded through its methods.  Where a
    method overwrites an argument that may be the receiver's own vector
    ([applyManeuver]), the function returns what both objects hold
    afterwards, with a case for the shared object. *)

From Stdlib Require Import Reals Lra Lia List String Bool Arith ZArith QArith Qreals.
Import ListNotations.

Set Implicit Arguments.

(* ================================================================== *)
(** * Part I: definitions *)
(* ================================================================== *)

(** ** JavaScript numbers *)

Module Num.

Local Open Scope R_scope.

Inductive num : Type :=
| Fin (r : R)
| PInf
| NInf
| NaN.

Definition Rltb (a b : R) : bool := if Rlt_dec a b then true else false.
Definition Rleb (a b : R) : bool := if Rle_dec a b then true else false.
Definition Reqb (a b : R) : bool := if Req_dec_T a b then true else false.

(** [isFinite(a)] *)
Definition isFinite (a : num) : bool :=
  match a with Fin _ => true | _ => false end.

(** Truthiness of a number: [0] and [NaN] are falsy. *)
Definition truthy (a : num) : bool :=
  match a with
  | Fin r => negb (Reqb r 0)
  | NaN => false
  | _ => true
  end.

(** [a || b] on numbers. *)
Definition or_else (a b : num) : num := if truthy a then a else b.

Definition infinity (positive : bool) : num := if positive then PInf else NInf.

Definition neg (a : num) : num :=
  match a with
  | Fin r => Fin (- r)
  | PInf => NInf
  | NInf => PInf
  | NaN => NaN
  end.

Definition add (a b : num) : num :=
  match a, b with
  | NaN, _ | _, NaN => NaN
  | Fin r, Fin s => Fin (r + s)
  | PInf, NInf | NInf, PInf => NaN
  | PInf, _ | _, PInf => PInf
  | NInf, _ | _, NInf => NInf
  end.

Definition sub (a b : num) : num := add a (neg b).

Definition mul (a b : num) : num :=
  match a, b with
  | NaN, _ | _, NaN => NaN
  | Fin r, Fin s => Fin (r * s)
  | Fin r, PInf | PInf, Fin r => if Reqb r 0 then NaN else infinity (Rltb 0 r)
  | Fin r, NInf | NInf, Fin r => if Reqb r 0 then NaN else infinity (Rltb r 0)
  | PInf, PInf | NInf, NInf => PInf
  | PInf, NInf | NInf, PInf => NInf
  end.

Definition div (a b : num) : num :=
  match a, b with
  | NaN, _ | _, NaN => NaN
  | Fin r, Fin s =>
      if Reqb s 0
      then (if Reqb r 0 then NaN else infinity (Rltb 0 r))
      else Fin (r / s)
  | Fin _, _ => Fin 0
  | PInf, Fin s => infinity (negb (Rltb s 0))
  | NInf, Fin s => infinity (Rltb s 0)
  | _, _ => NaN
  end.

(** Comparisons: every comparison with NaN is false. *)
Definition lt (a b : num) : bool :=
  match a, b with
  | NaN, _ | _, NaN => false
  | Fin r, Fin s => Rltb r s
  | Fin _, PInf => true
  | Fin _, NInf => false
  | PInf, _ => false
  | NInf, NInf => false
  | NInf, _ => true
  end.

Definition le (a b : num) : bool :=
  match a, b with
  | NaN, _ | _, NaN => false
  | Fin r, Fin s => Rleb r s
  | Fin _, PInf => true
  | Fin _, NInf => false
  | PInf, PInf => true
  | PInf, _ => false
  | NInf, _ => true
  end.

Definition gt (a b : num) : bool := lt b a.
Definition ge (a b : num) : bool := le b a.

(** [a === b] *)
Definition strict_eq (a b : num) : bool :=
  match a, b with
  | Fin r, Fin s => Reqb r s
  | PInf, PInf | NInf, NInf => true
  | _, _ => false
  end.

(** The [Math] functions the code calls. *)
Definition Math_abs (a : num) : num :=
  match a with
  | Fin r => Fin (Rabs r)
  | PInf | NInf => PInf
  | NaN => NaN
  end.

Definition Math_sqrt (a : num) : num :=
  match a with
  | Fin r => if Rltb r 0 then NaN else Fin (sqrt r)
  | PInf => PInf
  | NInf | NaN => NaN
  end.

Definition Math_exp (a : num) : num :=
  match a with
  | Fin r => Fin (exp r)
  | PInf => PInf
  | NInf => Fin 0
  | NaN => NaN
  end.

Definition Math_sin (a : num) : num :=
  match a with Fin r => Fin (sin r) | _ => NaN end.

Definition Math_cos (a : num) : num :=
  match a with Fin r => Fin (cos r) | _ => NaN end.

Definition Math_acos (a : num) : num :=
  match a with
  | Fin r => if Rleb (-1) r && Rleb r 1 then Fin (acos r) else NaN
  | _ => NaN
  end.


(** [Math.pow(a, n)] for the natural exponents the code uses. *)
Fixpoint Math_pow (a : num) (n : nat) : num :=
  match n with
  | O => Fin 1
  | S O => a
  | S m => mul a (Math_pow a m)
  end.

Definition Math_max (a b : num) : num :=
  match a, b with
  | NaN, _ | _, NaN => NaN
  | _, _ => if lt a b then b else a
  end.

Definition Math_min (a b : num) : num :=
  match a, b with
  | NaN, _ | _, NaN => NaN
  | _, _ => if lt b a then b else a
  end.

Definition Math_PI : num := Fin PI.

(** [Math.pow(a, y)] for an exponent [y] that is finite, not zero and not an
    integer. *)
Definition Math_pow_real (a : num) (y : R) : num :=
  match a with
  | Fin r =>
      if Rltb 0 r then Fin (Rpower r y)
      else if Rltb r 0 then NaN
      else if Rltb 0 y then Fin 0 else PInf
  | PInf | NInf => if Rltb 0 y then PInf else Fin 0
  | NaN => NaN
  end.

Definition Math_log2 (a : num) : num :=
  match a with
  | Fin r =>
      if Rltb 0 r then Fin (ln r / ln 2)
      else if Rltb r 0 then NaN else NInf
  | PInf => PInf
  | NInf | NaN => NaN
  end.

End Num.

Export Num.

Declare Scope num_scope.
Delimit Scope num_scope with num.
Bind Scope num_scope with num.
Notation "a + b" := (add a b) : num_scope.
Notation "a - b" := (sub a b) : num_scope.
Notation "a * b" := (mul a b) : num_scope.
Notation "a / b" := (div a b) : num_scope.
Notation "- a" := (neg a) : num_scope.
Notation "a <? b" := (lt a b) (at level 70) : num_scope.
Notation "a <=? b" := (le a b) (at level 70) : num_scope.
Notation "a >? b" := (gt a b) (at level 70) : num_scope.
Notation "a >=? b" := (ge a b) (at level 70) : num_scope.
Notation "a === b" := (strict_eq a b) (at level 70) : num_scope.
Notation "a '|||' b" := (or_else a b) (at level 50, left associativity) : num_scope.
Coercion Fin : R >-> num.

Local Open Scope R_scope.
Local Open Scope num_scope.

(** ** Doubles

    What the exact arithmetic of [num] leaves out of IEEE 754 binary64: the
    range, and the rounding to the nearest double. *)

Module Binary64.

Local Open Scope R_scope.

(** [Number.MAX_VALUE], the largest double. *)
Definition MAX_VALUE : R := (2 - / 2 ^ 52) * 2 ^ 1023.

(** A result with the range of doubles but without their rounding: exact up
    to [MAX_VALUE], an infinity beyond. *)
Definition ranged (a : num) : num :=
  match a with
  | Fin r => if Rltb MAX_VALUE (Rabs r) then infinity (Rltb 0 r) else Fin r
  | _ => a
  end.

(** The binary exponent of a real: the floor of the logarithm of its
    magnitude. *)
Definition exponent (x : R) : Z := Zfloor (ln (Rabs x) / ln 2).

(** The distance between the doubles around [x]: 53 significant bits, and the
    subnormal grid below [2^-1022]. *)
Definition ulp (x : R) : R := powerRZ 2 (Z.max (exponent x) (-1022) - 52).

(** The integer nearest to [y], the even one of the two when [y] is half way
    between them. *)
Definition nearestEven (y : R) : Z :=
  let f := Zfloor y in
  if Rltb (y - IZR f) (1 / 2) then f
  else if Rltb (1 / 2) (y - IZR f) then (f + 1)%Z
  else if Z.even f then f else (f + 1)%Z.

(** The double an exact result is delivered as: the nearest one, ties to
    even, and an infinity from [2^1024] on. *)
Definition round (a : num) : num :=
  match a with
  | Fin x =>
      let r := IZR (nearestEven (x / ulp x)) * ulp x in
      if Rleb (powerRZ 2 1024) (Rabs r) then infinity (Rltb 0 x) else Fin r
  | _ => a
  end.

(** The four operations on doubles. *)
Definition add (a b : num) : num := round (Num.add a b).
Definition sub (a b : num) : num := round (Num.sub a b).
Definition mul (a b : num) : num := round (Num.mul a b).
Definition div (a b : num) : num := round (Num.div a b).

(** [Math.sin] and [Math.cos] are implementation-approximated: an
    implementation of the two. *)
Record Libm : Type := mkLibm {
  Math_sin : num -> num;
  Math_cos : num -> num
}.

(** The implementation that returns the double nearest to the exact value. *)
Definition correctlyRounded : Libm :=
  mkLibm (fun a => round (Num.Math_sin a)) (fun a => round (Num.Math_cos a)).

End Binary64.

(** ** THREE.Vector3 and THREE.Quaternion

    The two classes of three.js the code computes with, as three.js defines
    their methods.  [clone] is the identity on values: it matters in the source
    only because the other methods mutate their receiver. *)

Module Vector3.

Record t : Type := mk { x : num; y : num; z : num }.

Definition zero : t := mk 0 0 0.
Definition clone (v : t) : t := v.
Definition length (v : t) : num :=
  Math_sqrt (x v * x v + y v * y v + z v * z v).
Definition add (a b : t) : t := mk (x a + x b) (y a + y b) (z a + z b).
Definition sub (a b : t) : t := mk (x a - x b) (y a - y b) (z a - z b).
Definition multiplyScalar (v : t) (s : num) : t := mk (x v * s) (y v * s) (z v * s).
Definition divideScalar (v : t) (s : num) : t := multiplyScalar v (1 / s).
Definition normalize (v : t) : t := divideScalar v (length v ||| 1).
Definition crossVectors (a b : t) : t :=
  mk (y a * z b - z a * y b) (z a * x b - x a * z b) (x a * y b - y a * x b).
Definition cross (a b : t) : t := crossVectors a b.
Definition addScaledVector (a v : t) (s : num) : t :=
  mk (x a + x v * s) (y a + y v * s) (z a + z v * s).
Definition distanceToSquared (a v : t) : num :=
  let dx := x a - x v in
  let dy := y a - y v in
  let dz := z a - z v in
  dx * dx + dy * dy + dz * dz.
Definition distanceTo (a v : t) : num := Math_sqrt (distanceToSquared a v).

End Vector3.

Module Quaternion.

Record t : Type := mk { x : num; y : num; z : num; w : num }.

Definition identity : t := mk 0 0 0 1.

Definition setFromAxisAngle (axis : Vector3.t) (angle : num) : t :=
  let halfAngle := angle / 2 in
  let s := Math_sin halfAngle in
  mk (Vector3.x axis * s) (Vector3.y axis * s) (Vector3.z axis * s)
     (Math_cos halfAngle).

Definition multiply (a b : t) : t :=
  mk (x a * w b + w a * x b + y a * z b - z a * y b)
     (y a * w b + w a * y b + z a * x b - x a * z b)
     (z a * w b + w a * z b + x a * y b - y a * x b)
     (w a * w b - x a * x b - y a * y b - z a * z b).

End Quaternion.

(** ** utils/constants.js *)

Module Constants.

Definition AU_TO_KM : num := Fin (1495978707 / 10).
Definition SECONDS_PER_DAY : num := 86400.
Definition GRAVITATIONAL_PARAMETERS_sun : num := 132712440018000000000.
Definition VISUAL_SETTINGS_trailLength : nat := 5000.

Definition G : num := Fin (66743 / 1000000000000000).
Definition AU_TO_METERS : num := 149597870700.

Definition SPACECRAFT_DEFAULTS_mass : num := 1000.
Definition SPACECRAFT_DEFAULTS_fuelMass : num := 500.
Definition SPACECRAFT_DEFAULTS_exhaustVelocity : num := 3000.
Definition SPACECRAFT_DEFAULTS_thrustPower : num := 50000.

(** What reading [table[key]] gives for a table written as an object literal
    of numbers: the number stored under [key]; a member the object inherits
    from [Object.prototype] (a function or an object, which arithmetic turns
    into NaN); or [undefined]. *)
Inductive property : Type :=
| Own (value : num)
| Inherited
| Undefined.

Definition objectPrototypeMember (key : string) : bool :=
  existsb (String.eqb key)
    ["constructor"; "hasOwnProperty"; "isPrototypeOf"; "propertyIsEnumerable";
     "toLocaleString"; "toString"; "valueOf"; "__proto__";
     "__defineGetter__"; "__defineSetter__"; "__lookupGetter__";
     "__lookupSetter__"]%string.

Definition GRAVITATIONAL_PARAMETERS (key : string) : property :=
  if String.eqb key "sun" then Own 132712440018000000000
  else if String.eqb key "mercury" then Own 22032000000000
  else if String.eqb key "venus" then Own 325700000000000
  else if String.eqb key "earth" then Own 398600441800000
  else if String.eqb key "mars" then Own 42828370000000
  else if String.eqb key "jupiter" then Own 126686534000000000
  else if String.eqb key "saturn" then Own 37931187000000000
  else if String.eqb key "uranus" then Own 5793939000000000
  else if String.eqb key "neptune" then Own 6836529000000000
  else if objectPrototypeMember key then Inherited
  else Undefined.

(** [p] used as a number. *)
Definition toNumber (p : property) : num :=
  match p with Own value => value | _ => NaN end.

(** [p || fallback], for a result that is only used as a number. *)
Definition property_or (p : property) (fallback : num) : num :=
  match p with
  | Own value => value ||| fallback
  | Inherited => NaN
  | Undefined => fallback
  end.

End Constants.

Import Constants.

(** ** simulation/OrbitalMechanics.js *)

Module OrbitalMechanics.

Record HohmannTransfer : Type := mkHohmann {
  departure : num;
  arrival : num;
  total : num;
  transferTime : num
}.

Definition calculateHohmannTransfer (r1 r2 : num) : HohmannTransfer :=
  let mu := GRAVITATIONAL_PARAMETERS_sun / 1000000000 in
  let v1 := Math_sqrt (mu / r1) in
  let a_transfer := (r1 + r2) / 2 in
  let v_transfer1 := Math_sqrt (mu * (2 / r1 - 1 / a_transfer)) in
  let v_transfer2 := Math_sqrt (mu * (2 / r2 - 1 / a_transfer)) in
  let v2 := Math_sqrt (mu / r2) in
  let dv1 := v_transfer1 - v1 in
  let dv2 := v2 - v_transfer2 in
  {| departure := dv1;
     arrival := dv2;
     total := Math_abs dv1 + Math_abs dv2;
     transferTime :=
       Math_PI * Math_sqrt (Math_pow a_transfer 3 / mu) / 86400 |}.

Record OrbitalElements : Type := mkElements {
  semiMajorAxis : num;
  eccentricity : num;
  inclination : num;
  periapsis : num;
  apoapsis : num;
  period : num;
  specificEnergy : num
}.

Definition zeroElements : OrbitalElements := mkElements 0 0 0 0 0 0 0.

(** The inner [safeValue] of [calculateOrbitalElements]; its [fallback]
    defaults to [0] and is never passed. *)
Definition safeValue (value : num) : num :=
  if isFinite value then value else 0.

(** The expression the source gives to [Math.acos]. *)
Definition clampedCosine (h : Vector3.t) : num :=
  Math_min 1 (Math_max (Fin (-1)) (Vector3.z h / Vector3.length h)).

(** The days one revolution takes on an orbit of semi-major axis [a] (km). *)
Definition periodDays (a mu : num) : num :=
  2 * Math_PI * Math_sqrt (Math_pow a 3 / mu) / 86400.

(** A missing argument ([undefined] or [null]) is [None]. *)
Definition calculateOrbitalElements
    (position velocity : option Vector3.t) (mu : option num) : OrbitalElements :=
  match position, velocity, mu with
  | Some position, Some velocity, Some mu =>
      if negb (truthy mu) || (mu === 0) then zeroElements
      else
        let r := Vector3.length position * AU_TO_KM in
        let v := Vector3.length velocity in
        if (r === 0) || negb (isFinite r) || negb (isFinite v) then zeroElements
        else
          let energy := (v * v) / 2 - mu / r in
          let a := (- mu) / (2 * energy) in
          let h := Vector3.cross (Vector3.clone position) velocity in
          let hMag := Vector3.length h * AU_TO_KM in
          let e_vector :=
            Vector3.sub
              (Vector3.multiplyScalar
                 (Vector3.cross (Vector3.clone velocity) h) (1 / mu))
              (Vector3.normalize (Vector3.clone position)) in
          let e := Vector3.length e_vector in
          let i := Math_acos (clampedCosine h) * 180 / Math_PI in
          let period := if a >? 0 then periodDays a mu else 0 in
          {| semiMajorAxis := safeValue (a / AU_TO_KM);
             eccentricity := safeValue e;
             inclination := safeValue i;
             periapsis := safeValue (a * (1 - e) / AU_TO_KM);
             apoapsis := safeValue (a * (1 + e) / AU_TO_KM);
             period := safeValue period;
             specificEnergy := safeValue energy |}
  | _, _, _ => zeroElements
  end.

End OrbitalMechanics.

(** ** simulation/spacecraft/SpacecraftSystems.js

    The fields the modelled methods read or write; the constructor's values
    for an empty [config] are in [initial]. *)

Module SpacecraftSystems.

Record Power : Type := mkPower {
  batteryCapacity : num;
  batteryCharge : num
}.

Record ReactionWheels : Type := mkWheels {
  momentum : Vector3.t;
  maxMomentum : num
}.

Record Attitude : Type := mkAttitude {
  orientation : Quaternion.t;
  angularVelocity : Vector3.t;
  reactionWheels : ReactionWheels;
  rcs_fuel : num
}.

Record MainEngine : Type := mkMain {
  fuel : num;
  specificImpulse : num;
  throttle : num;
  ignitions : num;
  ignitionsUsed : num
}.

(** [timeouts] holds the delays (ms) of the callbacks [executeBurn] has handed
    to [setTimeout]; each one, when it fires, sets the throttle to [0]. *)
Record t : Type := mk {
  power : Power;
  attitude : Attitude;
  main : MainEngine;
  timeouts : list num
}.

Definition initial : t :=
  {| power := mkPower 100 100;
     attitude := mkAttitude Quaternion.identity Vector3.zero
                            (mkWheels Vector3.zero 50) 50;
     main := mkMain 500 350 0 10 0;
     timeouts := [] |}.

Definition set_attitude (s : t) (a : Attitude) : t :=
  mk (power s) a (main s) (timeouts s).

Definition desaturateReactionWheels (s : t) (deltaTime : num) : t :=
  let a := attitude s in
  if rcs_fuel a <=? 0 then s
  else
    let fuelUsed := Fin (1 / 100) * deltaTime in
    let w := reactionWheels a in
    set_attitude s
      (mkAttitude (orientation a) (angularVelocity a)
         (mkWheels (Vector3.multiplyScalar (momentum w) (Fin (99 / 100)))
                   (maxMomentum w))
         (rcs_fuel a - fuelUsed)).

Definition applyTorque (s : t) (torque : Vector3.t) (deltaTime : num) : t :=
  let a := attitude s in
  let w := reactionWheels a in
  let totalMomentum := Vector3.length (momentum w) in
  if totalMomentum <? maxMomentum w * Fin (8 / 10) then
    let momentum' :=
      Vector3.add (momentum w)
        (Vector3.multiplyScalar (Vector3.clone torque) deltaTime) in
    let angularVelocity' := Vector3.multiplyScalar torque (Fin (1 / 10)) in
    let deltaRotation :=
      Quaternion.setFromAxisAngle
        (Vector3.normalize (Vector3.clone angularVelocity'))
        (Vector3.length angularVelocity' * deltaTime) in
    set_attitude s
      (mkAttitude (Quaternion.multiply (orientation a) deltaRotation)
         angularVelocity'
         (mkWheels momentum' (maxMomentum w))
         (rcs_fuel a))
  else desaturateReactionWheels s deltaTime.

Definition calculateFuelRequired (s : t) (deltaV dryMass : num) : num :=
  let exhaustVelocity := specificImpulse (main s) * Fin (981 / 100) in
  let massRatio := Math_exp (deltaV * 1000 / exhaustVelocity) in
  let fuelMass := dryMass * (massRatio - 1) in
  fuelMass.

(** The first argument of [executeBurn]: a number, or a vector whose
    [length()] is taken. *)
Inductive DeltaV : Type :=
| Magnitude (n : num)
| Vector (v : Vector3.t).

Inductive BurnResult : Type :=
| Failure (reason : string)
| Success (fuelUsed : num).

Definition success (r : BurnResult) : bool :=
  match r with Success _ => true | Failure _ => false end.

(** [typeof deltaV === 'number' ? deltaV : deltaV.length()] *)
Definition magnitudeOf (deltaV : DeltaV) : num :=
  match deltaV with Magnitude n => n | Vector v => Vector3.length v end.

(** [spacecraftMass] is [spacecraft.mass], all that is read of the third
    argument. *)
Definition executeBurn (s : t) (deltaV : DeltaV) (duration spacecraftMass : num)
  : BurnResult * t :=
  let deltaVMagnitude := magnitudeOf deltaV in
  if ignitionsUsed (main s) >=? ignitions (main s)
  then (Failure "No ignitions remaining", s)
  else
    let fuelRequired := calculateFuelRequired s deltaVMagnitude spacecraftMass in
    if fuelRequired >? fuel (main s)
    then (Failure "Insufficient fuel", s)
    else if batteryCharge (power s) <? 10
    then (Failure "Insufficient power", s)
    else
      let m := main s in
      (Success fuelRequired,
       mk (power s) (attitude s)
          (mkMain (fuel m) (specificImpulse m) 1 (ignitions m)
                  (ignitionsUsed m + 1))
          (timeouts s ++ [duration * 1000])).

(** What the attitude controller does to the wheels and the RCS store in one
    [update]: it calls [applyTorque] when the mode is not INERTIAL and the
    attitude error is outside the deadband, and nothing otherwise. *)
Inductive AttitudeCommand : Type :=
| Hold
| Torque (torque : Vector3.t).

Definition attitudeStep (s : t) (c : AttitudeCommand * num) : t :=
  match fst c with
  | Hold => s
  | Torque torque => applyTorque s torque (snd c)
  end.

Definition attitudeRun (s : t) (cs : list (AttitudeCommand * num)) : t :=
  fold_left attitudeStep cs s.

End SpacecraftSystems.

(** ** simulation/trajectory/TrajectoryPlanner.js *)

Module TrajectoryPlanner.

(** [customIsp] and [customDryMass] are what [parseFloat] reads from the
    form fields [isp] and [dry-mass]; only the type [custom] looks at them. *)
Definition calculateFuelRequired
    (customIsp customDryMass : num) (deltaV : num) (spacecraftType : string) : num :=
  let '(isp, dryMass) :=
    if String.eqb spacecraftType "chemical" then (Fin 450, Fin 1000)
    else if String.eqb spacecraftType "ion" then (Fin 3000, Fin 800)
    else if String.eqb spacecraftType "nuclear" then (Fin 900, Fin 2000)
    else if String.eqb spacecraftType "custom" then (customIsp, customDryMass)
    else (Fin 450, Fin 1000) in
  let exhaustVelocity := isp * Fin (981 / 100) / 1000 in
  let massRatio := Math_exp (deltaV / exhaustVelocity) in
  if negb (isFinite massRatio) || (massRatio <=? 1) then 0
  else
    let fuelMass := dryMass * (massRatio - 1) in
    fuelMass.

End TrajectoryPlanner.

(** ** simulation/spacecraft/ManoeuvreNode.js *)

Module ManoeuvreNode.

Record Elements : Type := mkElements { a : num; e : num; M : num }.

Definition calculateOrbitalElements (r v : Vector3.t) (mu : num) : Elements :=
  let rMag := Vector3.length r * AU_TO_KM in
  let vMag := Vector3.length v in
  let energy := vMag * vMag / 2 - mu / rMag in
  let a := (- mu) / (2 * energy) in
  let h :=
    Vector3.crossVectors
      (Vector3.multiplyScalar (Vector3.clone r) AU_TO_KM) v in
  let hMag := Vector3.length h in
  let eVec :=
    Vector3.sub
      (Vector3.divideScalar (Vector3.cross (Vector3.clone v) h) mu)
      (Vector3.normalize (Vector3.clone r)) in
  let e := Vector3.length eVec in
  let M := Fin 0 in
  {| a := a / AU_TO_KM; e := e; M := M |}.

(** One Newton-Raphson correction: the [delta] the loop body computes at [E]. *)
Definition newtonDelta (M e E : num) : num :=
  (E - e * Math_sin E - M) / (1 - e * Math_cos E).

(** The [while] loop of [solveKeplersEquation], entered with the current [E]
    and [delta]; [fuel] bounds the number of iterations, and [None] means the
    bound was reached with the loop condition still true. *)
Fixpoint keplerLoop (fuel : nat) (M e tolerance E delta : num) : option num :=
  if Math_abs delta >? tolerance then
    match fuel with
    | O => None
    | S fuel' =>
        let delta' := newtonDelta M e E in
        keplerLoop fuel' M e tolerance (E - delta') delta'
    end
  else Some E.

Definition tolerance_default : num := Fin (1 / 1000000).

Definition solveKeplersEquation (fuel : nat) (M e : num) : option num :=
  keplerLoop fuel M e tolerance_default M 1.




End ManoeuvreNode.

(** ** The fuel calculators with the range of doubles

    [SpacecraftSystems.calculateFuelRequired] and
    [TrajectoryPlanner.calculateFuelRequired] once more, every intermediate
    result [ranged]: what they return when the exponential or the product
    passes [Number.MAX_VALUE]. *)

Module SpacecraftSystems64.

Import Binary64.

Definition calculateFuelRequired (s : SpacecraftSystems.t) (deltaV dryMass : num) : num :=
  let exhaustVelocity :=
    ranged (SpacecraftSystems.specificImpulse (SpacecraftSystems.main s)
            * Fin (981 / 100)) in
  let massRatio :=
    ranged (Math_exp (ranged (ranged (deltaV * 1000) / exhaustVelocity))) in
  let fuelMass := ranged (dryMass * ranged (massRatio - 1)) in
  fuelMass.

End SpacecraftSystems64.

Module TrajectoryPlanner64.

Import Binary64.

Definition calculateFuelRequired
    (customIsp customDryMass : num) (deltaV : num) (spacecraftType : string) : num :=
  let '(isp, dryMass) :=
    if String.eqb spacecraftType "chemical" then (Fin 450, Fin 1000)
    else if String.eqb spacecraftType "ion" then (Fin 3000, Fin 800)
    else if String.eqb spacecraftType "nuclear" then (Fin 900, Fin 2000)
    else if String.eqb spacecraftType "custom" then (customIsp, customDryMass)
    else (Fin 450, Fin 1000) in
  let exhaustVelocity := ranged (ranged (isp * Fin (981 / 100)) / 1000) in
  let massRatio := ranged (Math_exp (ranged (deltaV / exhaustVelocity))) in
  if negb (isFinite massRatio) || (massRatio <=? 1) then 0
  else
    let fuelMass := ranged (dryMass * ranged (massRatio - 1)) in
    fuelMass.

End TrajectoryPlanner64.

(** ** The Kepler solver over doubles

    [ManoeuvreNode.solveKeplersEquation] once more, every operation rounded
    to the nearest double and the sine and cosine those of an implementation
    [libm].  The mean anomalies [propagateOrbit] passes are of the order of
    [10^10], where neighbouring doubles are further apart than the
    tolerance. *)

Module ManoeuvreNode64.

Section Solver.

Variable libm : Binary64.Libm.

Definition newtonDelta (M e E : num) : num :=
  Binary64.div
    (Binary64.sub (Binary64.sub E (Binary64.mul e (Binary64.Math_sin libm E))) M)
    (Binary64.sub 1 (Binary64.mul e (Binary64.Math_cos libm E))).

Fixpoint keplerLoop (fuel : nat) (M e tolerance E delta : num) : option num :=
  if Math_abs delta >? tolerance then
    match fuel with
    | O => None
    | S fuel' =>
        let delta' := newtonDelta M e E in
        keplerLoop fuel' M e tolerance (Binary64.sub E delta') delta'
    end
  else Some E.

(** The literal [1e-6]. *)
Definition tolerance_default : num := Binary64.round (Fin (1 / 1000000)).

Definition solveKeplersEquation (fuel : nat) (M e : num) : option num :=
  keplerLoop fuel M e tolerance_default M 1.

End Solver.

End ManoeuvreNode64.

(** ** simulation/spacecraft/BaseSpacecraft.js *)

Module BaseSpacecraft.

(** [console] collects the messages given to [console.warn], oldest first. *)
Record t : Type := mk {
  name : string;
  position : Vector3.t;
  velocity : Vector3.t;
  acceleration : Vector3.t;
  _warnedInvalidPosition : bool;
  missionElapsedTime : num;
  trajectory : list Vector3.t;
  maxTrajectoryPoints : nat;
  console : list string
}.

(** The constructor's state for a craft launched at [position] with
    [velocity]. *)
Definition create (name : string) (position velocity : Vector3.t) : t :=
  {| name := name;
     position := position;
     velocity := velocity;
     acceleration := Vector3.zero;
     _warnedInvalidPosition := false;
     missionElapsedTime := 0;
     trajectory := [];
     maxTrajectoryPoints := VISUAL_SETTINGS_trailLength;
     console := [] |}.

Definition integrateMotion (s : t) (dt : num) : t :=
  let deltaV := Vector3.multiplyScalar (Vector3.clone (acceleration s)) (dt / 1000) in
  let velocity' := Vector3.add (velocity s) deltaV in
  let deltaP := Vector3.multiplyScalar (Vector3.clone velocity') (dt / AU_TO_KM) in
  let position' := Vector3.add (position s) deltaP in
  mk (name s) position' velocity' (acceleration s) (_warnedInvalidPosition s)
     (missionElapsedTime s) (trajectory s) (maxTrajectoryPoints s) (console s).

Definition invalidPositionWarning (name : string) : string :=
  ("Invalid position detected for " ++ name ++ ", skipping trajectory update")%string.

Definition finitePosition (p : Vector3.t) : bool :=
  isFinite (Vector3.x p) && isFinite (Vector3.y p) && isFinite (Vector3.z p).

(** [Array.prototype.shift], keeping the array. *)
Definition shift (A : Type) (l : list A) : list A := tl l.

(** The history kept by [updateTrajectory]; the copy of it into the line
    geometry that follows in the source is display only. *)
Definition updateTrajectory (s : t) : t :=
  if negb (finitePosition (position s)) then
    if negb (_warnedInvalidPosition s) then
      mk (name s) (position s) (velocity s) (acceleration s) true
         (missionElapsedTime s) (trajectory s) (maxTrajectoryPoints s)
         (console s ++ [invalidPositionWarning (name s)])
    else s
  else
    let pushed := trajectory s ++ [Vector3.clone (position s)] in
    let trajectory' :=
      if (maxTrajectoryPoints s <? List.length pushed)%nat
      then shift pushed else pushed in
    mk (name s) (position s) (velocity s) (acceleration s) false
       (missionElapsedTime s) trajectory' (maxTrajectoryPoints s) (console s).

(** One [update] of a craft without subsystems, from the point where the
    total acceleration of the tick is known: [totalAcceleration] is the value
    [calculateTotalAcceleration(bodies, dt)] returned. *)
Definition update (s : t) (deltaTime : num) (totalAcceleration : Vector3.t) : t :=
  let dt := deltaTime * SECONDS_PER_DAY in
  let s1 :=
    mk (name s) (position s) (velocity s) totalAcceleration
       (_warnedInvalidPosition s) (missionElapsedTime s + dt)
       (trajectory s) (maxTrajectoryPoints s) (console s) in
  updateTrajectory (integrateMotion s1 dt).

Definition run (s : t) (ticks : list (num * Vector3.t)) : t :=
  fold_left (fun s tick => update s (fst tick) (snd tick)) ticks s.

End BaseSpacecraft.

(** ** Vocabulary of the properties *)

Module Props.

Import OrbitalMechanics.
Local Open Scope R_scope.

(** Every field of an elements record is a finite number. *)
Definition allFinite (el : OrbitalElements) : Prop :=
  isFinite (semiMajorAxis el) = true
  /\ isFinite (eccentricity el) = true
  /\ isFinite (inclination el) = true
  /\ isFinite (periapsis el) = true
  /\ isFinite (apoapsis el) = true
  /\ isFinite (period el) = true
  /\ isFinite (specificEnergy el) = true.



(** The Sun's gravitational parameter in km^3/s^2, as both calculators
    compute it from the table of constants. *)
Definition mu_sun : R := 132712440018000000000 / 1000000000.





(** The Euclidean norm of a vector of reals. *)
Definition norm3 (a b c : R) : R := sqrt (a * a + b * b + c * c).

(** The stored wheel momentum, as [applyTorque] measures it. *)
Definition wheelMomentum (s : SpacecraftSystems.t) : num :=
  Vector3.length
    (SpacecraftSystems.momentum
       (SpacecraftSystems.reactionWheels (SpacecraftSystems.attitude s))).

Definition wheelCap (s : SpacecraftSystems.t) : num :=
  SpacecraftSystems.maxMomentum
    (SpacecraftSystems.reactionWheels (SpacecraftSystems.attitude s)).

(** The wheels hold a finite momentum of magnitude at most [cap], their
    [maxMomentum]. *)
Definition withinCap (cap : R) (s : SpacecraftSystems.t) : Prop :=
  wheelCap s = Fin cap
  /\ exists mx my mz : R,
       SpacecraftSystems.momentum
         (SpacecraftSystems.reactionWheels (SpacecraftSystems.attitude s))
       = Vector3.mk (Fin mx) (Fin my) (Fin mz)
       /\ norm3 mx my mz <= cap.

(** A command whose angular impulse [|torque| * dt] fits in the margin the
    saturation threshold leaves: a fifth of [cap]. *)
Definition gentle (cap : R) (c : SpacecraftSystems.AttitudeCommand * num) : Prop :=
  match fst c with
  | SpacecraftSystems.Hold => True
  | SpacecraftSystems.Torque torque =>
      exists tx ty tz dt : R,
        torque = Vector3.mk (Fin tx) (Fin ty) (Fin tz)
        /\ snd c = Fin dt /\ 0 < dt
        /\ norm3 tx ty tz * dt <= 2 / 10 * cap
  end.


(** Every tick of the run ends at a position that is not finite. *)
Fixpoint invalidThroughout (s : BaseSpacecraft.t) (ticks : list (num * Vector3.t))
  : Prop :=
  match ticks with
  | [] => True
  | tick :: rest =>
      BaseSpacecraft.finitePosition
        (BaseSpacecraft.position (BaseSpacecraft.update s (fst tick) (snd tick)))
      = false
      /\ invalidThroughout (BaseSpacecraft.update s (fst tick) (snd tick)) rest
  end.

(** The Newton-Raphson correction of Kepler's equation on the reals. *)
Definition keplerCorrection (M e E : R) : R :=
  (E - e * sin E - M) / (1 - e * cos E).

(** Bounds on the successive corrections for an eccentricity of at most
    [1/2]: the correction that is still [n] iterations away from the
    tolerance is at most [newtonBound n]. *)
Definition newtonBound (n : nat) : R :=
  match n with
  | 0%nat => 1 / 1000000
  | 1%nat => 1 / 1000
  | 2%nat => 3 / 100
  | 3%nat => 2 / 10
  | 4%nat => 5 / 10
  | 5%nat => 8 / 10
  | _ => 1
  end.

End Props.

Import Props.

(** ** A celestial body, as the spacecraft code reads it

    [data] is the planet's entry of the table of planets; a field that is
    missing is [None].  [position] is the body's position when that is a
    [THREE.Vector3]; [group_position] and [mesh_position] are the positions
    of its [group] and its [mesh], for the bodies that have them. *)

Module Body.

Record Data : Type := mkData {
  mass : option num;
  semiMajorAxis : option num;
  radius : option num
}.

Record t : Type := mk {
  data : option Data;
  position : option Vector3.t;
  group_position : option Vector3.t;
  mesh_position : option Vector3.t
}.

(** Truthiness of a field that may be missing. *)
Definition present (field : option num) : bool :=
  match field with Some value => truthy value | None => false end.

(** [field || fallback] *)
Definition field_or (field : option num) (fallback : num) : num :=
  match field with Some value => value ||| fallback | None => fallback end.

End Body.

(** ** simulation/spacecraft/BaseSpacecraft.js: gravity, thrust and burns *)

Module Dynamics.

(** The position [calculateGravitationalAcceleration] takes for a body. *)
Definition bodyPosition (body : Body.t) : option Vector3.t :=
  match Body.position body with
  | Some p => Some p
  | None =>
      match Body.group_position body with
      | Some p => Some p
      | None => Body.mesh_position body
      end
  end.

(** The callback of [bodies.forEach] in [calculateGravitationalAcceleration]:
    the acceleration it adds for one body, or [None] when it returns before
    adding anything. *)
Definition bodyAcceleration (position : Vector3.t) (key : string) (body : Body.t)
  : option Vector3.t :=
  match Body.data body with
  | None => None
  | Some data =>
      match Body.mass data with
      | None => None
      | Some mass =>
          if negb (truthy mass) then None
          else
            match bodyPosition body with
            | None => None
            | Some bodyPos =>
                let r := Vector3.sub (Vector3.clone bodyPos) position in
                let distanceAU := Vector3.length r in
                if (distanceAU <? Fin (1 / 100)) || negb (isFinite distanceAU)
                then None
                else
                  let distanceMeters := distanceAU * AU_TO_METERS in
                  let mu := property_or (GRAVITATIONAL_PARAMETERS key) (G * mass) in
                  let accelMagnitude := mu / (distanceMeters * distanceMeters) in
                  if negb (isFinite accelMagnitude) then None
                  else
                    let accelDirection := Vector3.normalize r in
                    Some (Vector3.multiplyScalar accelDirection accelMagnitude)
            end
      end
  end.

(** [bodies] is the [Map] of the simulation, in insertion order. *)
Definition calculateGravitationalAcceleration
    (position : Vector3.t) (bodies : list (string * Body.t)) : Vector3.t :=
  fold_left
    (fun acceleration entry =>
       match bodyAcceleration position (fst entry) (snd entry) with
       | Some a => Vector3.add acceleration a
       | None => acceleration
       end)
    bodies Vector3.zero.

(** The fields of a craft its own engine reads and writes. *)
Record Engine : Type := mkEngine {
  mass : num;
  fuelMass : num;
  exhaustVelocity : num;
  thrustPower : num;
  thrustVector : Vector3.t;
  engineOn : bool;
  thrustIndicator_visible : bool
}.

Definition calculateThrustAcceleration (e : Engine) (dt : num) : Vector3.t * Engine :=
  if fuelMass e <=? 0 then
    (Vector3.zero,
     mkEngine (mass e) (fuelMass e) (exhaustVelocity e) (thrustPower e)
              (thrustVector e) false false)
  else
    let fuelBurnRate := thrustPower e / (exhaustVelocity e * Fin (981 / 100)) in
    let fuelUsed := Math_min (fuelBurnRate * dt) (fuelMass e) in
    let fuelMass' := fuelMass e - fuelUsed in
    let currentMass := mass e + fuelMass' in
    let acceleration :=
      Vector3.multiplyScalar
        (Vector3.normalize (Vector3.clone (thrustVector e)))
        (thrustPower e / currentMass) in
    (acceleration,
     mkEngine (mass e) fuelMass' (exhaustVelocity e) (thrustPower e)
              (thrustVector e) (engineOn e) true).

Definition calculateTotalAcceleration
    (position : Vector3.t) (e : Engine) (bodies : list (string * Body.t)) (dt : num)
  : Vector3.t * Engine :=
  let totalAcceleration := Vector3.zero in
  let gravAccel := calculateGravitationalAcceleration position bodies in
  let totalAcceleration := Vector3.add totalAcceleration gravAccel in
  if engineOn e && (fuelMass e >? 0) then
    let '(thrustAccel, e') := calculateThrustAcceleration e dt in
    (Vector3.add totalAcceleration thrustAccel, e')
  else (totalAcceleration, e).

(** [setThrust(direction, on)]; a missing [direction] is [None]. *)
Definition setThrust (e : Engine) (direction : option Vector3.t) (on : bool) : Engine :=
  let thrustVector' :=
    match direction with
    | Some d => if on then Vector3.normalize d else thrustVector e
    | None => thrustVector e
    end in
  mkEngine (mass e) (fuelMass e) (exhaustVelocity e) (thrustPower e)
           thrustVector' on on.

(** The object [applyManeuver] is given as [direction]: the craft's own
    [velocity] vector, or another vector. *)
Inductive Direction : Type :=
| ItsVelocity
| Other (direction : Vector3.t).

(** [applyManeuver(deltaV, direction)]: the velocity of the craft afterwards,
    and what the [direction] object holds afterwards.  [normalize()] and
    [multiplyScalar()] overwrite the vector they are called on and return it,
    so [dv] is the [direction] object itself; when that object is the craft's
    velocity, [this.velocity.add(dv)] adds the overwritten velocity to
    itself. *)
Definition applyManeuver (velocity : Vector3.t) (deltaV : num) (direction : Direction)
  : Vector3.t * Vector3.t :=
  match direction with
  | Other d =>
      let dv := Vector3.multiplyScalar (Vector3.normalize d) deltaV in
      (Vector3.add velocity dv, dv)
  | ItsVelocity =>
      let dv := Vector3.multiplyScalar (Vector3.normalize velocity) deltaV in
      (Vector3.add dv dv, Vector3.add dv dv)
  end.

(** One tick of a craft, as far as its engine is concerned: where it is, the
    bodies around it and the seconds that pass. *)
Record Tick : Type := mkTick {
  tick_position : Vector3.t;
  tick_bodies : list (string * Body.t);
  tick_dt : num
}.

(** The engine after a run of calls to [calculateTotalAcceleration]. *)
Definition engineRun (e : Engine) (ticks : list Tick) : Engine :=
  fold_left
    (fun e tick =>
       snd (calculateTotalAcceleration (tick_position tick) e (tick_bodies tick)
                                       (tick_dt tick)))
    ticks e.

(** [getOrbitalElements()] with its default central body, at the origin. *)
Definition getOrbitalElements (position velocity : Vector3.t)
  : OrbitalMechanics.OrbitalElements :=
  OrbitalMechanics.calculateOrbitalElements
    (Some (Vector3.sub (Vector3.clone position) Vector3.zero))
    (Some (Vector3.clone velocity))
    (Some (GRAVITATIONAL_PARAMETERS_sun / 1000000000)).

End Dynamics.

(** ** simulation/spacecraft/SpacecraftSystems.js: the subsystems

    The whole state of a [SpacecraftSystems]: [core] holds the battery, the
    attitude control and the main engine as modelled above, the other fields
    are those the remaining methods read or write.  [solarIntensity] is not
    set by the constructor ([undefined], which every use of it turns into
    NaN).  [console] collects the messages given to [console.warn]. *)

Module Subsystems.

Module Config.

(** The fields of the constructor's [config] the modelled state depends on;
    a field that is not given is [None]. *)
Record t : Type := mk {
  solarPanelEfficiency : option num;
  solarPanelArea : option num;
  batteryCapacity : option num;
  dishDiameter : option num;
  transmitPower : option num;
  rcsFuel : option num;
  fuel : option num;
  thrust : option num;
  isp : option num;
  ignitions : option num
}.

Definition empty : t := mk None None None None None None None None None None.

End Config.

Record Consumers : Type := mkConsumers {
  baseload : num;
  propulsion : num;
  communications : num;
  instruments : num;
  thermalControl : num
}.

Record Bus : Type := mkBus {
  solarPanelEfficiency : num;
  solarPanelArea : num;
  currentGeneration : num;
  currentConsumption : num;
  consumers : Consumers
}.

Record Limits : Type := mkLimits { min : num; max : num; optimal : num }.

Record Thermal : Type := mkThermal {
  internalTemp : num;
  externalTemp : num;
  heatCapacity : num;
  radiatorArea : num;
  radiatorEmissivity : num;
  limits : Limits
}.

Record Comms : Type := mkComms {
  dishDiameter : num;
  transmitPower : num;
  frequency : num;
  dataRate : num;
  earthDistance : num;
  signalDelay : num;
  inContact : bool
}.

Record Degradation : Type := mkDegradation {
  solarPanels : num;
  battery : num;
  reaction_wheels : num
}.

Record Health : Type := mkHealth { overall : num; degradation : Degradation }.

Record t : Type := mk {
  core : SpacecraftSystems.t;
  bus : Bus;
  thermal : Thermal;
  comms : Comms;
  health : Health;
  solarIntensity : num;
  thrust : num;
  console : list string
}.

Definition create (config : Config.t) : t :=
  let capacity := Body.field_or (Config.batteryCapacity config) 100 in
  {| core :=
       SpacecraftSystems.mk
         (SpacecraftSystems.mkPower capacity capacity)
         (SpacecraftSystems.mkAttitude Quaternion.identity Vector3.zero
            (SpacecraftSystems.mkWheels Vector3.zero 50)
            (Body.field_or (Config.rcsFuel config) 50))
         (SpacecraftSystems.mkMain
            (Body.field_or (Config.fuel config) 500)
            (Body.field_or (Config.isp config) 350)
            0
            (Body.field_or (Config.ignitions config) 10)
            0)
         [];
     bus :=
       mkBus (Body.field_or (Config.solarPanelEfficiency config) (Fin (3 / 10)))
             (Body.field_or (Config.solarPanelArea config) 20)
             0 0 (mkConsumers 500 2000 800 300 600);
     thermal := mkThermal 293 0 50000 10 (Fin (9 / 10)) (mkLimits 253 323 293);
     comms :=
       mkComms (Body.field_or (Config.dishDiameter config) 2)
               (Body.field_or (Config.transmitPower config) 100)
               8400000000 0 0 0 false;
     health := mkHealth 100 (mkDegradation 0 0 0);
     solarIntensity := NaN;
     thrust := Body.field_or (Config.thrust config) 50000;
     console := [] |}.

(** [bodies.get(key)] on the [Map] of bodies. *)
Fixpoint bodies_get (bodies : list (string * Body.t)) (key : string) : option Body.t :=
  match bodies with
  | [] => None
  | (k, body) :: rest => if String.eqb k key then Some body else bodies_get rest key
  end.

(** The position of the body when both are there. *)
Definition positionOf (body : option Body.t) : option Vector3.t :=
  match body with Some b => Body.position b | None => None end.

Definition set_environment (s : t) (intensity external distance : num)
    (console' : list string) : t :=
  let th := thermal s in
  let c := comms s in
  mk (core s) (bus s)
     (mkThermal (internalTemp th) external (heatCapacity th) (radiatorArea th)
                (radiatorEmissivity th) (limits th))
     (mkComms (dishDiameter c) (transmitPower c) (frequency c) (dataRate c)
              distance (signalDelay c) (inContact c))
     (health s) intensity (thrust s) console'.

Definition updateEnvironment (s : t) (position : Vector3.t)
    (bodies : list (string * Body.t)) : t :=
  match positionOf (bodies_get bodies "sun") with
  | None => set_environment s 1361 278 1 (console s)
  | Some sunPos =>
      let distance := Vector3.distanceTo position sunPos in
      let minDistance := Fin (1 / 100) in
      let safeDistance := Math_max distance minDistance in
      let '(intensity, external, console') :=
        if negb (isFinite safeDistance) || (safeDistance === 0)
        then (Fin 1361, Fin 278,
              console s ++ ["Invalid distance to sun, using default"%string])
        else (1361 / (safeDistance * safeDistance),
              Fin (27 / 10) + 278 * Math_pow_real safeDistance (- (1 / 2)),
              console s) in
      let earthDistance' :=
        match positionOf (bodies_get bodies "earth") with
        | Some earthPos => Vector3.distanceTo position earthPos
        | None => Fin 1
        end in
      set_environment s intensity external earthDistance' console'
  end.

Definition set_charge (c : SpacecraftSystems.t) (charge : num) : SpacecraftSystems.t :=
  SpacecraftSystems.mk
    (SpacecraftSystems.mkPower
       (SpacecraftSystems.batteryCapacity (SpacecraftSystems.power c)) charge)
    (SpacecraftSystems.attitude c) (SpacecraftSystems.main c)
    (SpacecraftSystems.timeouts c).

Definition updatePowerSystem (s : t) (deltaTime : num) : t :=
  let dt := deltaTime / 3600 in
  let b := bus s in
  let panelEfficiency :=
    solarPanelEfficiency b * (1 - solarPanels (degradation (health s)) / 100) in
  let currentGeneration' := solarIntensity s * solarPanelArea b * panelEfficiency in
  let consumption0 := baseload (consumers b) in
  let consumption1 :=
    if SpacecraftSystems.throttle (SpacecraftSystems.main (core s)) >? 0
    then consumption0 + propulsion (consumers b) else consumption0 in
  let currentConsumption' :=
    if inContact (comms s)
    then consumption1 + communications (consumers b) else consumption1 in
  let powerBalance := currentGeneration' - currentConsumption' in
  let p := SpacecraftSystems.power (core s) in
  let charge := SpacecraftSystems.batteryCharge p + powerBalance * dt / 1000 in
  let maxCapacity :=
    SpacecraftSystems.batteryCapacity p
    * (1 - battery (degradation (health s)) / 100) in
  let charge' := Math_max 0 (Math_min maxCapacity charge) in
  mk (set_charge (core s) charge')
     (mkBus (solarPanelEfficiency b) (solarPanelArea b) currentGeneration'
            currentConsumption' (consumers b))
     (thermal s) (comms s) (health s) (solarIntensity s) (thrust s) (console s).

Definition updateThermalSystem (s : t) (deltaTime : num) : t :=
  let th := thermal s in
  let temp0 :=
    if negb (isFinite (internalTemp th)) || (internalTemp th <? 0)
    then Fin 293 else internalTemp th in
  let internalHeat := currentConsumption (bus s) in
  let solarHeating := solarIntensity s * 2 in
  let radiatorCooling :=
    radiatorEmissivity th * radiatorArea th * Fin (567 / 10000000000)
    * Math_pow temp0 4 in
  let netHeat := internalHeat + solarHeating - radiatorCooling in
  let tempChange := (netHeat * deltaTime) / heatCapacity th in
  let temp1 := temp0 + tempChange in
  let tempError := Math_abs (temp1 - optimal (limits th)) in
  let c := consumers (bus s) in
  let b := bus s in
  mk (core s)
     (mkBus (solarPanelEfficiency b) (solarPanelArea b) (currentGeneration b)
            (currentConsumption b)
            (mkConsumers (baseload c) (propulsion c) (communications c)
                         (instruments c) (200 + tempError * 10)))
     (mkThermal (Math_max 100 (Math_min 400 temp1)) (externalTemp th)
                (heatCapacity th) (radiatorArea th) (radiatorEmissivity th)
                (limits th))
     (comms s) (health s) (solarIntensity s) (thrust s) (console s).

Definition updateCommunications (s : t) : t :=
  let c := comms s in
  let distance := earthDistance c * Fin (1495978707 / 10) in
  let pathLoss :=
    Math_pow (4 * Math_PI * distance * frequency c / 300000000) 2 in
  let receivedPower :=
    transmitPower c * Math_pow (dishDiameter c) 2 * 4900 / pathLoss in
  let dataRate' :=
    20000 * Math_log2 (1 + receivedPower / Fin (1 / 100000000000000000000)) in
  let signalDelay' := distance / 300000000 in
  mk (core s) (bus s) (thermal s)
     (mkComms (dishDiameter c) (transmitPower c) (frequency c) dataRate'
              (earthDistance c) signalDelay' true)
     (health s) (solarIntensity s) (thrust s) (console s).

(** [updateAttitudeControl], with the torque its controller asks for given
    as a command (see [SpacecraftSystems.attitudeStep]). *)
Definition updateAttitudeControl (s : t)
    (command : SpacecraftSystems.AttitudeCommand) (deltaTime : num) : t :=
  mk (SpacecraftSystems.attitudeStep (core s) (command, deltaTime))
     (bus s) (thermal s) (comms s) (health s) (solarIntensity s) (thrust s)
     (console s).

Definition updateSystemHealth (s : t) (deltaTime : num) : t :=
  let days := deltaTime / 86400 in
  let d := degradation (health s) in
  let solarPanels' := solarPanels d + Fin (5 / 10) * days / 365 in
  let battery' := battery d + 2 * days / 365 in
  let reaction_wheels' := reaction_wheels d + 1 * days / 365 in
  let overall' :=
    100 - (solarPanels' * Fin (3 / 10) + battery' * Fin (4 / 10)
           + reaction_wheels' * Fin (3 / 10)) in
  mk (core s) (bus s) (thermal s) (comms s)
     (mkHealth overall' (mkDegradation solarPanels' battery' reaction_wheels'))
     (solarIntensity s) (thrust s) (console s).

(** A warning of [checkSystemConstraints], with the number its text shows
    (through [toFixed]) after the label. *)
Inductive Warning : Type :=
| LOW_BATTERY (kWh : num)
| POWER_DEFICIT (W : num)
| THERMAL_VIOLATION (celsius : num)
| REACTION_WHEELS_SATURATING (percent : num)
| LOW_FUEL (kg : num).

Definition checkSystemConstraints (s : t) : list Warning :=
  let p := SpacecraftSystems.power (core s) in
  let b := bus s in
  let th := thermal s in
  let w :=
    SpacecraftSystems.reactionWheels (SpacecraftSystems.attitude (core s)) in
  let m := SpacecraftSystems.main (core s) in
  let warnings := [] in
  let warnings :=
    if SpacecraftSystems.batteryCharge p
       <? SpacecraftSystems.batteryCapacity p * Fin (2 / 10)
    then warnings ++ [LOW_BATTERY (SpacecraftSystems.batteryCharge p)]
    else warnings in
  let warnings :=
    if currentConsumption b >? currentGeneration b * Fin (15 / 10)
    then warnings ++ [POWER_DEFICIT (currentConsumption b - currentGeneration b)]
    else warnings in
  let warnings :=
    if (internalTemp th <? min (limits th)) || (internalTemp th >? max (limits th))
    then warnings ++ [THERMAL_VIOLATION (internalTemp th - 273)]
    else warnings in
  let wheelSaturation :=
    Vector3.length (SpacecraftSystems.momentum w)
    / SpacecraftSystems.maxMomentum w in
  let warnings :=
    if wheelSaturation >? Fin (8 / 10)
    then warnings ++ [REACTION_WHEELS_SATURATING (wheelSaturation * 100)]
    else warnings in
  let warnings :=
    if SpacecraftSystems.fuel m <? 50
    then warnings ++ [LOW_FUEL (SpacecraftSystems.fuel m)]
    else warnings in
  warnings.

Definition getThermalStatus (s : t) : string :=
  let temp := internalTemp (thermal s) in
  let l := limits (thermal s) in
  if temp <? min l then "COLD"%string
  else if temp >? max l then "HOT"%string
  else if Math_abs (temp - optimal l) <? 10 then "NOMINAL"%string
  else "MANAGING"%string.

(** One [update(spacecraft, solarSystem, deltaTime)]: [position] is the
    craft's, [bodies] the solar system's; the warnings the last step computes
    are dropped, as in the source. *)
Definition update (s : t) (position : Vector3.t) (bodies : list (string * Body.t))
    (deltaTime : num) (command : SpacecraftSystems.AttitudeCommand) : t :=
  let s := updateEnvironment s position bodies in
  let s := updatePowerSystem s deltaTime in
  let s := updateThermalSystem s deltaTime in
  let s := updateCommunications s in
  let s := updateAttitudeControl s command deltaTime in
  let s := updateSystemHealth s deltaTime in
  s.

Record Tick : Type := mkTick {
  tick_position : Vector3.t;
  tick_bodies : list (string * Body.t);
  tick_deltaTime : num;
  tick_command : SpacecraftSystems.AttitudeCommand
}.

Definition run (s : t) (ticks : list Tick) : t :=
  fold_left
    (fun s tick =>
       update s (tick_position tick) (tick_bodies tick) (tick_deltaTime tick)
              (tick_command tick))
    ticks s.

End Subsystems.

(** ** simulation/OrbitalMechanics.js: the orbital frame and the self-check *)

Module ReferenceFrame.

Record Frame : Type := mkFrame {
  radial : Vector3.t;
  prograde : Vector3.t;
  normal : Vector3.t
}.

Definition getOrbitalReferenceFrame (position velocity : Vector3.t) : Frame :=
  let r := Vector3.normalize (Vector3.clone position) in
  let v := Vector3.normalize (Vector3.clone velocity) in
  let h := Vector3.normalize (Vector3.crossVectors r v) in
  let prograde := Vector3.normalize (Vector3.crossVectors h r) in
  {| radial := r; prograde := prograde; normal := h |}.

Definition convertDeltaV (deltaV_RSW position velocity : Vector3.t) : Vector3.t :=
  let frame := getOrbitalReferenceFrame position velocity in
  let deltaV := Vector3.zero in
  let deltaV := Vector3.addScaledVector deltaV (radial frame) (Vector3.x deltaV_RSW) in
  let deltaV := Vector3.addScaledVector deltaV (prograde frame) (Vector3.y deltaV_RSW) in
  let deltaV := Vector3.addScaledVector deltaV (normal frame) (Vector3.z deltaV_RSW) in
  deltaV.

Record Validation : Type := mkValidation {
  energyConserved : bool;
  energyError : num;
  keplerValid : bool;
  keplerError : num;
  overallValid : bool
}.

(** [validatePhysics(spacecraft)]: all it reads of the craft is its position,
    its velocity and its [getOrbitalElements()]. *)
Definition validatePhysics (position velocity : Vector3.t) : Validation :=
  let elements := Dynamics.getOrbitalElements position velocity in
  let position := Vector3.clone position in
  let velocity := Vector3.clone velocity in
  let r := Vector3.length position * AU_TO_KM in
  let v := Vector3.length velocity in
  let mu := GRAVITATIONAL_PARAMETERS_sun / 1000000000 in
  let energy := (v * v) / 2 - mu / r in
  let expectedEnergy :=
    (- mu) / (2 * OrbitalMechanics.semiMajorAxis elements * AU_TO_KM) in
  let energyError :=
    Math_abs (energy - expectedEnergy) / Math_abs expectedEnergy in
  let predictedPeriod :=
    2 * Math_PI
    * Math_sqrt (Math_pow (OrbitalMechanics.semiMajorAxis elements * AU_TO_KM) 3 / mu)
    / 86400 in
  let keplerError :=
    Math_abs (predictedPeriod - OrbitalMechanics.period elements)
    / OrbitalMechanics.period elements in
  {| energyConserved := energyError <? Fin (1 / 100);
     energyError := energyError * 100;
     keplerValid := keplerError <? Fin (1 / 100);
     keplerError := keplerError * 100;
     overallValid := (energyError <? Fin (1 / 100)) && (keplerError <? Fin (1 / 100)) |}.

End ReferenceFrame.

(** ** simulation/spacecraft/ManoeuvreNode.js: the burn of a node

    [id] stands for the identity of the node object (what [indexOf] compares);
    [spacecraftMass] is [spacecraft.mass] and [systems] is
    [spacecraft.systems], missing on a basic craft. *)

Module ManoeuvrePlanning.

Record Node : Type := mkNode {
  id : nat;
  timeFromNow : num;
  deltaV : Vector3.t;
  burnDuration : num;
  fuelRequired : num
}.

(** The fields the constructor sets, for a node made at [timeFromNow]. *)
Definition create (id : nat) (timeFromNow : num) : Node :=
  mkNode id timeFromNow Vector3.zero 0 0.

(** The node after [calculateBurnParameters], and what it gave to
    [console.warn]. *)
Definition calculateBurnParameters (n : Node) (spacecraftMass : num)
    (systems : option Subsystems.t) : Node * list string :=
  let deltaVMag := Vector3.length (deltaV n) in
  if deltaVMag === 0 then
    (mkNode (id n) (timeFromNow n) (deltaV n) 0 0, [])
  else
    match systems with
    | None => (n, ["Basic spacecraft cannot calculate burn parameters"%string])
    | Some systems =>
        let m := SpacecraftSystems.main (Subsystems.core systems) in
        let totalMass := spacecraftMass + SpacecraftSystems.fuel m in
        let thrust := Subsystems.thrust systems in
        let isp := SpacecraftSystems.specificImpulse m in
        let exhaustVelocity := isp * Fin (981 / 100) / 1000 in
        let massRatio := Math_exp (deltaVMag / exhaustVelocity) in
        let fuelRequired' := totalMass * (1 - 1 / massRatio) in
        let mdot := thrust / (isp * Fin (981 / 100)) in
        let burnDuration' := fuelRequired' / mdot in
        (mkNode (id n) (timeFromNow n) (deltaV n) burnDuration' fuelRequired', [])
    end.

Inductive Execution : Type :=
| NoSystems
| Refused (reason : string)
| Scheduled (burnStart burnDuration : num) (deltaV : Vector3.t) (fuelRequired : num).

(** [execute()]; [NoSystems] is the [false] a basic craft gets. *)
Definition execute (n : Node) (systems : option Subsystems.t) : Execution :=
  match systems with
  | None => NoSystems
  | Some systems =>
      let m := SpacecraftSystems.main (Subsystems.core systems) in
      if fuelRequired n >? SpacecraftSystems.fuel m
      then Refused "Insufficient fuel"
      else if SpacecraftSystems.ignitionsUsed m >=? SpacecraftSystems.ignitions m
      then Refused "No ignitions remaining"
      else Scheduled (timeFromNow n) (burnDuration n) (Vector3.clone (deltaV n))
                     (fuelRequired n)
  end.

End ManoeuvrePlanning.

(** ** simulation/spacecraft/BaseSpacecraft.js: executing manoeuvre nodes

    The state of an enhanced craft that [checkManoeuvreExecution] and the
    methods it calls read or write.  [log] collects what they give to
    [console.log] and [console.error], oldest first; the delta-v of
    [ManoeuvreStarting] is the number the message shows through [toFixed]. *)

Module Manoeuvres.

Import ManoeuvrePlanning.

Record Executing : Type := mkExecuting {
  node : Node;
  thrustDirection : Vector3.t;
  timeRemaining : num;
  totalDeltaV : Vector3.t
}.

Inductive Event : Type :=
| ManoeuvreFailed (reason : string)
| ManoeuvreStarting (kms : num)
| ManoeuvreComplete.

Record Craft : Type := mkCraft {
  position : Vector3.t;
  velocity : Vector3.t;
  mass : num;
  systems : Subsystems.t;
  manoeuvreNodes : list Node;
  executingManoeuvre : option Executing;
  log : list Event
}.

(** [array.splice(array.indexOf(node), 1)] when the node is in the array. *)
Fixpoint splice_node (nodes : list Node) (n : Node) : list Node :=
  match nodes with
  | [] => []
  | first :: rest =>
      if Nat.eqb (id first) (id n) then rest else first :: splice_node rest n
  end.

Definition removeManoeuvreNode (c : Craft) (n : Node) : Craft :=
  mkCraft (position c) (velocity c) (mass c) (systems c)
          (splice_node (manoeuvreNodes c) n) (executingManoeuvre c) (log c).

Definition set_core (s : Subsystems.t) (core' : SpacecraftSystems.t) : Subsystems.t :=
  Subsystems.mk core' (Subsystems.bus s) (Subsystems.thermal s) (Subsystems.comms s)
                (Subsystems.health s) (Subsystems.solarIntensity s)
                (Subsystems.thrust s) (Subsystems.console s).

Definition startManoeuvre (c : Craft) (n : Node) : Craft :=
  let '(result, core') :=
    SpacecraftSystems.executeBurn (Subsystems.core (systems c))
      (SpacecraftSystems.Magnitude (Vector3.length (deltaV n)))
      (burnDuration n) (mass c) in
  let c :=
    mkCraft (position c) (velocity c) (mass c) (set_core (systems c) core')
            (manoeuvreNodes c) (executingManoeuvre c) (log c) in
  match result with
  | SpacecraftSystems.Failure reason =>
      removeManoeuvreNode
        (mkCraft (position c) (velocity c) (mass c) (systems c) (manoeuvreNodes c)
                 (executingManoeuvre c) (log c ++ [ManoeuvreFailed reason]))
        n
  | SpacecraftSystems.Success _ =>
      let frame :=
        ReferenceFrame.getOrbitalReferenceFrame (position c) (velocity c) in
      let thrustDirection :=
        Vector3.normalize
          (Vector3.addScaledVector
             (Vector3.addScaledVector
                (Vector3.addScaledVector Vector3.zero
                   (ReferenceFrame.radial frame) (Vector3.x (deltaV n)))
                (ReferenceFrame.prograde frame) (Vector3.y (deltaV n)))
             (ReferenceFrame.normal frame) (Vector3.z (deltaV n))) in
      mkCraft (position c) (velocity c) (mass c) (systems c) (manoeuvreNodes c)
              (Some (mkExecuting n thrustDirection (burnDuration n)
                                 (Vector3.clone (deltaV n))))
              (log c ++ [ManoeuvreStarting (Vector3.length (deltaV n))])
  end.

Definition set_throttle (s : Subsystems.t) (throttle' : num) : Subsystems.t :=
  let core := Subsystems.core s in
  let m := SpacecraftSystems.main core in
  set_core s
    (SpacecraftSystems.mk (SpacecraftSystems.power core)
       (SpacecraftSystems.attitude core)
       (SpacecraftSystems.mkMain (SpacecraftSystems.fuel m)
          (SpacecraftSystems.specificImpulse m) throttle'
          (SpacecraftSystems.ignitions m) (SpacecraftSystems.ignitionsUsed m))
       (SpacecraftSystems.timeouts core)).

(** [completeManoeuvre()], called while a manoeuvre is executing. *)
Definition completeManoeuvre (c : Craft) (executing : Executing) : Craft :=
  let c :=
    mkCraft (position c) (velocity c) (mass c) (set_throttle (systems c) 0)
            (manoeuvreNodes c) (executingManoeuvre c)
            (log c ++ [ManoeuvreComplete]) in
  let c := removeManoeuvreNode c (node executing) in
  mkCraft (position c) (velocity c) (mass c) (systems c) (manoeuvreNodes c)
          None (log c).

Definition checkManoeuvreExecution (c : Craft) (dt : num) : Craft :=
  let c :=
    match executingManoeuvre c, manoeuvreNodes c with
    | None, nextNode :: rest =>
        let nextNode :=
          mkNode (id nextNode) (timeFromNow nextNode - dt) (deltaV nextNode)
                 (burnDuration nextNode) (fuelRequired nextNode) in
        let c :=
          mkCraft (position c) (velocity c) (mass c) (systems c)
                  (nextNode :: rest) (executingManoeuvre c) (log c) in
        if timeFromNow nextNode <=? 0 then startManoeuvre c nextNode else c
    | _, _ => c
    end in
  match executingManoeuvre c with
  | Some executing =>
      let executing :=
        mkExecuting (node executing) (thrustDirection executing)
                    (timeRemaining executing - dt) (totalDeltaV executing) in
      let c :=
        mkCraft (position c) (velocity c) (mass c) (systems c)
                (manoeuvreNodes c) (Some executing) (log c) in
      if timeRemaining executing <=? 0 then completeManoeuvre c executing else c
  | None => c
  end.

Definition calculateManoeuvreThrust (c : Craft) (dt : num) : Vector3.t :=
  match executingManoeuvre c with
  | None => Vector3.zero
  | Some executing =>
      let m := SpacecraftSystems.main (Subsystems.core (systems c)) in
      if SpacecraftSystems.throttle m === 0 then Vector3.zero
      else
        let thrust := Subsystems.thrust (systems c) in
        let totalMass := mass c + SpacecraftSystems.fuel m in
        let accelMag := thrust / totalMass in
        Vector3.multiplyScalar (Vector3.clone (thrustDirection executing)) accelMag
  end.

(** The manoeuvre part of a run of [update]s: one [checkManoeuvreExecution]
    per tick. *)
Definition run (c : Craft) (dts : list num) : Craft :=
  fold_left checkManoeuvreExecution dts c.

End Manoeuvres.

(** ** simulation/trajectory/TrajectoryPlanner.js: the transfer calculators

    [bodies] is the simulation's [Map] of bodies.  A calculator either
    returns a plan, returns [null] ([Returns None]) or throws a [TypeError]
    on reading a property of [null] or [undefined] ([Throws]). *)

Module TransferPlanner.

Inductive Result (A : Type) : Type :=
| Throws
| Returns (value : A).

Arguments Throws {A}.
Arguments Returns {A} value.

Record Manoeuvre : Type := mkManoeuvre {
  time : num;
  location : string;
  deltaV : num;
  direction : string
}.

Record Budget : Type := mkBudget { launch : num; arrival : num; total : num }.

Record Plan : Type := mkPlan {
  budget : Budget;
  transferTime : num;
  maneuvers : list Manoeuvre;
  flybys : option (list string)
}.

Definition calculateHohmannTransfer (bodies : list (string * Body.t))
    (dep arr : string) (depAlt arrAlt : num) : Result (option Plan) :=
  match Subsystems.bodies_get bodies dep, Subsystems.bodies_get bodies arr with
  | Some depBody, Some arrBody =>
      match Body.data depBody, Body.data arrBody with
      | Some depData, Some arrData =>
          let r1 := Body.field_or (Body.semiMajorAxis depData) 1 * AU_TO_KM in
          let r2 :=
            Body.field_or (Body.semiMajorAxis arrData) (Fin (15 / 10)) * AU_TO_KM in
          let depRadius := Body.field_or (Body.radius depData) 6371 + depAlt in
          let arrRadius := Body.field_or (Body.radius arrData) 3390 + arrAlt in
          let muSun := GRAVITATIONAL_PARAMETERS_sun / 1000000000 in
          let a_transfer := (r1 + r2) / 2 in
          let v1 := Math_sqrt (muSun / r1) in
          let v_transfer_1 := Math_sqrt (muSun * (2 / r1 - 1 / a_transfer)) in
          let v_transfer_2 := Math_sqrt (muSun * (2 / r2 - 1 / a_transfer)) in
          let v2 := Math_sqrt (muSun / r2) in
          let dv_departure := Math_abs (v_transfer_1 - v1) in
          let dv_arrival := Math_abs (v2 - v_transfer_2) in
          let muDep := toNumber (GRAVITATIONAL_PARAMETERS dep) / 1000000000 in
          let muArr := toNumber (GRAVITATIONAL_PARAMETERS arr) / 1000000000 in
          let v_escape := Math_sqrt (2 * muDep / depRadius) in
          let v_capture := Math_sqrt (2 * muArr / arrRadius) in
          let v_infinity_dep := dv_departure in
          let v_infinity_arr := dv_arrival in
          let dv_launch :=
            Math_sqrt (v_escape * v_escape + v_infinity_dep * v_infinity_dep)
            - Math_sqrt (muDep / depRadius) in
          let dv_capture_burn :=
            Math_sqrt (v_capture * v_capture + v_infinity_arr * v_infinity_arr)
            - Math_sqrt (muArr / arrRadius) in
          let transferTime :=
            Math_PI * Math_sqrt (Math_pow a_transfer 3 / muSun) / SECONDS_PER_DAY in
          Returns
            (Some
               {| budget := mkBudget dv_launch dv_capture_burn
                                     (dv_launch + dv_capture_burn);
                  transferTime := transferTime;
                  maneuvers :=
                    [mkManoeuvre 0 (dep ++ " orbit") dv_launch "Prograde";
                     mkManoeuvre transferTime (arr ++ " orbit") dv_capture_burn
                                 "Retrograde"];
                  flybys := None |})
      | _, _ => Throws
      end
  | _, _ => Returns None
  end.

Definition calculateDirectTransfer (bodies : list (string * Body.t))
    (dep arr : string) (depAlt arrAlt : num) : Result Plan :=
  match calculateHohmannTransfer bodies dep arr depAlt arrAlt with
  | Returns (Some hohmann) =>
      Returns
        {| budget :=
             mkBudget (launch (budget hohmann) * Fin (13 / 10))
                      (arrival (budget hohmann) * Fin (13 / 10))
                      (total (budget hohmann) * Fin (13 / 10));
           transferTime := transferTime hohmann * Fin (6 / 10);
           maneuvers :=
             map (fun m =>
                    mkManoeuvre (time m) (location m) (deltaV m * Fin (13 / 10))
                                (direction m))
                 (maneuvers hohmann);
           flybys := None |}
  | _ => Throws
  end.

(** The fly-by manoeuvres [flybys.forEach] pushes, [index] counting from the
    position of the first of them. *)
Fixpoint flybyManoeuvres (transferTime : num) (index : nat) (flybys : list string)
  : list Manoeuvre :=
  match flybys with
  | [] => []
  | body :: rest =>
      mkManoeuvre (transferTime * Fin (3 / 10) * (Fin (INR index) + 1))
                  (body ++ " flyby") (Fin (5 / 10)) "Variable"
      :: flybyManoeuvres transferTime (S index) rest
  end.

(** [flybys] is the list of the fly-by bodies ticked in the form. *)
Definition calculateGravityAssist (bodies : list (string * Body.t))
    (flybys : list string) (dep arr : string) (depAlt arrAlt : num)
  : Result (option Plan) :=
  match flybys with
  | [] => calculateHohmannTransfer bodies dep arr depAlt arrAlt
  | _ =>
      match calculateHohmannTransfer bodies dep arr depAlt arrAlt with
      | Returns (Some directTransfer) =>
          let count := Fin (INR (List.length flybys)) in
          let flybyReduction := Math_pow (Fin (8 / 10)) (List.length flybys) in
          let timeMultiplier := 1 + count * Fin (5 / 10) in
          let maneuvers :=
            [mkManoeuvre 0 (dep ++ " orbit")
                         (launch (budget directTransfer) * flybyReduction)
                         "Prograde"]
            ++ flybyManoeuvres (transferTime directTransfer) 0 flybys
            ++ [mkManoeuvre (transferTime directTransfer * timeMultiplier)
                            (arr ++ " orbit")
                            (arrival (budget directTransfer) * flybyReduction)
                            "Retrograde"] in
          Returns
            (Some
               {| budget :=
                    mkBudget (launch (budget directTransfer) * flybyReduction)
                             (arrival (budget directTransfer) * flybyReduction)
                             (total (budget directTransfer) * flybyReduction
                              + Fin (5 / 10) * count);
                  transferTime := transferTime directTransfer * timeMultiplier;
                  maneuvers := maneuvers;
                  flybys := Some flybys |})
      | _ => Throws
      end
  end.

End TransferPlanner.

(** ** simulation/spacecraft/BaseSpacecraft.js: telemetry and mission phase

    The state of a craft that [recordTelemetry] and [updateMissionPhase] read
    or write.  [systems] and [telemetryHistory] are missing on a basic
    craft. *)

Module Mission.

Module Telemetry.

Record t : Type := mk {
  time : num;
  position : Vector3.t;
  velocity : num;
  fuel : num;
  power : num;
  temperature : num
}.

End Telemetry.

Record Craft : Type := mkCraft {
  missionElapsedTime : num;
  position : Vector3.t;
  velocity : Vector3.t;
  fuelMass : num;
  systems : option Subsystems.t;
  telemetryHistory : option (list Telemetry.t);
  maxTelemetryPoints : nat;
  targetBody : option Body.t;
  missionPhase : string
}.

Definition recordTelemetry (c : Craft) : Craft :=
  match telemetryHistory c with
  | None => c
  | Some history =>
      let telemetry :=
        {| Telemetry.time := missionElapsedTime c;
           Telemetry.position := Vector3.clone (position c);
           Telemetry.velocity := Vector3.length (velocity c);
           Telemetry.fuel :=
             match systems c with
             | Some s => SpacecraftSystems.fuel (SpacecraftSystems.main (Subsystems.core s))
             | None => fuelMass c
             end;
           Telemetry.power :=
             match systems c with
             | Some s =>
                 SpacecraftSystems.batteryCharge
                   (SpacecraftSystems.power (Subsystems.core s))
             | None => 100
             end;
           Telemetry.temperature :=
             match systems c with
             | Some s => Subsystems.internalTemp (Subsystems.thermal s)
             | None => 293
             end |} in
      let pushed := history ++ [telemetry] in
      let history' :=
        if (maxTelemetryPoints c <? List.length pushed)%nat
        then BaseSpacecraft.shift pushed else pushed in
      mkCraft (missionElapsedTime c) (position c) (velocity c) (fuelMass c)
              (systems c) (Some history') (maxTelemetryPoints c) (targetBody c)
              (missionPhase c)
  end.

Definition calculateSOI (body : Body.t) : num :=
  match Body.data body with
  | None => Fin (1 / 10)
  | Some data =>
      match Body.mass data with
      | None => Fin (1 / 10)
      | Some m =>
          if negb (truthy m) then Fin (1 / 10)
          else
            let a := Body.field_or (Body.semiMajorAxis data) 1 in
            let M := Fin 1989000000000000000000000000000 in
            a * Math_pow_real (m / M) (4 / 10)
      end
  end.

(** [updateMissionPhase()]; [None] is the [TypeError] that [distanceTo]
    throws on a target without a position. *)
Definition updateMissionPhase (c : Craft) : option Craft :=
  match targetBody c with
  | None => Some c
  | Some target =>
      match Body.position target with
      | None => None
      | Some targetPosition =>
          let targetDistance := Vector3.distanceTo (position c) targetPosition in
          let targetSOI := calculateSOI target in
          let phase :=
            if targetDistance <? targetSOI then "APPROACH"%string
            else if targetDistance <? targetSOI * 10 then "ENCOUNTER"%string
            else missionPhase c in
          let elements := Dynamics.getOrbitalElements (position c) (velocity c) in
          let phase :=
            if OrbitalMechanics.eccentricity elements >=? 1 then "ESCAPE"%string
            else phase in
          Some (mkCraft (missionElapsedTime c) (position c) (velocity c)
                        (fuelMass c) (systems c) (telemetryHistory c)
                        (maxTelemetryPoints c) (targetBody c) phase)
      end
  end.

End Mission.

(** ** Vocabulary of the further properties *)

Module Notions.

Local Open Scope R_scope.

(** The vector of three finite numbers. *)
Definition fin3 (a b c : R) : Vector3.t := Vector3.mk (Fin a) (Fin b) (Fin c).

(** The seconds a run of ticks lasts. *)
Definition total (dts : list R) : R := fold_right Rplus 0 dts.

(** Newton's acceleration (m/s^2) at [d] astronomical units from a body of
    gravitational parameter [mu] (m^3/s^2). *)
Definition newtonAcceleration (mu d : R) : R :=
  mu / (d * 149597870700 * (d * 149597870700)).

(** Every number the power and thermal steps of the subsystems read is
    finite, and the heat capacity is not zero. *)
Definition sound (s : Subsystems.t) : Prop :=
  let b := Subsystems.bus s in
  let c := Subsystems.consumers b in
  let p := SpacecraftSystems.power (Subsystems.core s) in
  let d := Subsystems.degradation (Subsystems.health s) in
  let th := Subsystems.thermal s in
  isFinite (Subsystems.solarPanelEfficiency b) = true
  /\ isFinite (Subsystems.solarPanelArea b) = true
  /\ isFinite (Subsystems.baseload c) = true
  /\ isFinite (Subsystems.propulsion c) = true
  /\ isFinite (Subsystems.communications c) = true
  /\ isFinite (SpacecraftSystems.batteryCapacity p) = true
  /\ isFinite (SpacecraftSystems.batteryCharge p) = true
  /\ isFinite (Subsystems.solarPanels d) = true
  /\ isFinite (Subsystems.battery d) = true
  /\ isFinite (Subsystems.reaction_wheels d) = true
  /\ isFinite (Subsystems.heatCapacity th) = true
  /\ truthy (Subsystems.heatCapacity th) = true
  /\ isFinite (Subsystems.radiatorArea th) = true
  /\ isFinite (Subsystems.radiatorEmissivity th) = true.

(** The head of the queue of manoeuvre nodes after its count-down has
    advanced by [dt]. *)
Definition counted (n : ManoeuvrePlanning.Node) (dt : num) : ManoeuvrePlanning.Node :=
  ManoeuvrePlanning.mkNode
    (ManoeuvrePlanning.id n) (ManoeuvrePlanning.timeFromNow n - dt)%num
    (ManoeuvrePlanning.deltaV n) (ManoeuvrePlanning.burnDuration n)
    (ManoeuvrePlanning.fuelRequired n).

(** A call of [executeBurn]: its three arguments, the third one as the mass
    it reads. *)
Record BurnCall : Type := mkBurnCall {
  call_deltaV : SpacecraftSystems.DeltaV;
  call_duration : num;
  call_mass : num
}.

(** The results of a sequence of calls of [executeBurn], and the state they
    leave. *)
Fixpoint burns (s : SpacecraftSystems.t) (calls : list BurnCall)
  : list SpacecraftSystems.BurnResult * SpacecraftSystems.t :=
  match calls with
  | [] => ([], s)
  | call :: rest =>
      let '(result, s') :=
        SpacecraftSystems.executeBurn s (call_deltaV call) (call_duration call)
                                      (call_mass call) in
      let '(results, final) := burns s' rest in
      (result :: results, final)
  end.

Definition successes (results : list SpacecraftSystems.BurnResult) : nat :=
  List.length (filter SpacecraftSystems.success results).

(** The telemetry history after one [recordTelemetry] per state of
    [snapshots]: every state is the craft at the time of a call, but for its
    history, which is the one the call before left, and its bound [limit]. *)
Fixpoint recordAll (limit : nat) (history : list Mission.Telemetry.t)
    (snapshots : list Mission.Craft) : option (list Mission.Telemetry.t) :=
  match snapshots with
  | [] => Some history
  | c :: rest =>
      match
        Mission.telemetryHistory
          (Mission.recordTelemetry
             (Mission.mkCraft (Mission.missionElapsedTime c) (Mission.position c)
                (Mission.velocity c) (Mission.fuelMass c) (Mission.systems c)
                (Some history) limit (Mission.targetBody c) (Mission.missionPhase c)))
      with
      | Some history' => recordAll limit history' rest
      | None => None
      end
  end.

(** The subsystems with the craft at [distance] astronomical units from the
    Earth, as [updateEnvironment] records it. *)
Definition atDistance (s : Subsystems.t) (distance : num) : Subsystems.t :=
  let c := Subsystems.comms s in
  Subsystems.mk (Subsystems.core s) (Subsystems.bus s) (Subsystems.thermal s)
    (Subsystems.mkComms (Subsystems.dishDiameter c) (Subsystems.transmitPower c)
       (Subsystems.frequency c) (Subsystems.dataRate c) distance
       (Subsystems.signalDelay c) (Subsystems.inContact c))
    (Subsystems.health s) (Subsystems.solarIntensity s) (Subsystems.thrust s)
    (Subsystems.console s).

(** An implementation of the sine and the cosine whose results are within
    [2^-52] of the exact values. *)
Definition accurate (libm : Binary64.Libm) : Prop :=
  forall x : R,
    exists s c : R,
      Binary64.Math_sin libm (Fin x) = Fin s
      /\ Binary64.Math_cos libm (Fin x) = Fin c
      /\ Rabs (s - sin x) <= / 2 ^ 52
      /\ Rabs (c - cos x) <= / 2 ^ 52.

(** The double [31475276904.846592]: the mean anomaly that [propagateOrbit]
    computes 86400 s ahead on an orbit of semi-major axis 1 AU,
    [Math.sqrt(132712440018) * 86400]. *)
Definition meanAnomalyAfterOneDay : R := 8251054988944105 / 262144.

(** The double [0.1]. *)
Definition oneTenth : R := 3602879701896397 / 36028797018963968.

(** Partial sums of Machin's series [pi/4 = 2 atan(1/3) + atan(1/7)], over
    the rationals. *)
Fixpoint qpow (q : Q) (n : nat) : Q :=
  match n with
  | O => 1%Q
  | S m => (q * qpow q m)%Q
  end.

Definition machinTerm (i : nat) : Q :=
  (qpow (-1) i
   * (2 * (qpow (1 # 3) (2 * i + 1) / inject_Z (Z.of_nat (2 * i + 1)))
      + qpow (1 # 7) (2 * i + 1) / inject_Z (Z.of_nat (2 * i + 1))))%Q.

Fixpoint machinSum (n : nat) : Q :=
  match n with
  | O => machinTerm 0
  | S m => (machinSum m + machinTerm (S m))%Q
  end.

(** The sum of the delta-v of the manoeuvres of a plan. *)
Definition planDeltaV (maneuvers : list TransferPlanner.Manoeuvre) : num :=
  fold_right (fun m sum => (TransferPlanner.deltaV m + sum)%num) (Fin 0) maneuvers.

End Notions.

Import Notions.

(* ================================================================== *)
(** * Part II: properties *)
(* ================================================================== *)

(** ** Facts about the number model *)

Section NumFacts.

Local Open Scope R_scope.

Lemma Rltb_true (a b : R) : a < b -> Rltb a b = true.
Proof. intros H. unfold Rltb. destruct (Rlt_dec a b); [reflexivity | contradiction]. Qed.

Lemma Rltb_false (a b : R) : b <= a -> Rltb a b = false.
Proof. intros H. unfold Rltb. destruct (Rlt_dec a b); [lra | reflexivity]. Qed.

Lemma Rleb_true (a b : R) : a <= b -> Rleb a b = true.
Proof. intros H. unfold Rleb. destruct (Rle_dec a b); [reflexivity | contradiction]. Qed.

Lemma Rleb_false (a b : R) : b < a -> Rleb a b = false.
Proof. intros H. unfold Rleb. destruct (Rle_dec a b); [lra | reflexivity]. Qed.

Lemma Reqb_true (a b : R) : a = b -> Reqb a b = true.
Proof. intros H. unfold Reqb. destruct (Req_dec_T a b); [reflexivity | contradiction]. Qed.

Lemma Reqb_false (a b : R) : a <> b -> Reqb a b = false.
Proof. intros H. unfold Reqb. destruct (Req_dec_T a b); [contradiction | reflexivity]. Qed.

Lemma div_Fin (a b : R) : b <> 0 -> (Fin a / Fin b)%num = Fin (a / b).
Proof. intros H. unfold div. now rewrite (Reqb_false H). Qed.

Lemma sqrt_Fin (a : R) : 0 <= a -> Math_sqrt (Fin a) = Fin (sqrt a).
Proof. intros H. unfold Math_sqrt. now rewrite (Rltb_false H). Qed.

Lemma add_Fin (a b : R) : (Fin a + Fin b)%num = Fin (a + b).
Proof. reflexivity. Qed.

Lemma sub_Fin (a b : R) : (Fin a - Fin b)%num = Fin (a - b).
Proof. reflexivity. Qed.

Lemma mul_Fin (a b : R) : (Fin a * Fin b)%num = Fin (a * b).
Proof. reflexivity. Qed.

Lemma neg_Fin (a : R) : (- Fin a)%num = Fin (- a).
Proof. reflexivity. Qed.

Lemma abs_Fin (a : R) : Math_abs (Fin a) = Fin (Rabs a).
Proof. reflexivity. Qed.

Lemma exp_Fin (a : R) : Math_exp (Fin a) = Fin (exp a).
Proof. reflexivity. Qed.

Lemma sin_Fin (a : R) : Math_sin (Fin a) = Fin (sin a).
Proof. reflexivity. Qed.

Lemma cos_Fin (a : R) : Math_cos (Fin a) = Fin (cos a).
Proof. reflexivity. Qed.

Lemma lt_Fin (a b : R) : (Fin a <? Fin b)%num = Rltb a b.
Proof. reflexivity. Qed.

Lemma le_Fin (a b : R) : (Fin a <=? Fin b)%num = Rleb a b.
Proof. reflexivity. Qed.

Lemma gt_Fin (a b : R) : (Fin a >? Fin b)%num = Rltb b a.
Proof. reflexivity. Qed.

Lemma ge_Fin (a b : R) : (Fin a >=? Fin b)%num = Rleb b a.
Proof. reflexivity. Qed.

Lemma strict_eq_Fin (a b : R) : (Fin a === Fin b)%num = Reqb a b.
Proof. reflexivity. Qed.

Lemma pow3_Fin (a : R) : Math_pow (Fin a) 3 = Fin (a * (a * a)).
Proof. reflexivity. Qed.

End NumFacts.

Arguments add : simpl never.
Arguments sub : simpl never.
Arguments mul : simpl never.
Arguments div : simpl never.
Arguments neg : simpl never.
Arguments lt : simpl never.
Arguments le : simpl never.
Arguments gt : simpl never.
Arguments ge : simpl never.
Arguments strict_eq : simpl never.
Arguments Math_abs : simpl never.
Arguments Math_sqrt : simpl never.
Arguments Math_exp : simpl never.
Arguments Math_sin : simpl never.
Arguments Math_cos : simpl never.
Arguments Math_acos : simpl never.
Arguments Math_pow : simpl never.
Arguments Math_min : simpl never.
Arguments Math_max : simpl never.

Create Rewrite HintDb num_fin.
#[local] Hint Rewrite add_Fin sub_Fin mul_Fin neg_Fin abs_Fin exp_Fin sin_Fin
  cos_Fin lt_Fin le_Fin gt_Fin ge_Fin strict_eq_Fin pow3_Fin : num_fin.

(** Push the arithmetic of finite numbers down to the reals; divisions and
    square roots leave their side conditions to [lra]. *)
Ltac fin_arith :=
  repeat first
    [ progress autorewrite with num_fin
    | rewrite div_Fin by lra
    | rewrite sqrt_Fin by lra ].

(** Decide the real comparisons left in a goal by linear arithmetic. *)
Ltac rdec :=
  repeat match goal with
  | |- context [Rlt_dec ?a ?b] => destruct (Rlt_dec a b); try lra
  | |- context [Rle_dec ?a ?b] => destruct (Rle_dec a b); try lra
  | |- context [Req_dec_T ?a ?b] => destruct (Req_dec_T a b); try lra
  end.

(** ** Facts about vectors and constants *)

Section VectorFacts.

Local Open Scope R_scope.

Lemma norm3_nonneg (a b c : R) : 0 <= norm3 a b c.
Proof. apply sqrt_pos. Qed.

Lemma norm3_sqr (a b c : R) : norm3 a b c * norm3 a b c = a * a + b * b + c * c.
Proof. unfold norm3. apply sqrt_sqrt. nra. Qed.

Lemma cauchy_schwarz3 (a b c x y z : R) :
  a * x + b * y + c * z <= norm3 a b c * norm3 x y z.
Proof.
  pose proof (norm3_nonneg a b c) as Hn1.
  pose proof (norm3_nonneg x y z) as Hn2.
  pose proof (norm3_sqr a b c) as Hs1.
  pose proof (norm3_sqr x y z) as Hs2.
  set (n1 := norm3 a b c) in *. set (n2 := norm3 x y z) in *.
  destruct (Rle_dec (a * x + b * y + c * z) 0) as [Hneg | Hpos].
  - apply Rle_trans with 0; [exact Hneg | ]. now apply Rmult_le_pos.
  - apply Rnot_le_lt in Hpos.
    apply Rnot_lt_le. intros Hlt.
    assert (Hsq : (n1 * n2) * (n1 * n2) < (a * x + b * y + c * z) * (a * x + b * y + c * z)).
    { assert (0 <= n1 * n2) by now apply Rmult_le_pos. nra. }
    assert (Hid : (n1 * n2) * (n1 * n2)
                  = (a * a + b * b + c * c) * (x * x + y * y + z * z)).
    { rewrite <- Hs1, <- Hs2. ring. }
    assert (Hlag : (a * a + b * b + c * c) * (x * x + y * y + z * z)
                   - (a * x + b * y + c * z) * (a * x + b * y + c * z)
                   = (a * y - b * x) * (a * y - b * x)
                     + (a * z - c * x) * (a * z - c * x)
                     + (b * z - c * y) * (b * z - c * y)) by ring.
    pose proof (Rle_0_sqr (a * y - b * x)) as S1.
    pose proof (Rle_0_sqr (a * z - c * x)) as S2.
    pose proof (Rle_0_sqr (b * z - c * y)) as S3.
    unfold Rsqr in S1, S2, S3. lra.
Qed.

Lemma norm3_triangle (a b c x y z : R) :
  norm3 (a + x) (b + y) (c + z) <= norm3 a b c + norm3 x y z.
Proof.
  pose proof (norm3_nonneg a b c) as Hn1.
  pose proof (norm3_nonneg x y z) as Hn2.
  pose proof (norm3_sqr a b c) as Hs1.
  pose proof (norm3_sqr x y z) as Hs2.
  pose proof (cauchy_schwarz3 a b c x y z) as Hcs.
  set (n1 := norm3 a b c) in *. set (n2 := norm3 x y z) in *.
  unfold norm3.
  rewrite <- (sqrt_square (n1 + n2)) by lra.
  apply sqrt_le_1.
  - pose proof (Rle_0_sqr (a + x)) as S1. pose proof (Rle_0_sqr (b + y)) as S2.
    pose proof (Rle_0_sqr (c + z)) as S3. unfold Rsqr in S1, S2, S3. lra.
  - pose proof (Rle_0_sqr (n1 + n2)) as S1. unfold Rsqr in S1. exact S1.
  - replace ((a + x) * (a + x) + (b + y) * (b + y) + (c + z) * (c + z))
      with ((a * a + b * b + c * c) + 2 * (a * x + b * y + c * z)
            + (x * x + y * y + z * z)) by ring.
    replace ((n1 + n2) * (n1 + n2)) with (n1 * n1 + 2 * (n1 * n2) + n2 * n2) by ring.
    lra.
Qed.

Lemma norm3_scale (a b c k : R) :
  0 <= k -> norm3 (a * k) (b * k) (c * k) = norm3 a b c * k.
Proof.
  intros Hk. unfold norm3.
  replace (a * k * (a * k) + b * k * (b * k) + c * k * (c * k))
    with ((a * a + b * b + c * c) * (k * k)) by ring.
  rewrite sqrt_mult by nra. now rewrite (sqrt_square k Hk).
Qed.

Lemma length_finite (a b c : R) :
  Vector3.length (Vector3.mk (Fin a) (Fin b) (Fin c)) = Fin (norm3 a b c).
Proof.
  unfold Vector3.length, norm3. simpl. rewrite !mul_Fin, !add_Fin.
  apply sqrt_Fin. nra.
Qed.

Lemma norm3_axis (a : R) : 0 <= a -> norm3 a 0 0 = a.
Proof.
  intros Ha. unfold norm3.
  replace (a * a + 0 * 0 + 0 * 0) with (a * a) by ring. now apply sqrt_square.
Qed.

Lemma norm3_axis_y (b : R) : 0 <= b -> norm3 0 b 0 = b.
Proof.
  intros Hb. unfold norm3.
  replace (0 * 0 + b * b + 0 * 0) with (b * b) by ring. now apply sqrt_square.
Qed.

Lemma norm3_axis_z (c : R) : 0 <= c -> norm3 0 0 c = c.
Proof.
  intros Hc. unfold norm3.
  replace (0 * 0 + 0 * 0 + c * c) with (c * c) by ring. now apply sqrt_square.
Qed.

Lemma mu_sun_pos : 0 < mu_sun.
Proof. unfold mu_sun. lra. Qed.

Lemma mu_sun_Fin : (GRAVITATIONAL_PARAMETERS_sun / 1000000000)%num = Fin mu_sun.
Proof. unfold GRAVITATIONAL_PARAMETERS_sun, mu_sun. now rewrite div_Fin by lra. Qed.

End VectorFacts.

(** ** The integrator (BaseSpacecraft.integrateMotion) *)

Section Integrator.

Import BaseSpacecraft.

(** C5. One integration step first adds [acceleration * (dt / 1000)] to the
    velocity and then adds [new velocity * (dt / AU_TO_KM)] to the position:
    the position update uses the velocity the step has just computed
    (semi-implicit Euler), component by component, and nothing else of the
    craft changes. *)
Theorem integrateMotion_semi_implicit_euler :
  forall (s : BaseSpacecraft.t) (dt : num),
    let s' := integrateMotion s dt in
    velocity s' =
      Vector3.mk (Vector3.x (velocity s) + Vector3.x (acceleration s) * (dt / 1000))
                 (Vector3.y (velocity s) + Vector3.y (acceleration s) * (dt / 1000))
                 (Vector3.z (velocity s) + Vector3.z (acceleration s) * (dt / 1000))
    /\ position s' =
      Vector3.mk (Vector3.x (position s) + Vector3.x (velocity s') * (dt / AU_TO_KM))
                 (Vector3.y (position s) + Vector3.y (velocity s') * (dt / AU_TO_KM))
                 (Vector3.z (position s) + Vector3.z (velocity s') * (dt / AU_TO_KM))
    /\ acceleration s' = acceleration s
    /\ trajectory s' = trajectory s
    /\ console s' = console s.
Proof.
  intros s dt. cbv zeta. unfold integrateMotion. simpl.
  repeat split; reflexivity.
Qed.

(** On finite values the position therefore moves by the old velocity plus
    the full acceleration term [a * dt^2] (in converted units), where velocity
    Verlet would add half of it and explicit Euler none. *)
Lemma integrateMotion_position_finite :
  forall (n : string) (px vx ax dt : R) (py pz vy vz ay az : num) w m tr cap out,
    let s := mk n (Vector3.mk (Fin px) py pz) (Vector3.mk (Fin vx) vy vz)
                (Vector3.mk (Fin ax) ay az) w m tr cap out in
    Vector3.x (position (integrateMotion s (Fin dt))) =
      Fin (px + vx * (dt / (1495978707 / 10))
              + ax * (dt / 1000) * (dt / (1495978707 / 10)))%R.
Proof.
  intros. subst s. unfold integrateMotion, AU_TO_KM. simpl.
  fin_arith. f_equal. lra.
Qed.

(** A craft at rest at 1 AU pushed at 1 m/s^2 for 1000 s: the position moves
    although the velocity before the step was zero. *)
Example integrateMotion_uses_new_velocity :
  let s := mk "probe" (Vector3.mk 1 0 0) Vector3.zero (Vector3.mk 1 0 0)
              false 0 [] 5000 [] in
  Vector3.x (velocity (integrateMotion s 1000)) = Fin 1
  /\ Vector3.x (position (integrateMotion s 1000)) = Fin (1 + 10000 / 1495978707)%R.
Proof.
  cbv zeta. unfold integrateMotion, AU_TO_KM. simpl.
  fin_arith. split; f_equal; lra.
Qed.

End Integrator.

(** ** The trajectory history (BaseSpacecraft.updateTrajectory) *)

Section TrajectoryHistory.

Import BaseSpacecraft.

Lemma updateTrajectory_capacity (s : BaseSpacecraft.t) :
  maxTrajectoryPoints (updateTrajectory s) = maxTrajectoryPoints s.
Proof.
  unfold updateTrajectory.
  destruct (finitePosition (position s)); simpl;
    [ | destruct (_warnedInvalidPosition s)]; reflexivity.
Qed.

Lemma updateTrajectory_bounded (s : BaseSpacecraft.t) :
  (List.length (trajectory s) <= maxTrajectoryPoints s)%nat ->
  (List.length (trajectory (updateTrajectory s)) <= maxTrajectoryPoints s)%nat.
Proof.
  intros H. unfold updateTrajectory.
  destruct (finitePosition (position s)); simpl.
  - destruct (Nat.ltb_spec (maxTrajectoryPoints s)
                (List.length (trajectory s ++ [Vector3.clone (position s)]))) as [Hfull | Hroom].
    + unfold shift. rewrite length_app in Hfull. simpl in Hfull.
      destruct (trajectory s) as [| p l]; simpl in *; [lia | ].
      rewrite length_app. simpl. lia.
    + exact Hroom.
  - destruct (_warnedInvalidPosition s); simpl; exact H.
Qed.

Lemma updateTrajectory_keeps_motion (s : BaseSpacecraft.t) :
  position (updateTrajectory s) = position s
  /\ velocity (updateTrajectory s) = velocity s.
Proof.
  unfold updateTrajectory.
  destruct (finitePosition (position s)); simpl;
    [ | destruct (_warnedInvalidPosition s)]; split; reflexivity.
Qed.

Lemma update_bounded (s : BaseSpacecraft.t) (deltaTime : num) (acc : Vector3.t) :
  (List.length (trajectory s) <= maxTrajectoryPoints s)%nat ->
  (List.length (trajectory (update s deltaTime acc)) <= maxTrajectoryPoints s)%nat
  /\ maxTrajectoryPoints (update s deltaTime acc) = maxTrajectoryPoints s.
Proof.
  intros H. unfold update. split.
  - apply (updateTrajectory_bounded
             (integrateMotion
                (mk (name s) (position s) (velocity s) acc (_warnedInvalidPosition s)
                    (missionElapsedTime s + deltaTime * SECONDS_PER_DAY)
                    (trajectory s) (maxTrajectoryPoints s) (console s))
                (deltaTime * SECONDS_PER_DAY))).
    exact H.
  - now rewrite updateTrajectory_capacity.
Qed.

Lemma run_bounded (ticks : list (num * Vector3.t)) :
  forall s : BaseSpacecraft.t,
    (List.length (trajectory s) <= maxTrajectoryPoints s)%nat ->
    (List.length (trajectory (run s ticks)) <= maxTrajectoryPoints s)%nat
    /\ maxTrajectoryPoints (run s ticks) = maxTrajectoryPoints s.
Proof.
  induction ticks as [| tick ticks IH]; intros s H; simpl.
  - split; [exact H | reflexivity].
  - destruct (update_bounded s (fst tick) (snd tick) H) as [Hlen Hcap].
    unfold run in IH |- *. simpl.
    destruct (IH (update s (fst tick) (snd tick))) as [IHlen IHcap].
    + now rewrite Hcap.
    + rewrite Hcap in IHlen, IHcap. split; assumption.
Qed.

Lemma update_invalid (s : BaseSpacecraft.t) (deltaTime : num) (acc : Vector3.t) :
  finitePosition (position (update s deltaTime acc)) = false ->
  trajectory (update s deltaTime acc) = trajectory s
  /\ _warnedInvalidPosition (update s deltaTime acc) = true
  /\ console (update s deltaTime acc) =
       (if _warnedInvalidPosition s then console s
        else console s ++ [invalidPositionWarning (name s)]).
Proof.
  intros Hbad. unfold update in *.
  set (moved := integrateMotion _ _) in *.
  destruct (updateTrajectory_keeps_motion moved) as [Hpos _].
  rewrite Hpos in Hbad. unfold updateTrajectory. rewrite Hbad. simpl.
  destruct (_warnedInvalidPosition s); simpl; auto.
Qed.

Lemma run_invalid_warned (ticks : list (num * Vector3.t)) :
  forall s : BaseSpacecraft.t,
    _warnedInvalidPosition s = true -> invalidThroughout s ticks ->
    console (run s ticks) = console s /\ trajectory (run s ticks) = trajectory s.
Proof.
  induction ticks as [| tick ticks IH]; intros s Hw Hbad; [split; reflexivity | ].
  destruct Hbad as [Hbad Hrest].
  destruct (update_invalid s (fst tick) (snd tick) Hbad) as [Ht [Hw' Hc]].
  rewrite Hw in Hc.
  destruct (IH _ Hw' Hrest) as [IHc IHt].
  unfold run in *. simpl. rewrite IHc, IHt. now split.
Qed.

Lemma run_invalid (ticks : list (num * Vector3.t)) (s : BaseSpacecraft.t) :
  invalidThroughout s ticks ->
  (List.length (console (run s ticks)) <= List.length (console s) + 1)%nat
  /\ trajectory (run s ticks) = trajectory s.
Proof.
  destruct ticks as [| tick ticks]; intros Hbad; [split; simpl; [lia | reflexivity] | ].
  destruct Hbad as [Hbad Hrest].
  destruct (update_invalid s (fst tick) (snd tick) Hbad) as [Ht [Hw' Hc]].
  destruct (run_invalid_warned ticks _ Hw' Hrest) as [IHc IHt].
  unfold run in *. simpl. rewrite IHc, IHt, Hc. split; [ | exact Ht].
  destruct (_warnedInvalidPosition s); [lia | ].
  rewrite length_app. simpl. lia.
Qed.

(** C8. The trajectory history is a bounded first-in first-out buffer.
    (1) Along every run of ticks, from a craft whose history fits its
    capacity (a new craft has an empty one), the history never holds more
    than [maxTrajectoryPoints] points, and the capacity does not change.
    (2) With a finite position the tick appends a copy of it at the end, and
    when that overfills the buffer the point dropped is the oldest one, at
    the front.  (3) With a non-finite position nothing is recorded; the tick
    appends one warning if none is pending and none otherwise, (4) so a run
    of ticks that all end at invalid positions adds at most one warning and
    records nothing.  (5) Either way the tick ends with the position and
    velocity the integrator computed. *)
Theorem trajectory_history_bounded_fifo :
  (forall (s : BaseSpacecraft.t) (ticks : list (num * Vector3.t)),
      (List.length (trajectory s) <= maxTrajectoryPoints s)%nat ->
      (List.length (trajectory (run s ticks)) <= maxTrajectoryPoints (run s ticks))%nat
      /\ maxTrajectoryPoints (run s ticks) = maxTrajectoryPoints s)
  /\ (forall (n : string) (p v : Vector3.t) (ticks : list (num * Vector3.t)),
      (List.length (trajectory (run (create n p v) ticks))
       <= VISUAL_SETTINGS_trailLength)%nat)
  /\ (forall s : BaseSpacecraft.t,
      finitePosition (position s) = true ->
      trajectory (updateTrajectory s) =
        (if (List.length (trajectory s) <? maxTrajectoryPoints s)%nat
         then trajectory s ++ [position s]
         else tl (trajectory s ++ [position s]))
      /\ console (updateTrajectory s) = console s)
  /\ (forall s : BaseSpacecraft.t,
      finitePosition (position s) = false ->
      trajectory (updateTrajectory s) = trajectory s
      /\ _warnedInvalidPosition (updateTrajectory s) = true
      /\ console (updateTrajectory s) =
           (if _warnedInvalidPosition s then console s
            else console s ++ [invalidPositionWarning (name s)]))
  /\ (forall (s : BaseSpacecraft.t) (ticks : list (num * Vector3.t)),
      invalidThroughout s ticks ->
      (List.length (console (run s ticks)) <= List.length (console s) + 1)%nat
      /\ trajectory (run s ticks) = trajectory s)
  /\ (forall (s : BaseSpacecraft.t) (deltaTime : num) (acc : Vector3.t),
      let moved :=
        integrateMotion
          (mk (name s) (position s) (velocity s) acc (_warnedInvalidPosition s)
              (missionElapsedTime s + deltaTime * SECONDS_PER_DAY)
              (trajectory s) (maxTrajectoryPoints s) (console s))
          (deltaTime * SECONDS_PER_DAY) in
      position (update s deltaTime acc) = position moved
      /\ velocity (update s deltaTime acc) = velocity moved).
Proof.
  split; [ | split; [ | split; [ | split; [ | split]]]].
  - intros s ticks H. destruct (run_bounded ticks s H) as [Hlen Hcap].
    split; [now rewrite Hcap | exact Hcap].
  - intros n p v ticks.
    destruct (run_bounded ticks (create n p v)) as [Hlen _]; [simpl; lia | exact Hlen].
  - intros s Hfin. unfold updateTrajectory. rewrite Hfin. simpl.
    split; [ | reflexivity]. unfold Vector3.clone, shift.
    rewrite length_app. simpl.
    destruct (Nat.ltb_spec (maxTrajectoryPoints s) (List.length (trajectory s) + 1));
      destruct (Nat.ltb_spec (List.length (trajectory s)) (maxTrajectoryPoints s));
      try reflexivity; lia.
  - intros s Hfin. unfold updateTrajectory. rewrite Hfin. simpl.
    destruct (_warnedInvalidPosition s) eqn:Hw; simpl; auto.
  - intros s ticks. apply run_invalid.
  - intros s deltaTime acc. cbv zeta. unfold update.
    apply updateTrajectory_keeps_motion.
Qed.

(** The theorem at a craft whose buffer of capacity 2 is full: the next
    finite position evicts the oldest point. *)
Lemma trajectory_history_bounded_fifo_witness :
  let p1 := Vector3.mk 1 0 0 in
  let p2 := Vector3.mk 2 0 0 in
  let p3 := Vector3.mk 3 0 0 in
  let s := mk "probe" p3 Vector3.zero Vector3.zero false 0 [p1; p2] 2 [] in
  trajectory (updateTrajectory s) = [p2; p3]
  /\ (List.length (trajectory (run s [(Fin 1, Vector3.zero)])) <= 2)%nat.
Proof.
  cbv zeta. split.
  - destruct trajectory_history_bounded_fifo as [_ [_ [Hfifo _]]].
    destruct (Hfifo (mk "probe" (Vector3.mk 3 0 0) Vector3.zero Vector3.zero
                        false 0 [Vector3.mk 1 0 0; Vector3.mk 2 0 0] 2 []))
      as [Htraj _]; [reflexivity | exact Htraj].
  - destruct trajectory_history_bounded_fifo as [Hrun _].
    destruct (Hrun (mk "probe" (Vector3.mk 3 0 0) Vector3.zero Vector3.zero
                       false 0 [Vector3.mk 1 0 0; Vector3.mk 2 0 0] 2 [])
                   [(Fin 1, Vector3.zero)]) as [Hlen Hcap]; [simpl; lia | ].
    rewrite Hcap in Hlen. exact Hlen.
Defined.

End TrajectoryHistory.

(** ** Burn execution (SpacecraftSystems.executeBurn) *)

Section BurnExecution.

Import SpacecraftSystems.

(** C4. [executeBurn] is total on its typed arguments and answers with a
    result value in every case: the three refusals are tried in the order
    ignitions, fuel, power, each naming its reason and leaving the whole
    subsystem state as it was; otherwise the burn succeeds, the throttle is
    [1], [ignitionsUsed] has grown by exactly one, the tank, the battery and
    the attitude state are untouched, and one throttle-off callback has been
    scheduled [duration * 1000] ms ahead. *)
Theorem executeBurn_typed_result :
  forall (s : SpacecraftSystems.t) (deltaV : DeltaV) (duration spacecraftMass : num),
    let result := fst (executeBurn s deltaV duration spacecraftMass) in
    let s' := snd (executeBurn s deltaV duration spacecraftMass) in
    let fuelRequired := calculateFuelRequired s (magnitudeOf deltaV) spacecraftMass in
    (if ignitionsUsed (main s) >=? ignitions (main s)
     then result = Failure "No ignitions remaining" /\ s' = s
     else if fuelRequired >? fuel (main s)
     then result = Failure "Insufficient fuel" /\ s' = s
     else if batteryCharge (power s) <? 10
     then result = Failure "Insufficient power" /\ s' = s
     else result = Success fuelRequired
          /\ throttle (main s') = Fin 1
          /\ ignitionsUsed (main s') = ignitionsUsed (main s) + 1
          /\ ignitions (main s') = ignitions (main s)
          /\ fuel (main s') = fuel (main s)
          /\ specificImpulse (main s') = specificImpulse (main s)
          /\ power s' = power s
          /\ attitude s' = attitude s
          /\ timeouts s' = timeouts s ++ [duration * 1000])
    /\ (success result = false <-> s' = s /\ exists reason, result = Failure reason)
    /\ (success result = false ->
        result = Failure "No ignitions remaining"
        \/ result = Failure "Insufficient fuel"
        \/ result = Failure "Insufficient power").
Proof.
  intros s deltaV duration spacecraftMass. cbv zeta. unfold executeBurn.
  destruct (ignitionsUsed (main s) >=? ignitions (main s)); simpl.
  { repeat split; eauto. }
  destruct (calculateFuelRequired s (magnitudeOf deltaV) spacecraftMass >? fuel (main s));
    simpl.
  { repeat split; eauto. }
  destruct (batteryCharge (power s) <? 10); simpl.
  { repeat split; eauto. }
  repeat split; try discriminate.
  intros [_ [reason H]]. discriminate.
Qed.

(** The outcomes on the constructor's state: 3 km/s for a 100 kg craft
    succeeds; with the ignition budget spent, with a 1000 kg craft, or with
    a battery at 5 kWh the same burn is refused. *)
Example executeBurn_cases :
  let spent := mk (power initial) (attitude initial) (mkMain 500 350 0 10 10) [] in
  let drained := mk (mkPower 100 5) (attitude initial) (main initial) [] in
  fst (executeBurn spent (Magnitude 3) 60 100) = Failure "No ignitions remaining"
  /\ fst (executeBurn initial (Magnitude 3) 60 1000) = Failure "Insufficient fuel"
  /\ fst (executeBurn drained (Magnitude 3) 60 100) = Failure "Insufficient power"
  /\ success (fst (executeBurn initial (Magnitude 3) 60 100)) = true.
Proof.
  assert (Hexp : (3 / 2 < exp (3 * 1000 / (350 * (981 / 100))) < 3)%R).
  { split.
    - apply Rlt_trans with (1 + 3 * 1000 / (350 * (981 / 100)))%R; [lra | ].
      apply exp_ineq1. lra.
    - apply Rlt_le_trans with (exp 1).
      + apply exp_increasing. lra.
      + exact exp_le_3. }
  cbv zeta. unfold executeBurn, calculateFuelRequired, magnitudeOf, initial. simpl.
  fin_arith. unfold Rleb, Rltb. rdec; simpl; try (exfalso; nra).
  repeat split; reflexivity.
Qed.

End BurnExecution.

(** ** Orbital elements (OrbitalMechanics.calculateOrbitalElements) *)

Section OrbitalElements.

Import OrbitalMechanics.

Lemma safeValue_finite (a : num) : isFinite (safeValue a) = true.
Proof. unfold safeValue. destruct a; reflexivity. Qed.

Lemma zeroElements_finite : allFinite zeroElements.
Proof. repeat split. Qed.

Lemma clampedCosine_range (h : Vector3.t) :
  clampedCosine h = NaN
  \/ exists c : R, clampedCosine h = Fin c /\ (-1 <= c <= 1)%R.
Proof.
  unfold clampedCosine.
  destruct (Vector3.z h / Vector3.length h) as [q | | | ].
  - right. unfold Math_max, Math_min, lt, Rltb.
    destruct (Rlt_dec (-1) q).
    + destruct (Rlt_dec q 1).
      * exists q. split; [reflexivity | lra].
      * exists 1%R. split; [reflexivity | lra].
    + destruct (Rlt_dec (-1) 1); [ | lra].
      exists (-1)%R. split; [reflexivity | lra].
  - right. exists 1%R. split; [reflexivity | lra].
  - right. exists (-1)%R. unfold Math_max, Math_min, lt, Rltb.
    destruct (Rlt_dec (-1) 1); [ | lra]. split; [reflexivity | lra].
  - left. reflexivity.
Qed.

Lemma magnitude_zero_radius (p : Vector3.t) :
  Vector3.length p = Fin 0 -> (Vector3.length p * AU_TO_KM === 0) = true.
Proof.
  intros H. rewrite H. unfold AU_TO_KM. fin_arith. apply Reqb_true. lra.
Qed.

Lemma magnitude_infinite_radius (p : Vector3.t) :
  isFinite (Vector3.length p) = false ->
  isFinite (Vector3.length p * AU_TO_KM) = false.
Proof.
  unfold AU_TO_KM.
  destruct (Vector3.length p); simpl; intros H; try discriminate;
    unfold mul, Reqb, Rltb; rdec; reflexivity.
Qed.

(** C6. [calculateOrbitalElements] answers with the all-zero elements when an
    argument is missing, when [mu] is [0] (or NaN), when the magnitude of the
    position is [0], and when the magnitude of the position or of the
    velocity is not finite; whatever the arguments, each of the seven fields
    it returns is a finite number; and past the guards the inclination is the
    guarded value of [acos(c) * 180 / PI] where [c], the clamped ratio
    [h.z / |h|], is either NaN or lies in [-1, 1]. *)
Theorem calculateOrbitalElements_degenerate_and_finite :
  (forall (position velocity : option Vector3.t) (mu : option num),
      position = None \/ velocity = None \/ mu = None
      \/ mu = Some (Fin 0) \/ mu = Some NaN
      \/ (exists p, position = Some p
                    /\ (Vector3.length p = Fin 0 \/ isFinite (Vector3.length p) = false))
      \/ (exists v, velocity = Some v /\ isFinite (Vector3.length v) = false) ->
      calculateOrbitalElements position velocity mu = zeroElements)
  /\ (forall (position velocity : option Vector3.t) (mu : option num),
      allFinite (calculateOrbitalElements position velocity mu))
  /\ (forall (p v : Vector3.t) (mu : num),
      negb (truthy mu) || (mu === 0) = false ->
      (Vector3.length p * AU_TO_KM === 0)
        || negb (isFinite (Vector3.length p * AU_TO_KM))
        || negb (isFinite (Vector3.length v)) = false ->
      inclination (calculateOrbitalElements (Some p) (Some v) (Some mu)) =
        safeValue (Math_acos (clampedCosine (Vector3.cross p v)) * 180 / Math_PI))
  /\ (forall h : Vector3.t,
      clampedCosine h = NaN
      \/ exists c : R, clampedCosine h = Fin c /\ (-1 <= c <= 1)%R).
Proof.
  split; [ | split; [ | split]].
  - intros position velocity mu H. unfold calculateOrbitalElements.
    destruct position as [p | ]; [ | reflexivity].
    destruct velocity as [v | ]; [ | reflexivity].
    destruct mu as [mu | ]; [ | reflexivity].
    destruct (negb (truthy mu) || (mu === 0)) eqn:Hmu; [reflexivity | ].
    destruct H as [H | [H | [H | [H | [H | [H | H]]]]]]; try discriminate.
    + injection H as ->. unfold truthy in Hmu. rewrite Reqb_true in Hmu by reflexivity.
      discriminate.
    + injection H as ->. discriminate.
    + destruct H as [p' [Hp [Hzero | Hinf]]]; injection Hp as <-.
      * now rewrite (magnitude_zero_radius p Hzero).
      * rewrite (magnitude_infinite_radius p Hinf). simpl.
        now rewrite orb_true_r.
    + destruct H as [v' [Hv Hinf]]. injection Hv as <-. rewrite Hinf. simpl.
      now rewrite orb_true_r.
  - intros position velocity mu. unfold calculateOrbitalElements.
    destruct position as [p | ]; [ | exact zeroElements_finite].
    destruct velocity as [v | ]; [ | exact zeroElements_finite].
    destruct mu as [mu | ]; [ | exact zeroElements_finite].
    destruct (negb (truthy mu) || (mu === 0)); [exact zeroElements_finite | ].
    destruct ((Vector3.length p * AU_TO_KM === 0)
              || negb (isFinite (Vector3.length p * AU_TO_KM))
              || negb (isFinite (Vector3.length v))); [exact zeroElements_finite | ].
    unfold allFinite. simpl. repeat split; apply safeValue_finite.
  - intros p v mu Hmu Hrv. unfold calculateOrbitalElements.
    rewrite Hmu, Hrv. reflexivity.
  - exact clampedCosine_range.
Qed.

(** The theorem at a craft sitting on the Sun's centre and at one whose
    position has overflowed. *)
Lemma calculateOrbitalElements_degenerate_witness :
  calculateOrbitalElements (Some Vector3.zero) (Some (Vector3.mk 0 30 0))
    (Some (Fin 132712440018)) = zeroElements
  /\ calculateOrbitalElements (Some (Vector3.mk PInf 0 0)) (Some (Vector3.mk 0 30 0))
       (Some (Fin 132712440018)) = zeroElements.
Proof.
  destruct calculateOrbitalElements_degenerate_and_finite as [Hzero _].
  split; apply Hzero; do 5 right; left.
  - exists Vector3.zero. split; [reflexivity | left].
    unfold Vector3.length, Vector3.zero. simpl. fin_arith.
    f_equal. replace (0 * 0 + 0 * 0 + 0 * 0)%R with 0%R by lra. apply sqrt_0.
  - exists (Vector3.mk PInf 0 0). split; [reflexivity | right]. reflexivity.
Defined.

(** A craft at 1 AU on the x axis moving at 30 km/s along y, around the
    Sun: the orbit lies in the reference plane and is bound. *)
Example calculateOrbitalElements_in_plane :
  let el :=
    calculateOrbitalElements (Some (Vector3.mk 1 0 0)) (Some (Vector3.mk 0 30 0))
      (Some (GRAVITATIONAL_PARAMETERS_sun / 1000000000)%num) in
  inclination el = Fin 0
  /\ specificEnergy el = Fin (30 * 30 / 2 - mu_sun / (1 * (1495978707 / 10)))%R
  /\ (specificEnergy el <? 0) = true.
Proof.
  cbv zeta. unfold calculateOrbitalElements. rewrite mu_sun_Fin.
  pose proof mu_sun_pos as Hmu.
  unfold truthy. rewrite strict_eq_Fin, Reqb_false by lra. simpl negb. simpl orb.
  rewrite !length_finite, norm3_axis, norm3_axis_y by lra.
  unfold AU_TO_KM. rewrite mul_Fin, strict_eq_Fin, Reqb_false by lra. simpl.
  assert (Hh : Vector3.cross (Vector3.mk 1 0 0) (Vector3.mk 0 30 0)
               = Vector3.mk (Fin (0 * 0 - 0 * 30)) (Fin (0 * 0 - 1 * 0))
                            (Fin (1 * 30 - 0 * 0))%R) by reflexivity.
  assert (Hincl : safeValue
                    (Math_acos (clampedCosine
                       (Vector3.cross (Vector3.mk 1 0 0) (Vector3.mk 0 30 0)))
                     * 180 / Math_PI) = Fin 0).
  { rewrite Hh. unfold clampedCosine. rewrite length_finite. simpl.
    replace (0 * 0 - 0 * 30)%R with 0%R by ring.
    replace (0 * 0 - 1 * 0)%R with 0%R by ring.
    replace (1 * 30 - 0 * 0)%R with 30%R by ring.
    rewrite norm3_axis_z, div_Fin by lra.
    replace (30 / 30)%R with 1%R by (field; lra).
    unfold Math_max, Math_min. rewrite !lt_Fin, Rltb_true by lra. simpl.
    rewrite lt_Fin, Rltb_false by lra.
    unfold Math_acos. rewrite !Rleb_true by lra. simpl.
    rewrite acos_1. unfold Math_PI. pose proof PI_RGT_0 as Hpi.
    fin_arith. unfold safeValue. simpl. f_equal. field. lra. }
  split; [exact Hincl | ].
  assert (Hpos : (0 < mu_sun / (1 * (1495978707 / 10)))%R).
  { apply Rdiv_lt_0_compat; lra. }
  fin_arith. unfold safeValue. simpl.
  split; [reflexivity | ].
  rewrite lt_Fin. apply Rltb_true. unfold mu_sun. lra.
Qed.

End OrbitalElements.

(** ** Fuel for a burn (calculateFuelRequired) *)

Section FuelRequired.

Local Open Scope R_scope.










End FuelRequired.

(** ** The fuel calculators and the range of doubles *)

Section FuelRequiredRange.

Import Binary64.
Local Open Scope R_scope.
























End FuelRequiredRange.

(** ** Hohmann transfers (OrbitalMechanics.calculateHohmannTransfer) *)

Section Hohmann.

Import OrbitalMechanics.
Local Open Scope R_scope.













Local Abbreviation rEarth := (1 * (1495978707 / 10)) (only parsing).
Local Abbreviation rUranus := (19191 / 1000 * (1495978707 / 10)) (only parsing).
Local Abbreviation rNeptune := (30069 / 1000 * (1495978707 / 10)) (only parsing).




End Hohmann.

(** ** Reaction wheels and RCS (applyTorque, desaturateReactionWheels) *)

Section AttitudeControl.

Import SpacecraftSystems.
Local Open Scope R_scope.

Lemma desaturate_withinCap (cap : R) (s : SpacecraftSystems.t) (dt : num) :
  withinCap cap s -> withinCap cap (desaturateReactionWheels s dt).
Proof.
  intros [Hcap [mx [my [mz [Hm Hn]]]]]. unfold desaturateReactionWheels.
  destruct (rcs_fuel (attitude s) <=? 0)%num.
  - split; [exact Hcap | ]. now exists mx, my, mz.
  - split; [exact Hcap | ].
    exists (mx * (99 / 100)), (my * (99 / 100)), (mz * (99 / 100)).
    unfold set_attitude. simpl. rewrite Hm. split; [reflexivity | ].
    rewrite norm3_scale by lra. pose proof (norm3_nonneg mx my mz). lra.
Qed.

Lemma applyTorque_withinCap (cap : R) (s : SpacecraftSystems.t)
      (tx ty tz dt : R) :
  withinCap cap s ->
  0 < dt -> norm3 tx ty tz * dt <= 2 / 10 * cap ->
  withinCap cap (applyTorque s (Vector3.mk (Fin tx) (Fin ty) (Fin tz)) (Fin dt)).
Proof.
  intros Hin Hdt Himp. pose proof Hin as [Hcap [mx [my [mz [Hm Hn]]]]].
  unfold applyTorque. unfold wheelCap in Hcap. rewrite Hcap, Hm, length_finite.
  rewrite mul_Fin, lt_Fin. unfold Rltb.
  destruct (Rlt_dec (norm3 mx my mz) (cap * (8 / 10))) as [Hlow | Hhigh].
  - split; [reflexivity | ].
    exists (mx + tx * dt), (my + ty * dt), (mz + tz * dt).
    unfold set_attitude. simpl. split; [reflexivity | ].
    apply Rle_trans with (norm3 mx my mz + norm3 (tx * dt) (ty * dt) (tz * dt)).
    + apply norm3_triangle.
    + rewrite norm3_scale by lra. lra.
  - now apply desaturate_withinCap.
Qed.

Lemma attitudeStep_withinCap (cap : R) (s : SpacecraftSystems.t)
      (c : AttitudeCommand * num) :
  withinCap cap s -> gentle cap c -> withinCap cap (attitudeStep s c).
Proof.
  intros Hin Hc. unfold attitudeStep, gentle in *.
  destruct (fst c) as [ | torque]; [exact Hin | ].
  destruct Hc as [tx [ty [tz [dt [-> [-> [Hdt Himp]]]]]]].
  now apply applyTorque_withinCap.
Qed.

Lemma attitudeRun_withinCap (cap : R) (cs : list (AttitudeCommand * num)) :
  forall s : SpacecraftSystems.t,
    withinCap cap s -> Forall (gentle cap) cs -> withinCap cap (attitudeRun s cs).
Proof.
  induction cs as [| c cs IH]; intros s Hin Hcs; simpl; [exact Hin | ].
  inversion Hcs as [| c' cs' Hc Hrest]; subst.
  apply IH; [now apply attitudeStep_withinCap | exact Hrest].
Qed.

Lemma withinCap_le (cap : R) (s : SpacecraftSystems.t) :
  withinCap cap s -> (wheelMomentum s <=? wheelCap s)%num = true.
Proof.
  intros [Hcap [mx [my [mz [Hm Hn]]]]]. unfold wheelMomentum.
  rewrite Hcap, Hm, length_finite, le_Fin. now apply Rleb_true.
Qed.

Lemma applyTorque_below_threshold (s : SpacecraftSystems.t) (torque : Vector3.t)
      (dt : num) :
  (wheelMomentum s <? wheelCap s * Fin (8 / 10))%num = true ->
  momentum (reactionWheels (attitude (applyTorque s torque dt)))
    = Vector3.add (momentum (reactionWheels (attitude s)))
                  (Vector3.multiplyScalar torque dt)
  /\ wheelCap (applyTorque s torque dt) = wheelCap s
  /\ rcs_fuel (attitude (applyTorque s torque dt)) = rcs_fuel (attitude s).
Proof.
  intros Hlow. unfold applyTorque. unfold wheelMomentum, wheelCap in Hlow.
  rewrite Hlow. repeat split.
Qed.

Lemma applyTorque_at_threshold (s : SpacecraftSystems.t) (torque : Vector3.t)
      (dt : num) :
  (wheelMomentum s <? wheelCap s * Fin (8 / 10))%num = false ->
  applyTorque s torque dt = desaturateReactionWheels s dt.
Proof.
  intros Hsat. unfold applyTorque. unfold wheelMomentum, wheelCap in Hsat.
  now rewrite Hsat.
Qed.

Lemma desaturate_with_fuel (s : SpacecraftSystems.t) (dt : num) :
  (rcs_fuel (attitude s) <=? 0)%num = false ->
  momentum (reactionWheels (attitude (desaturateReactionWheels s dt)))
    = Vector3.multiplyScalar (momentum (reactionWheels (attitude s)))
                             (Fin (99 / 100))
  /\ rcs_fuel (attitude (desaturateReactionWheels s dt))
    = (rcs_fuel (attitude s) - Fin (1 / 100) * dt)%num
  /\ wheelCap (desaturateReactionWheels s dt) = wheelCap s.
Proof.
  intros Hfuel. unfold desaturateReactionWheels. rewrite Hfuel. repeat split.
Qed.

(** What the saturation test of [applyTorque] does guarantee.  (1) Along
    every sequence of attitude updates whose angular impulse [|torque| * dt]
    is at most a fifth of [maxMomentum] each, wheels that start with a finite
    momentum within [maxMomentum] never exceed it.  (2) Once the stored momentum is not
    below 80% of [maxMomentum], [applyTorque] is [desaturateReactionWheels]:
    the torque is not added and the momentum does not grow.  (3) Without RCS
    propellant desaturation changes nothing; (4) with it, the momentum is
    scaled by 0.99 and the propellant drops by [0.01 * dt]. *)
Theorem wheel_momentum_capped_for_gentle_commands :
  (forall (cap : R) (s : SpacecraftSystems.t) (cs : list (AttitudeCommand * num)),
      withinCap cap s -> Forall (gentle cap) cs ->
      withinCap cap (attitudeRun s cs)
      /\ (wheelMomentum (attitudeRun s cs) <=? wheelCap (attitudeRun s cs))%num = true)
  /\ (forall (s : SpacecraftSystems.t) (torque : Vector3.t) (dt : num),
      (wheelMomentum s <? wheelCap s * Fin (8 / 10))%num = false ->
      applyTorque s torque dt = desaturateReactionWheels s dt)
  /\ (forall (cap : R) (s : SpacecraftSystems.t) (torque : Vector3.t) (dt : num),
      withinCap cap s ->
      (wheelMomentum s <? wheelCap s * Fin (8 / 10))%num = false ->
      exists before after : R,
        wheelMomentum s = Fin before
        /\ wheelMomentum (applyTorque s torque dt) = Fin after
        /\ after <= before)
  /\ (forall (s : SpacecraftSystems.t) (dt : num),
      (rcs_fuel (attitude s) <=? 0)%num = true ->
      desaturateReactionWheels s dt = s)
  /\ (forall (s : SpacecraftSystems.t) (dt : num),
      (rcs_fuel (attitude s) <=? 0)%num = false ->
      momentum (reactionWheels (attitude (desaturateReactionWheels s dt)))
        = Vector3.multiplyScalar (momentum (reactionWheels (attitude s)))
                                 (Fin (99 / 100))
      /\ rcs_fuel (attitude (desaturateReactionWheels s dt))
        = (rcs_fuel (attitude s) - Fin (1 / 100) * dt)%num
      /\ wheelCap (desaturateReactionWheels s dt) = wheelCap s).
Proof.
  split; [ | split; [ | split; [ | split]]].
  - intros cap s cs Hin Hcs.
    pose proof (attitudeRun_withinCap Hin Hcs) as Hout.
    split; [exact Hout | now apply withinCap_le with cap].
  - exact applyTorque_at_threshold.
  - intros cap s torque dt Hin Hsat.
    unfold applyTorque. pose proof Hsat as Hsat'.
    unfold wheelMomentum, wheelCap in Hsat'. rewrite Hsat'. clear Hsat'.
    destruct Hin as [Hcap [mx [my [mz [Hm Hn]]]]].
    exists (norm3 mx my mz). unfold desaturateReactionWheels.
    destruct (rcs_fuel (attitude s) <=? 0)%num.
    + exists (norm3 mx my mz). unfold wheelMomentum. rewrite Hm, length_finite.
      repeat split; lra.
    + exists (norm3 mx my mz * (99 / 100)).
      unfold wheelMomentum, set_attitude. simpl. rewrite Hm.
      unfold Vector3.multiplyScalar. simpl.
      rewrite !mul_Fin, !length_finite, norm3_scale by lra.
      pose proof (norm3_nonneg mx my mz). repeat split; lra.
  - intros s dt Hempty. unfold desaturateReactionWheels. now rewrite Hempty.
  - exact desaturate_with_fuel.
Qed.

(** The theorem from the constructor's state, for a torque of 0.1 Nm held
    for 10 s and an update without torque. *)
Lemma wheel_momentum_capped_witness :
  (wheelMomentum
     (attitudeRun initial
        [(Torque (Vector3.mk (Fin (1 / 10)) 0 0), Fin 10); (Hold, Fin 10)])
   <=? wheelCap
     (attitudeRun initial
        [(Torque (Vector3.mk (Fin (1 / 10)) 0 0), Fin 10); (Hold, Fin 10)]))%num
  = true.
Proof.
  refine (proj2 (proj1 wheel_momentum_capped_for_gentle_commands 50 initial
                   [(Torque (Vector3.mk (Fin (1 / 10)) 0 0), Fin 10); (Hold, Fin 10)]
                   _ _)).
  - split; [reflexivity | ]. exists 0, 0, 0. split; [reflexivity | ].
    rewrite norm3_axis; lra.
  - repeat constructor. exists (1 / 10), 0, 0, 10.
    repeat split; try lra. rewrite norm3_axis; lra.
Defined.

(** C2 fails on the code.  From the constructor's state (no momentum stored,
    [maxMomentum = 50]) one update with a torque of 0.5 Nm and a time step of
    200 s passes the saturation check, which looks at the momentum stored
    before the torque is added, and leaves 100 Nms in the wheels, twice
    [maxMomentum]: the sum is never clamped. *)
Theorem applyTorque_exceeds_maxMomentum :
  wheelMomentum initial = Fin 0
  /\ wheelMomentum (applyTorque initial (Vector3.mk (Fin (1 / 2)) 0 0) (Fin 200))
     = Fin 100
  /\ wheelCap (applyTorque initial (Vector3.mk (Fin (1 / 2)) 0 0) (Fin 200)) = Fin 50
  /\ (wheelMomentum (applyTorque initial (Vector3.mk (Fin (1 / 2)) 0 0) (Fin 200))
      >? wheelCap (applyTorque initial (Vector3.mk (Fin (1 / 2)) 0 0) (Fin 200)))%num
     = true.
Proof.
  assert (H0 : wheelMomentum initial = Fin 0).
  { unfold wheelMomentum, initial, Vector3.zero. simpl.
    rewrite length_finite, norm3_axis; [reflexivity | lra]. }
  assert (Hstep : applyTorque initial (Vector3.mk (Fin (1 / 2)) 0 0) (Fin 200)
                  = set_attitude initial
                      (mkAttitude
                         (orientation
                            (attitude (applyTorque initial
                                         (Vector3.mk (Fin (1 / 2)) 0 0) (Fin 200))))
                         (Vector3.mk (Fin (1 / 2 * (1 / 10))) (Fin (0 * (1 / 10)))
                                     (Fin (0 * (1 / 10))))
                         (mkWheels (Vector3.mk (Fin (0 + 1 / 2 * 200))
                                               (Fin (0 + 0 * 200)) (Fin (0 + 0 * 200)))
                                   (Fin 50))
                         (Fin 50))).
  { unfold applyTorque. fold (wheelMomentum initial). rewrite H0.
    unfold initial at 1. simpl. rewrite mul_Fin, lt_Fin, Rltb_true by lra.
    reflexivity. }
  split; [exact H0 | ].
  assert (H100 : wheelMomentum
                   (applyTorque initial (Vector3.mk (Fin (1 / 2)) 0 0) (Fin 200))
                 = Fin 100).
  { rewrite Hstep. unfold wheelMomentum, set_attitude. simpl.
    rewrite length_finite. f_equal.
    replace (0 + 1 / 2 * 200) with 100 by lra.
    replace (0 + 0 * 200) with 0 by lra. apply norm3_axis. lra. }
  split; [exact H100 | ].
  assert (H50 : wheelCap (applyTorque initial (Vector3.mk (Fin (1 / 2)) 0 0) (Fin 200))
                = Fin 50).
  { rewrite Hstep. reflexivity. }
  split; [exact H50 | ].
  rewrite H100, H50, gt_Fin. apply Rltb_true. lra.
Qed.

(** C7 fails on the code.  From the constructor's state (50 kg of RCS
    propellant), a torque of 0.5 Nm for 100 s fills the wheels to
    [maxMomentum]; the next update, 6000 s long, desaturates them and takes
    [0.01 * 6000 = 60] kg from the 50 kg left: the store ends at -10 kg. *)
Theorem rcs_fuel_driven_negative :
  rcs_fuel (attitude initial) = Fin 50
  /\ rcs_fuel
       (attitude
          (attitudeRun initial
             [(Torque (Vector3.mk (Fin (1 / 2)) 0 0), Fin 100);
              (Torque (Vector3.mk (Fin (1 / 2)) 0 0), Fin 6000)]))
     = Fin (50 - 1 / 100 * 6000)
  /\ (rcs_fuel
        (attitude
           (attitudeRun initial
              [(Torque (Vector3.mk (Fin (1 / 2)) 0 0), Fin 100);
               (Torque (Vector3.mk (Fin (1 / 2)) 0 0), Fin 6000)]))
      <? 0)%num = true.
Proof.
  set (torque := Vector3.mk (Fin (1 / 2)) 0 0).
  assert (H0 : (wheelMomentum initial <? wheelCap initial * Fin (8 / 10))%num = true).
  { unfold wheelMomentum, wheelCap, initial, Vector3.zero. simpl.
    rewrite length_finite, norm3_axis, mul_Fin, lt_Fin by lra.
    apply Rltb_true. lra. }
  destruct (applyTorque_below_threshold initial torque (Fin 100) H0)
    as [Hm1 [Hc1 Hf1]].
  set (s1 := applyTorque initial torque (Fin 100)) in *.
  assert (H1 : (wheelMomentum s1 <? wheelCap s1 * Fin (8 / 10))%num = false).
  { unfold wheelMomentum. rewrite Hm1, Hc1.
    unfold wheelCap, initial, torque, Vector3.zero, Vector3.add,
      Vector3.multiplyScalar. simpl.
    rewrite !mul_Fin, !add_Fin, length_finite, lt_Fin.
    replace (0 + 1 / 2 * 100) with 50 by lra.
    replace (0 + 0 * 100) with 0 by lra.
    rewrite norm3_axis by lra. apply Rltb_false. lra. }
  assert (Hfuel : (rcs_fuel (attitude s1) <=? 0)%num = false).
  { rewrite Hf1. unfold initial. simpl. rewrite le_Fin. apply Rleb_false. lra. }
  assert (Hend : rcs_fuel (attitude (attitudeRun initial
                    [(Torque torque, Fin 100); (Torque torque, Fin 6000)]))
                 = Fin (50 - 1 / 100 * 6000)).
  { unfold attitudeRun. simpl. unfold attitudeStep. simpl. fold s1.
    rewrite (applyTorque_at_threshold s1 torque (Fin 6000) H1).
    destruct (desaturate_with_fuel s1 (Fin 6000) Hfuel) as [_ [Hf2 _]].
    rewrite Hf2, Hf1. reflexivity. }
  split; [reflexivity | ]. split; [exact Hend | ].
  rewrite Hend, lt_Fin. apply Rltb_true. lra.
Qed.

End AttitudeControl.

(** ** Kepler's equation (ManoeuvreNode.solveKeplersEquation) *)

Section KeplerSolver.

Import ManoeuvreNode.
Local Open Scope R_scope.

(** *** Convergence for eccentricities up to one half *)

Lemma sin_sqr_le (y : R) : sin y * sin y <= y * y.
Proof.
  assert (Hpos : forall t : R, 0 <= t -> - t <= sin t <= t).
  { intros t Ht. pose proof PI2_1 as Hpi. pose proof (SIN_bound t) as [Hlo Hhi].
    split.
    - destruct (Rle_dec t PI) as [Hle | Hgt].
      + pose proof (sin_ge_0 t Ht Hle). lra.
      + lra.
    - destruct Ht as [Hlt | <-]; [left; now apply sin_lt_x | rewrite sin_0; lra]. }
  destruct (Rle_dec 0 y) as [Hy | Hy].
  - destruct (Hpos y Hy). nra.
  - assert (Hy' : 0 <= - y) by lra.
    destruct (Hpos (- y) Hy') as [H1 H2]. rewrite sin_neg in H1, H2. nra.
Qed.

Lemma one_minus_cos_bound (x : R) : 0 <= 1 - cos x <= x * x / 2.
Proof.
  pose proof (COS_bound x) as [_ Hhi]. split; [lra | ].
  replace x with (2 * (x / 2)) at 1 by field.
  rewrite cos_2a_sin. pose proof (sin_sqr_le (x / 2)). nra.
Qed.

Lemma x_minus_sin_nonneg (x : R) :
  0 <= x <= 1 -> 0 <= x - sin x <= x * x / 6.
Proof.
  intros [H0 H1]. split.
  - destruct H0 as [Hlt | <-]; [pose proof (sin_lt_x x Hlt); lra | rewrite sin_0; lra].
  - assert (H4 : x <= 4) by lra.
    destruct (pre_sin_bound x 0 H0 H4) as [Hlb _].
    replace (sin_approx x (2 * 0 + 1)) with (x - x * x * x / 6) in Hlb
      by (unfold sin_approx, sin_term; simpl; field).
    nra.
Qed.

Lemma x_minus_sin_bound (x : R) :
  -1 <= x <= 1 -> - (x * x / 6) <= x - sin x <= x * x / 6.
Proof.
  intros [Hlo Hhi]. destruct (Rle_dec 0 x) as [Hpos | Hneg].
  - destruct (@x_minus_sin_nonneg x) as [H1 H2]; [lra | ]. nra.
  - destruct (@x_minus_sin_nonneg (- x)) as [H1 H2]; [lra | ].
    rewrite sin_neg in H1, H2. nra.
Qed.

(** The second-order remainder of the sine. *)
Lemma sin_remainder (E d : R) :
  -1 <= d <= 1 ->
  - (2 / 3 * (d * d)) <= sin (E - d) - sin E + d * cos E <= 2 / 3 * (d * d).
Proof.
  intros Hd. rewrite sin_minus.
  pose proof (one_minus_cos_bound d) as [Hu0 Hu1].
  pose proof (x_minus_sin_bound Hd) as [Hw0 Hw1].
  pose proof (SIN_bound E) as [Hs0 Hs1].
  pose proof (COS_bound E) as [Hc0 Hc1].
  set (u := 1 - cos d) in *. set (w := d - sin d) in *.
  replace (sin E * cos d - cos E * sin d - sin E + d * cos E)
    with (cos E * w - sin E * u) by (unfold u, w; ring).
  assert (Hsu : - u <= sin E * u <= u) by nra.
  assert (Hcw : - (d * d / 6) <= cos E * w <= d * d / 6).
  { destruct (Rle_dec 0 w); nra. }
  lra.
Qed.

Lemma quotient_bound (n d b : R) :
  0 < d -> - (b * d) <= n <= b * d -> - b <= n / d <= b.
Proof.
  intros Hd [Hlo Hhi]. unfold Rdiv.
  split; apply Rmult_le_reg_r with d; try exact Hd;
    rewrite Rmult_assoc, Rinv_l by lra; lra.
Qed.

Lemma kepler_denominator (e E : R) : 0 <= e <= 1 / 2 -> 1 / 2 <= 1 - e * cos E.
Proof. intros He. pose proof (COS_bound E) as [Hc0 Hc1]. nra. Qed.

Lemma keplerCorrection_first (M e : R) :
  0 <= e <= 1 / 2 -> -1 <= keplerCorrection M e M <= 1.
Proof.
  intros He. unfold keplerCorrection.
  pose proof (kepler_denominator M He) as Hden.
  pose proof (SIN_bound M) as [Hs0 Hs1].
  replace (-1) with (- (1)) by ring.
  apply quotient_bound; [lra | ].
  pose proof (COS_bound M) as [Hc0 Hc1]. nra.
Qed.

(** One Newton step squares the correction, up to the factor [2/3]. *)
Lemma keplerCorrection_step (M e E : R) :
  0 <= e <= 1 / 2 ->
  -1 <= keplerCorrection M e E <= 1 ->
  - (2 / 3 * (keplerCorrection M e E * keplerCorrection M e E))
  <= keplerCorrection M e (E - keplerCorrection M e E)
  <= 2 / 3 * (keplerCorrection M e E * keplerCorrection M e E).
Proof.
  intros He Hd.
  pose proof (kepler_denominator E He) as Hden.
  assert (Hnum : E - e * sin E - M = keplerCorrection M e E * (1 - e * cos E)).
  { unfold keplerCorrection. field. lra. }
  set (d := keplerCorrection M e E) in *.
  pose proof (kepler_denominator (E - d) He) as Hden'.
  pose proof (sin_remainder E Hd) as [Hr0 Hr1].
  unfold keplerCorrection.
  apply quotient_bound; [lra | ].
  replace (E - d - e * sin (E - d) - M)
    with (- e * (sin (E - d) - sin E + d * cos E)) by lra.
  assert (Hdd : 0 <= d * d) by nra.
  set (r := sin (E - d) - sin E + d * cos E) in *.
  set (q := 1 - e * cos (E - d)) in *.
  assert (Her : - (e * (2 / 3 * (d * d))) <= e * r <= e * (2 / 3 * (d * d))) by nra.
  assert (Hq : e * (2 / 3 * (d * d)) <= 2 / 3 * (d * d) * q) by nra.
  lra.
Qed.

Lemma newtonBound_range (n : nat) : 0 < newtonBound n <= 1.
Proof. do 6 (destruct n as [| n]; [simpl; lra | ]). simpl. lra. Qed.

Lemma newtonBound_step (n : nat) :
  2 / 3 * (newtonBound (S n) * newtonBound (S n)) <= newtonBound n.
Proof. do 6 (destruct n as [| n]; [simpl; lra | ]). simpl. lra. Qed.

Lemma tolerance_exceeded (d : R) :
  1 / 1000000 < Rabs d -> (Math_abs (Fin d) >? tolerance_default)%num = true.
Proof.
  intros H. unfold tolerance_default. rewrite abs_Fin, gt_Fin. now apply Rltb_true.
Qed.

Lemma tolerance_met (d : R) :
  Rabs d <= 1 / 1000000 -> (Math_abs (Fin d) >? tolerance_default)%num = false.
Proof.
  intros H. unfold tolerance_default. rewrite abs_Fin, gt_Fin. now apply Rltb_false.
Qed.

Lemma newtonDelta_finite (M e E : R) :
  1 - e * cos E <> 0 ->
  newtonDelta (Fin M) (Fin e) (Fin E) = Fin ((E - e * sin E - M) / (1 - e * cos E)).
Proof. intros H. unfold newtonDelta. fin_arith. reflexivity. Qed.

Lemma Rabs_le_between (x b : R) : Rabs x <= b <-> - b <= x <= b.
Proof.
  split.
  - intros H. pose proof (Rle_abs x) as H1. pose proof (Rle_abs (- x)) as H2.
    rewrite Rabs_Ropp in H2. lra.
  - apply Rabs_le.
Qed.

Lemma newtonDelta_correction (M e E : R) :
  0 <= e <= 1 / 2 ->
  newtonDelta (Fin M) (Fin e) (Fin E) = Fin (keplerCorrection M e E).
Proof.
  intros He. unfold keplerCorrection. apply newtonDelta_finite.
  pose proof (kepler_denominator E He). lra.
Qed.

(** Leaving the loop: a correction within the tolerance ends it, and the
    value it leaves satisfies the stopping condition as well. *)
Lemma keplerLoop_exit (M e : R) (n : nat) (E : R) :
  0 <= e <= 1 / 2 ->
  Rabs (keplerCorrection M e E) <= 1 / 1000000 ->
  keplerLoop n (Fin M) (Fin e) tolerance_default
    (Fin (E - keplerCorrection M e E)) (Fin (keplerCorrection M e E))
  = Some (Fin (E - keplerCorrection M e E))
  /\ Rabs (keplerCorrection M e (E - keplerCorrection M e E)) <= 1 / 1000000.
Proof.
  intros He Hsmall. split.
  - destruct n; simpl; rewrite (@tolerance_met _ Hsmall); reflexivity.
  - apply Rabs_le_between in Hsmall.
    assert (Hd : -1 <= keplerCorrection M e E <= 1) by lra.
    pose proof (@keplerCorrection_step M e E He Hd) as Hstep.
    apply Rabs_le_between. nra.
Qed.

Lemma keplerLoop_converges (M e : R) :
  0 <= e <= 1 / 2 ->
  forall (n : nat) (E : R),
    Rabs (keplerCorrection M e E) <= newtonBound n ->
    exists E' : R,
      keplerLoop n (Fin M) (Fin e) tolerance_default
        (Fin (E - keplerCorrection M e E)) (Fin (keplerCorrection M e E))
      = Some (Fin E')
      /\ Rabs (keplerCorrection M e E') <= 1 / 1000000.
Proof.
  intros He. induction n as [| n IH]; intros E Hb.
  - exists (E - keplerCorrection M e E). now apply keplerLoop_exit.
  - destruct (Rle_dec (Rabs (keplerCorrection M e E)) (1 / 1000000)) as [Hsmall | Hlarge].
    + exists (E - keplerCorrection M e E). now apply keplerLoop_exit.
    + apply Rnot_le_lt in Hlarge.
      pose proof (newtonBound_range (S n)) as [_ Hone].
      pose proof (newtonBound_step n) as Hnext.
      apply Rabs_le_between in Hb.
      assert (Hd : -1 <= keplerCorrection M e E <= 1) by lra.
      pose proof (@keplerCorrection_step M e E He Hd) as Hstep.
      destruct (IH (E - keplerCorrection M e E)) as [E' [Hrun Hres]].
      { apply Rabs_le_between. nra. }
      exists E'. split; [ | exact Hres].
      simpl. rewrite (@tolerance_exceeded _ Hlarge), newtonDelta_correction by exact He.
      rewrite sub_Fin. exact Hrun.
Qed.

Lemma solveKeplersEquation_converges (M e : R) :
  0 <= e <= 1 / 2 ->
  exists E : R,
    solveKeplersEquation 7 (Fin M) (Fin e) = Some (Fin E)
    /\ (Math_abs (newtonDelta (Fin M) (Fin e) (Fin E)) <=? tolerance_default)%num = true.
Proof.
  intros He.
  destruct (@keplerLoop_converges M e He 6 M) as [E [Hrun Hres]].
  { apply Rabs_le_between. simpl. apply (@keplerCorrection_first M e He). }
  exists E. split.
  - unfold solveKeplersEquation.
    change (keplerLoop 7 (Fin M) (Fin e) tolerance_default (Fin M) (Fin 1))
      with (if (Math_abs (Fin 1) >? tolerance_default)%num
            then keplerLoop 6 (Fin M) (Fin e) tolerance_default
                   (Fin M - newtonDelta (Fin M) (Fin e) (Fin M))%num
                   (newtonDelta (Fin M) (Fin e) (Fin M))
            else Some (Fin M)).
    rewrite (@tolerance_exceeded 1) by (rewrite Rabs_pos_eq; lra).
    rewrite newtonDelta_correction, sub_Fin by exact He. exact Hrun.
  - rewrite newtonDelta_correction by exact He.
    unfold tolerance_default. rewrite abs_Fin, le_Fin. now apply Rleb_true.
Qed.

End KeplerSolver.

(** ** Rounding to the nearest double *)

Section Rounding.

Local Open Scope R_scope.

Lemma pow2_pos (z : Z) : 0 < powerRZ 2 z.
Proof. apply powerRZ_lt. lra. Qed.

Lemma pow2_add (a b : Z) : powerRZ 2 (a + b) = powerRZ 2 a * powerRZ 2 b.
Proof. apply powerRZ_add. lra. Qed.

Lemma pow2_succ (a : Z) : powerRZ 2 (a + 1) = 2 * powerRZ 2 a.
Proof. rewrite pow2_add. simpl. ring. Qed.

Lemma pow2_nonneg_ge_1 (n : Z) : (0 <= n)%Z -> 1 <= powerRZ 2 n.
Proof.
  intros Hn. destruct n as [ | p | p]; [simpl; lra | | lia].
  unfold powerRZ. apply pow_R1_Rle. lra.
Qed.

Lemma pow2_le (a b : Z) : (a <= b)%Z -> powerRZ 2 a <= powerRZ 2 b.
Proof.
  intros H. replace b with (a + (b - a))%Z by lia. rewrite pow2_add.
  pose proof (pow2_pos a). pose proof (@pow2_nonneg_ge_1 (b - a) ltac:(lia)). nra.
Qed.

Lemma pow2_lt (a b : Z) : (a < b)%Z -> powerRZ 2 a < powerRZ 2 b.
Proof.
  intros H. apply Rlt_le_trans with (powerRZ 2 (a + 1)).
  - rewrite pow2_succ. pose proof (pow2_pos a). lra.
  - apply pow2_le. lia.
Qed.

Lemma pow2_lt_inv (a b : Z) : powerRZ 2 a < powerRZ 2 b -> (a < b)%Z.
Proof.
  intros H. destruct (Z_lt_le_dec a b) as [Hlt | Hge]; [exact Hlt | ].
  pose proof (pow2_le Hge). lra.
Qed.

Lemma pow2_IZR (n : Z) : (0 <= n)%Z -> powerRZ 2 n = IZR (2 ^ n).
Proof.
  intros Hn. destruct n as [ | p | p]; [reflexivity | | lia].
  unfold powerRZ. rewrite pow_IZR. now rewrite positive_nat_Z.
Qed.

Lemma ln_2_positive : 0 < ln 2.
Proof. rewrite <- ln_1. apply ln_increasing; lra. Qed.

Lemma pow2_exp (z : Z) : powerRZ 2 z = exp (IZR z * ln 2).
Proof. rewrite powerRZ_Rpower by lra. reflexivity. Qed.

Lemma exponent_spec (x : R) :
  x <> 0 ->
  powerRZ 2 (Binary64.exponent x) <= Rabs x < powerRZ 2 (Binary64.exponent x + 1).
Proof.
  intros Hx. unfold Binary64.exponent.
  assert (Hpos : 0 < Rabs x) by now apply Rabs_pos_lt.
  pose proof (Zfloor_bound (ln (Rabs x) / ln 2)) as [Hlo Hhi].
  set (p := Zfloor (ln (Rabs x) / ln 2)) in *.
  pose proof ln_2_positive as Hl2.
  assert (Hlo' : IZR p * ln 2 <= ln (Rabs x)).
  { apply Rmult_le_compat_r with (r := ln 2) in Hlo; [ | lra].
    unfold Rdiv in Hlo. rewrite Rmult_assoc, Rinv_l, Rmult_1_r in Hlo by lra.
    exact Hlo. }
  assert (Hhi' : ln (Rabs x) < IZR (p + 1) * ln 2).
  { rewrite plus_IZR.
    apply Rmult_lt_compat_r with (r := ln 2) in Hhi; [ | lra].
    unfold Rdiv in Hhi. rewrite Rmult_assoc, Rinv_l, Rmult_1_r in Hhi by lra.
    exact Hhi. }
  rewrite !pow2_exp.
  assert (H1 : exp (IZR p * ln 2) <= exp (ln (Rabs x))).
  { destruct Hlo' as [Hlt | Heq]; [left; now apply exp_increasing | right; now rewrite Heq]. }
  assert (H2 : exp (ln (Rabs x)) < exp (IZR (p + 1) * ln 2)) by now apply exp_increasing.
  rewrite (exp_ln (Rabs x) Hpos) in H1, H2. split; assumption.
Qed.

Lemma exponent_unique (p : Z) (x : R) :
  powerRZ 2 p <= Rabs x < powerRZ 2 (p + 1) -> Binary64.exponent x = p.
Proof.
  intros [Hlo Hhi].
  assert (Hx : x <> 0).
  { intros ->. rewrite Rabs_R0 in Hlo. pose proof (pow2_pos p). lra. }
  destruct (exponent_spec Hx) as [Hlo' Hhi'].
  assert (H1 : (p < Binary64.exponent x + 1)%Z) by (apply pow2_lt_inv; lra).
  assert (H2 : (Binary64.exponent x < p + 1)%Z) by (apply pow2_lt_inv; lra).
  lia.
Qed.

Lemma nearestEven_error (y : R) : Rabs (IZR (Binary64.nearestEven y) - y) <= 1 / 2.
Proof.
  unfold Binary64.nearestEven.
  pose proof (Zfloor_bound y) as [Hlo Hhi].
  set (f := Zfloor y) in *.
  unfold Rltb.
  destruct (Rlt_dec (y - IZR f) (1 / 2)) as [H1 | H1].
  - rewrite Rabs_left1 by lra. lra.
  - destruct (Rlt_dec (1 / 2) (y - IZR f)) as [H2 | H2].
    + rewrite plus_IZR. rewrite Rabs_pos_eq by lra. lra.
    + destruct (Z.even f).
      * rewrite Rabs_left1 by lra. lra.
      * rewrite plus_IZR. rewrite Rabs_pos_eq by lra. lra.
Qed.

Lemma nearestEven_IZR (k : Z) : Binary64.nearestEven (IZR k) = k.
Proof.
  unfold Binary64.nearestEven. rewrite ZfloorZ.
  replace (IZR k - IZR k) with 0 by ring. now rewrite Rltb_true by lra.
Qed.

(** The rounded value in terms of the grid of [x]. *)
Lemma round_unfold (x : R) :
  Binary64.round (Fin x)
  = (let q := (Z.max (Binary64.exponent x) (-1022) - 52)%Z in
     let r := IZR (Binary64.nearestEven (x / powerRZ 2 q)) * powerRZ 2 q in
     if Rleb (powerRZ 2 1024) (Rabs r) then infinity (Rltb 0 x) else Fin r).
Proof. reflexivity. Qed.

Lemma grid_error (x : R) (q : Z) :
  Rabs (IZR (Binary64.nearestEven (x / powerRZ 2 q)) * powerRZ 2 q - x)
  <= powerRZ 2 q / 2.
Proof.
  pose proof (pow2_pos q) as Hq.
  pose proof (nearestEven_error (x / powerRZ 2 q)) as He.
  replace (IZR (Binary64.nearestEven (x / powerRZ 2 q)) * powerRZ 2 q - x)
    with ((IZR (Binary64.nearestEven (x / powerRZ 2 q)) - x / powerRZ 2 q) * powerRZ 2 q)
    by (field; lra).
  rewrite Rabs_mult, (Rabs_pos_eq (powerRZ 2 q)) by lra.
  apply Rmult_le_compat_r with (r := powerRZ 2 q) in He; lra.
Qed.

Lemma round_zero : Binary64.round (Fin 0) = Fin 0.
Proof.
  rewrite round_unfold. cbv zeta.
  replace (0 / powerRZ 2 (Z.max (Binary64.exponent 0) (-1022) - 52)) with (IZR 0)
    by (unfold Rdiv; simpl; ring).
  rewrite nearestEven_IZR. simpl IZR. rewrite Rmult_0_l, Rabs_R0.
  rewrite Rleb_false by (pose proof (pow2_pos 1024); lra). reflexivity.
Qed.

(** A result below [2^(P+1)] in magnitude is rounded to a double at most
    [2^(P-53)] away. *)
Lemma round_bounded (P : Z) (x : R) :
  (-1022 <= P <= 1022)%Z -> Rabs x < powerRZ 2 (P + 1) ->
  exists y : R,
    Binary64.round (Fin x) = Fin y /\ Rabs (y - x) <= powerRZ 2 (P - 53).
Proof.
  intros HP Hx.
  destruct (Req_dec_T x 0) as [-> | Hnz].
  { exists 0. split; [exact round_zero | ].
    replace (0 - 0) with 0 by ring. rewrite Rabs_R0. left. apply pow2_pos. }
  rewrite round_unfold. cbv zeta.
  set (q := (Z.max (Binary64.exponent x) (-1022) - 52)%Z).
  set (r := IZR (Binary64.nearestEven (x / powerRZ 2 q)) * powerRZ 2 q).
  assert (Hq : (q <= P - 52)%Z).
  { destruct (exponent_spec Hnz) as [Hlo _].
    assert ((Binary64.exponent x < P + 1)%Z) by (apply pow2_lt_inv; lra).
    unfold q. lia. }
  assert (Herr : Rabs (r - x) <= powerRZ 2 (P - 53)).
  { apply Rle_trans with (powerRZ 2 q / 2); [apply grid_error | ].
    replace (P - 53)%Z with ((P - 52) + (-1))%Z by lia. rewrite pow2_add.
    change (powerRZ 2 (-1)) with (/ (2 * 1)).
    pose proof (pow2_le Hq). lra. }
  assert (Hr : Rabs r < powerRZ 2 1024).
  { replace r with (x + (r - x)) by ring.
    apply Rle_lt_trans with (Rabs x + Rabs (r - x)); [apply Rabs_triang | ].
    assert (H1 : powerRZ 2 (P + 1) <= powerRZ 2 1023) by (apply pow2_le; lia).
    assert (H2 : powerRZ 2 (P - 53) <= powerRZ 2 1022) by (apply pow2_le; lia).
    assert (H3 : powerRZ 2 1023 = 2 * powerRZ 2 1022) by (apply (pow2_succ 1022)).
    assert (H4 : powerRZ 2 1024 = 2 * powerRZ 2 1023) by (apply (pow2_succ 1023)).
    pose proof (pow2_pos 1022). lra. }
  exists r. split; [ | exact Herr].
  now rewrite Rleb_false by lra.
Qed.

(** A result of exponent [p] is rounded to the nearest multiple of
    [2^(p-52)]. *)
Lemma round_binade (p : Z) (x : R) :
  (-1022 <= p <= 1022)%Z -> powerRZ 2 p <= x < powerRZ 2 (p + 1) ->
  Binary64.round (Fin x)
  = Fin (IZR (Binary64.nearestEven (x / powerRZ 2 (p - 52))) * powerRZ 2 (p - 52)).
Proof.
  intros Hp [Hlo Hhi]. pose proof (pow2_pos p) as Hpp.
  assert (Habs : Rabs x = x) by (apply Rabs_pos_eq; lra).
  assert (He : Binary64.exponent x = p) by (apply exponent_unique; rewrite Habs; lra).
  destruct (@round_bounded p x Hp) as (y & Hy & _); [rewrite Habs; lra | ].
  rewrite round_unfold in Hy |- *. cbv zeta in Hy |- *. rewrite He in Hy |- *.
  replace (Z.max p (-1022) - 52)%Z with (p - 52)%Z in Hy |- * by lia.
  destruct (Rleb (powerRZ 2 1024) _).
  - unfold infinity in Hy. destruct (Rltb 0 x); discriminate Hy.
  - reflexivity.
Qed.

(** A multiple of a power of two with a factor below [2^53] is a double, and
    is not rounded. *)
Lemma round_exact (j q : Z) :
  (-1074 <= q)%Z -> (Z.abs j < 2 ^ 53)%Z -> Rabs (IZR j * powerRZ 2 q) < powerRZ 2 1023 ->
  Binary64.round (Fin (IZR j * powerRZ 2 q)) = Fin (IZR j * powerRZ 2 q).
Proof.
  intros Hq Hj Hx. set (x := IZR j * powerRZ 2 q) in *.
  pose proof (pow2_pos q) as Hqp.
  destruct (Z.eq_dec j 0) as [-> | Hj0].
  - assert (Hx0 : x = 0) by (unfold x; simpl; ring). rewrite Hx0. exact round_zero.
  - assert (Hnz : x <> 0).
    { unfold x. apply Rmult_integral_contrapositive_currified; [ | lra].
      intros H0. apply eq_IZR_R0 in H0. contradiction. }
    destruct (exponent_spec Hnz) as [Hlo Hhi].
    set (p := Binary64.exponent x) in *.
    assert (Habsx : Rabs x = IZR (Z.abs j) * powerRZ 2 q).
    { unfold x. rewrite Rabs_mult, (Rabs_pos_eq (powerRZ 2 q)) by lra.
      now rewrite <- abs_IZR. }
    assert (Hpq : (p - 52 <= q)%Z).
    { assert (Hlt : powerRZ 2 p < powerRZ 2 (53 + q)).
      { apply Rle_lt_trans with (Rabs x); [exact Hlo | ].
        rewrite Habsx, pow2_add, (@pow2_IZR 53) by lia.
        apply Rmult_lt_compat_r; [exact Hqp | ]. now apply IZR_lt. }
      apply pow2_lt_inv in Hlt. lia. }
    set (q' := (Z.max p (-1022) - 52)%Z).
    assert (Hq' : (q' <= q)%Z) by (unfold q'; lia).
    assert (Hint : x / powerRZ 2 q' = IZR (j * 2 ^ (q - q'))).
    { unfold x. rewrite mult_IZR, <- pow2_IZR by lia.
      replace q with ((q - q') + q')%Z at 1 by lia. rewrite pow2_add.
      field. pose proof (pow2_pos q'). lra. }
    rewrite round_unfold. cbv zeta. fold p. fold q'.
    rewrite Hint, nearestEven_IZR, <- Hint.
    replace (x / powerRZ 2 q' * powerRZ 2 q') with x
      by (field; pose proof (pow2_pos q'); lra).
    rewrite Rleb_false; [reflexivity | ].
    assert (powerRZ 2 1023 <= powerRZ 2 1024) by (apply pow2_le; lia). lra.
Qed.

End Rounding.

(** ** The sine near [31475276904.846592] *)

Section SineAtTheMeanAnomaly.

Local Open Scope R_scope.

Lemma Q2R_qpow (q : Q) (n : nat) : Q2R (qpow q n) = Q2R q ^ n.
Proof.
  induction n as [ | n IH]; simpl.
  - unfold Q2R. simpl. lra.
  - now rewrite Q2R_mult, IH.
Qed.

Lemma Q2R_inject_nat (n : nat) : Q2R (inject_Z (Z.of_nat n)) = INR n.
Proof. unfold Q2R, inject_Z. simpl. rewrite INR_IZR_INZ. lra. Qed.

Lemma Q2R_machinTerm (i : nat) : Q2R (machinTerm i) = tg_alt PI_2_3_7_tg i.
Proof.
  unfold machinTerm, tg_alt, PI_2_3_7_tg, Ratan_seq.
  assert (Hnz : ~ (inject_Z (Z.of_nat (2 * i + 1)) == 0)%Q).
  { unfold Qeq, inject_Z. simpl. lia. }
  rewrite Q2R_mult, Q2R_plus, Q2R_mult, !Q2R_div by exact Hnz.
  rewrite !Q2R_qpow, Q2R_inject_nat.
  replace (Q2R (-1)) with (-1) by (unfold Q2R; simpl; lra).
  replace (Q2R 2) with 2 by (unfold Q2R; simpl; lra).
  replace (Q2R (1 # 3)) with (/ 3) by (unfold Q2R; simpl; lra).
  replace (Q2R (1 # 7)) with (/ 7) by (unfold Q2R; simpl; lra).
  reflexivity.
Qed.

Lemma Q2R_machinSum (n : nat) :
  Q2R (machinSum n) = sum_f_R0 (tg_alt PI_2_3_7_tg) n.
Proof.
  induction n as [ | n IH]; simpl.
  - apply Q2R_machinTerm.
  - now rewrite Q2R_plus, IH, Q2R_machinTerm.
Qed.

(** Nineteen decimals of [pi]. *)
Lemma PI_19_decimals :
  31415926535897932384 / 10000000000000000000 <= PI
  <= 31415926535897932385 / 10000000000000000000.
Proof.
  pose proof (PI_2_3_7_ineq 10) as [Hlo Hhi].
  change (S (2 * 10)) with 21%nat in Hlo. change (2 * 10)%nat with 20%nat in Hhi.
  rewrite <- Q2R_machinSum in Hlo, Hhi.
  assert (Qlo : (31415926535897932384 # 40000000000000000000 <= machinSum 21)%Q).
  { apply Qle_bool_imp_le. vm_compute. reflexivity. }
  assert (Qhi : (machinSum 20 <= 31415926535897932385 # 40000000000000000000)%Q).
  { apply Qle_bool_imp_le. vm_compute. reflexivity. }
  apply Qle_Rle in Qlo. apply Qle_Rle in Qhi.
  assert (E1 : Q2R (31415926535897932384 # 40000000000000000000)
               = 31415926535897932384 / 40000000000000000000)
    by (unfold Q2R; simpl; lra).
  assert (E2 : Q2R (31415926535897932385 # 40000000000000000000)
               = 31415926535897932385 / 40000000000000000000)
    by (unfold Q2R; simpl; lra).
  rewrite E1 in Qlo. rewrite E2 in Qhi. lra.
Qed.


Lemma factorial_values :
  INR (fact 3) = 6 /\ INR (fact 5) = 120 /\ INR (fact 7) = 5040
  /\ INR (fact 9) = 362880.
Proof.
  repeat split; rewrite INR_IZR_INZ; apply f_equal; vm_compute; reflexivity.
Qed.

Lemma sin_lower (a : R) :
  0 <= a <= PI -> a - a ^ 3 / 6 + a ^ 5 / 120 - a ^ 7 / 5040 <= sin a.
Proof.
  intros [H0 H1]. destruct (sin_bound a 1 H0 H1) as [Hlo _].
  destruct factorial_values as (F3 & F5 & F7 & _).
  change (2 * 1 + 1)%nat with 3%nat in Hlo.
  unfold sin_approx in Hlo. cbn [sum_f_R0] in Hlo. unfold sin_term in Hlo.
  change (2 * 0 + 1)%nat with 1%nat in Hlo. change (2 * 1 + 1)%nat with 3%nat in Hlo.
  change (2 * 2 + 1)%nat with 5%nat in Hlo. change (2 * 3 + 1)%nat with 7%nat in Hlo.
  rewrite F3, F5, F7 in Hlo. change (INR (fact 1)) with 1 in Hlo.
  lra.
Qed.

Lemma sin_upper (a : R) :
  0 <= a <= PI ->
  sin a <= a - a ^ 3 / 6 + a ^ 5 / 120 - a ^ 7 / 5040 + a ^ 9 / 362880.
Proof.
  intros [H0 H1]. destruct (sin_bound a 1 H0 H1) as [_ Hhi].
  destruct factorial_values as (F3 & F5 & F7 & F9).
  change (2 * (1 + 1))%nat with 4%nat in Hhi.
  unfold sin_approx in Hhi. cbn [sum_f_R0] in Hhi. unfold sin_term in Hhi.
  change (2 * 0 + 1)%nat with 1%nat in Hhi. change (2 * 1 + 1)%nat with 3%nat in Hhi.
  change (2 * 2 + 1)%nat with 5%nat in Hhi. change (2 * 3 + 1)%nat with 7%nat in Hhi.
  change (2 * 4 + 1)%nat with 9%nat in Hhi.
  rewrite F3, F5, F7, F9 in Hhi. change (INR (fact 1)) with 1 in Hhi.
  lra.
Qed.

(** An odd number of half turns changes the sign of the sine. *)
Lemma sin_odd_half_turns (t : R) (k : Z) :
  (0 <= k)%Z -> sin (t + IZR (2 * k - 1) * PI) = - sin t.
Proof.
  intros Hk.
  replace (t + IZR (2 * k - 1) * PI) with ((t - PI) + 2 * INR (Z.to_nat k) * PI).
  - rewrite sin_period. pose proof (neg_sin (t - PI)) as H.
    replace (t - PI + PI) with t in H by ring. lra.
  - rewrite INR_IZR_INZ, Z2Nat.id by exact Hk.
    rewrite minus_IZR, mult_IZR. ring.
Qed.


(** The residual [E - e sin E - M] of Kepler's equation at the two
    neighbouring doubles [8251054988930838 / 2^18] and
    [8251054988930839 / 2^18], for [M = 31475276904.846592] and [e = 0.1]: it
    is more than half their distance below zero at the first one and more
    than half their distance above zero at the second one. *)
Lemma residual_below_the_root :
  8251054988930838 / 262144 - oneTenth * sin (8251054988930838 / 262144)
  - meanAnomalyAfterOneDay
  <= - (51 / 100) / 262144.
Proof.
  pose proof PI_19_decimals as [Hlo Hhi].
  set (A := 8251054988930838 / 262144).
  set (t := A - 10018891809 * PI).
  assert (Ht : 5306284 / 10000000 <= t <= 530629 / 1000000) by (unfold t, A; lra).
  assert (HA : sin A = - sin t).
  { rewrite <- (@sin_odd_half_turns t 5009445905) by lia. f_equal.
    change (2 * 5009445905 - 1)%Z with 10018891809%Z. unfold t. ring. }
  assert (Hs : sin t <= sin (530629 / 1000000)).
  { destruct (Rle_lt_or_eq_dec _ _ (proj2 Ht)) as [Hlt | ->]; [ | lra].
    left. apply sin_increasing_1; lra. }
  pose proof (@sin_upper (530629 / 1000000) ltac:(lra)) as Hup.
  unfold oneTenth, meanAnomalyAfterOneDay. fold A. rewrite HA. unfold A. lra.
Qed.

Lemma residual_above_the_root :
  (51 / 100) / 262144
  <= 8251054988930839 / 262144 - oneTenth * sin (8251054988930839 / 262144)
     - meanAnomalyAfterOneDay.
Proof.
  pose proof PI_19_decimals as [Hlo Hhi].
  set (B := 8251054988930839 / 262144).
  set (t := B - 10018891809 * PI).
  assert (Ht : 5306315 / 10000000 <= t <= 530633 / 1000000) by (unfold t, B; lra).
  assert (HB : sin B = - sin t).
  { rewrite <- (@sin_odd_half_turns t 5009445905) by lia. f_equal.
    change (2 * 5009445905 - 1)%Z with 10018891809%Z. unfold t. ring. }
  assert (Hs : sin (5306315 / 10000000) <= sin t).
  { destruct (Rle_lt_or_eq_dec _ _ (proj1 Ht)) as [Hlt | <-]; [ | lra].
    left. apply sin_increasing_1; lra. }
  pose proof (@sin_lower (5306315 / 10000000) ltac:(lra)) as Hdown.
  unfold oneTenth, meanAnomalyAfterOneDay. fold B. rewrite HB. unfold B. lra.
Qed.

End SineAtTheMeanAnomaly.

(** ** The Kepler solver over doubles (ManoeuvreNode.solveKeplersEquation) *)

Section KeplerSolverInDoubles.

Local Open Scope R_scope.

Lemma sub64_Fin (a b : R) :
  Binary64.sub (Fin a) (Fin b) = Binary64.round (Fin (a - b)).
Proof. unfold Binary64.sub. now rewrite sub_Fin. Qed.

Lemma mul64_Fin (a b : R) :
  Binary64.mul (Fin a) (Fin b) = Binary64.round (Fin (a * b)).
Proof. unfold Binary64.mul. now rewrite mul_Fin. Qed.

Lemma div64_Fin (a b : R) :
  b <> 0 -> Binary64.div (Fin a) (Fin b) = Binary64.round (Fin (a / b)).
Proof. intros Hb. unfold Binary64.div. now rewrite div_Fin. Qed.

(** A result of magnitude at most 1.5 is rounded with an error of at most
    [2^-53]. *)
Lemma round_small (x : R) :
  Rabs x <= 3 / 2 ->
  exists y : R,
    Binary64.round (Fin x) = Fin y /\ Rabs (y - x) <= / 9007199254740992.
Proof.
  intros Hx. destruct (@round_bounded 0 x ltac:(lia)) as (y & Hy & Herr).
  - replace (powerRZ 2 (0 + 1)) with 2 by (simpl; lra). lra.
  - exists y. split; [exact Hy | ].
    replace (/ 9007199254740992) with (powerRZ 2 (0 - 53)) by (simpl; lra).
    exact Herr.
Qed.

(** Between [2^34] and [2^35] the doubles are the multiples of [2^-18]. *)
Lemma round_near_the_mean_anomaly (x : R) :
  Rabs (x - meanAnomalyAfterOneDay) <= 3 / 2 ->
  exists n : Z,
    Binary64.round (Fin x) = Fin (IZR n / 262144)
    /\ Rabs (IZR n / 262144 - x) <= / 524288.
Proof.
  intros Hx. apply Rabs_le_between in Hx. unfold meanAnomalyAfterOneDay in Hx.
  assert (P34 : powerRZ 2 34 = 17179869184) by (simpl; lra).
  assert (P35 : powerRZ 2 (34 + 1) = 34359738368) by (simpl; lra).
  assert (P18 : powerRZ 2 (34 - 52) = / 262144) by (simpl; lra).
  exists (Binary64.nearestEven (x / powerRZ 2 (34 - 52))). split.
  - rewrite (@round_binade 34 x) by (lia || lra). now rewrite P18.
  - pose proof (grid_error x (34 - 52)) as Hg. rewrite P18 in Hg |- *.
    unfold Rdiv in Hg |- *. lra.
Qed.

(** A multiple of [2^-18] that is at most 2 in magnitude is a double. *)
Lemma round_multiple (j : Z) :
  Rabs (IZR j / 262144) <= 2 ->
  Binary64.round (Fin (IZR j / 262144)) = Fin (IZR j / 262144).
Proof.
  intros Hj.
  assert (P18 : powerRZ 2 (-18) = / 262144) by (simpl; lra).
  unfold Rdiv in *. rewrite <- P18 in *.
  apply round_exact; [lia | | ].
  - assert (H : Rabs (IZR j) <= 524288).
    { rewrite Rabs_mult, (Rabs_pos_eq (powerRZ 2 (-18))) in Hj
        by (left; apply pow2_pos).
      rewrite P18 in Hj. lra. }
    rewrite <- abs_IZR in H. apply le_IZR in H.
    change (2 ^ 53)%Z with 9007199254740992%Z. lia.
  - apply Rle_lt_trans with 2; [exact Hj | ].
    apply Rlt_le_trans with (powerRZ 2 2); [simpl; lra | apply pow2_le; lia].
Qed.

Lemma sin_lipschitz (a b : R) : Rabs (sin a - sin b) <= Rabs (a - b).
Proof.
  rewrite form4.
  pose proof (COS_bound ((a + b) / 2)) as [Hc1 Hc2].
  pose proof (sin_sqr_le ((a - b) / 2)) as Hs.
  set (c := cos ((a + b) / 2)) in *. set (s := sin ((a - b) / 2)) in *.
  apply Rabs_le_between. pose proof (Rabs_pos (a - b)) as Hp.
  assert (Hs' : Rabs s <= Rabs (a - b) / 2).
  { apply Rsqr_le_abs_0 in Hs.
    unfold Rdiv in Hs. rewrite Rabs_mult, (Rabs_pos_eq (/ 2)) in Hs by lra.
    exact Hs. }
  apply Rabs_le_between in Hs'. 
  assert (Hcs : - (Rabs (a - b) / 2) <= c * s <= Rabs (a - b) / 2) by nra.
  lra.
Qed.

(** The residual of Kepler's equation for the mean anomaly
    [31475276904.846592] and the eccentricity [0.1]. *)
Local Abbreviation residual E := (E - oneTenth * sin E - meanAnomalyAfterOneDay).

Lemma residual_increasing (E1 E2 : R) : E1 <= E2 -> residual E1 <= residual E2.
Proof.
  intros H. pose proof (sin_lipschitz E2 E1) as HL.
  rewrite (Rabs_pos_eq (E2 - E1)) in HL by lra. apply Rabs_le_between in HL.
  unfold oneTenth. lra.
Qed.

(** No double near the mean anomaly has a residual within half the distance
    between doubles of zero. *)
Lemma residual_on_the_grid (k : Z) :
  residual (IZR k / 262144) <= - (51 / 100) / 262144
  \/ (51 / 100) / 262144 <= residual (IZR k / 262144).
Proof.
  destruct (Z_le_gt_dec k 8251054988930838) as [Hle | Hgt].
  - left. apply Rle_trans with (residual (8251054988930838 / 262144));
      [ | exact residual_below_the_root].
    apply residual_increasing. apply IZR_le in Hle. lra.
  - right. apply Rle_trans with (residual (8251054988930839 / 262144));
      [exact residual_above_the_root | ].
    apply residual_increasing.
    assert (H : (8251054988930839 <= k)%Z) by lia. apply IZR_le in H. lra.
Qed.


Lemma product_bound (x y bx b_y : R) :
  Rabs x <= bx -> Rabs y <= b_y -> Rabs (x * y) <= bx * b_y.
Proof.
  intros Hx Hy. rewrite Rabs_mult.
  apply Rmult_le_compat; [apply Rabs_pos | apply Rabs_pos | exact Hx | exact Hy].
Qed.

Lemma negative_integer (j : Z) : IZR j < 0 -> IZR j <= -1.
Proof. intros H. apply lt_IZR in H. apply IZR_le. lia. Qed.

Lemma positive_integer (j : Z) : 0 < IZR j -> 1 <= IZR j.
Proof. intros H. apply lt_IZR in H. apply IZR_le. lia. Qed.

Lemma tolerance_default_value (libm : Binary64.Libm) :
  exists tolerance : R,
    ManoeuvreNode64.tolerance_default = Fin tolerance
    /\ tolerance <= 2 / 1000000.
Proof.
  destruct (@round_small (1 / 1000000)) as (y & Hy & Herr).
  { rewrite Rabs_pos_eq; lra. }
  exists y. split; [exact Hy | ]. apply Rabs_le_between in Herr. lra.
Qed.

Section Iteration.

Variable libm : Binary64.Libm.
Hypothesis libm_accurate : accurate libm.

(** One iteration from a double within 1 of the mean anomaly: the correction
    is more than the tolerance, and the next iterate is again a double
    within 1 of the mean anomaly. *)
Lemma newtonDelta_on_the_grid (k : Z) :
  Rabs (IZR k / 262144 - meanAnomalyAfterOneDay) <= 1 ->
  exists (d : R) (k' : Z),
    ManoeuvreNode64.newtonDelta libm (Fin meanAnomalyAfterOneDay) (Fin oneTenth)
                                (Fin (IZR k / 262144)) = Fin d
    /\ 3 / 1000000 <= Rabs d
    /\ Binary64.sub (Fin (IZR k / 262144)) (Fin d) = Fin (IZR k' / 262144)
    /\ Rabs (IZR k' / 262144 - meanAnomalyAfterOneDay) <= 1.
Proof.
  intros HE. set (E := IZR k / 262144) in *.
  set (M := meanAnomalyAfterOneDay) in *.
  assert (HM : M = 8251054988944105 / 262144) by reflexivity.
  assert (He : oneTenth = 3602879701896397 / 36028797018963968) by reflexivity.
  set (e := oneTenth) in *.
  apply Rabs_le_between in HE.
  destruct (libm_accurate E) as (s & c & Hs & Hc & Hse & Hce).
  apply Rabs_le_between in Hse. apply Rabs_le_between in Hce.
  assert (H52 : / 2 ^ 52 <= / 1000000000000000).
  { apply Rinv_le_contravar; [lra | ]. simpl. lra. }
  pose proof (SIN_bound E) as [Hs1 Hs2]. pose proof (COS_bound E) as [Hc1 Hc2].
  (* e * Math.sin(E) *)
  destruct (@round_small (e * s)) as (w & Hw & Hwe).
  { apply Rabs_le_between. rewrite He. nra. }
  apply Rabs_le_between in Hwe.
  assert (Hwsin : - (/ 100000000000000) <= w - e * sin E <= / 100000000000000).
  { rewrite He in *. nra. }
  assert (Hwb : - (11 / 100) <= w <= 11 / 100) by (rewrite He in *; nra).
  (* E - e * Math.sin(E) *)
  destruct (@round_near_the_mean_anomaly (E - w)) as (n & Hn & Hne).
  { apply Rabs_le_between. fold M. lra. }
  apply Rabs_le_between in Hne.
  (* ... - M *)
  set (j := (n - 8251054988944105)%Z).
  assert (Hj : IZR n / 262144 - M = IZR j / 262144).
  { unfold j. rewrite minus_IZR, HM. lra. }
  assert (Hjb : - (12 / 10) <= IZR j / 262144 <= 12 / 10) by lra.
  assert (Hjz : IZR j / 262144 <= - / 262144 \/ / 262144 <= IZR j / 262144).
  { pose proof (residual_on_the_grid k) as Hres.
    fold E in Hres. fold M in Hres. fold e in Hres.
    destruct Hres as [Hneg | Hpos].
    - left. assert (Hlt : IZR j < 0) by lra.
      apply negative_integer in Hlt. lra.
    - right. assert (Hgt : 0 < IZR j) by lra.
      apply positive_integer in Hgt. lra. }
  assert (Hnum : Binary64.sub (Binary64.sub (Fin E) (Binary64.mul (Fin e) (Fin s)))
                              (Fin M) = Fin (IZR j / 262144)).
  { rewrite mul64_Fin, Hw, sub64_Fin, Hn, sub64_Fin, Hj.
    apply round_multiple. apply Rabs_le_between. lra. }
  (* 1 - e * Math.cos(E) *)
  destruct (@round_small (e * c)) as (w2 & Hw2 & Hw2e).
  { apply Rabs_le_between. rewrite He. nra. }
  apply Rabs_le_between in Hw2e.
  assert (Hw2b : - (105 / 1000) <= w2 <= 105 / 1000) by (rewrite He in *; nra).
  destruct (@round_small (1 - w2)) as (t & Ht & Hte).
  { apply Rabs_le_between. lra. }
  apply Rabs_le_between in Hte.
  assert (Htb : 89 / 100 <= t <= 111 / 100) by lra.
  assert (Hden : Binary64.sub 1 (Binary64.mul (Fin e) (Fin c)) = Fin t).
  { rewrite mul64_Fin, Hw2. change (Binary64.sub 1 (Fin w2))
      with (Binary64.sub (Fin 1) (Fin w2)). now rewrite sub64_Fin. }
  (* the quotient *)
  set (q := / t).
  assert (Hq : 9 / 10 <= q <= 1124 / 1000).
  { unfold q. split.
    - apply Rle_trans with (/ (111 / 100)); [lra | ].
      apply Rinv_le_contravar; lra.
    - apply Rle_trans with (/ (89 / 100)); [ | lra].
      apply Rinv_le_contravar; lra. }
  set (X := IZR j / 262144) in *.
  assert (HXq : Rabs (X * q) <= 12 / 10 * (1124 / 1000)).
  { apply product_bound; apply Rabs_le_between; lra. }
  destruct (@round_small (X / t)) as (d & Hd & Hde).
  { unfold Rdiv. fold q. lra. }
  unfold Rdiv in Hde. fold q in Hde. apply Rabs_le_between in Hde.
  assert (Hdelta : ManoeuvreNode64.newtonDelta libm (Fin M) (Fin e) (Fin E) = Fin d).
  { unfold ManoeuvreNode64.newtonDelta. rewrite Hs, Hc, Hnum, Hden.
    rewrite div64_Fin by lra. exact Hd. }
  assert (Hdbig : 3 / 1000000 <= Rabs d).
  { destruct Hjz as [Hneg | Hpos].
    - assert (X * q <= - / 262144 * (9 / 10)) by nra.
      rewrite Rabs_left1 by lra. lra.
    - assert (/ 262144 * (9 / 10) <= X * q) by nra.
      rewrite Rabs_pos_eq by lra. lra. }
  (* E - delta *)
  set (D := E - M) in *.
  assert (HDq : Rabs (D * (1 - q)) <= 1 * (124 / 1000)).
  { apply product_bound; apply Rabs_le_between; lra. }
  assert (HXD : Rabs ((X - D) * q) <= (12 / 100) * (1124 / 1000)).
  { apply product_bound; apply Rabs_le_between; unfold X, D in *; lra. }
  apply Rabs_le_between in HDq. apply Rabs_le_between in HXD.
  assert (Hnext : - (3 / 10) <= E - d - M <= 3 / 10).
  { replace (E - d - M) with (D * (1 - q) - (X - D) * q - (d - X * q))
      by (unfold D; ring).
    lra. }
  destruct (@round_near_the_mean_anomaly (E - d)) as (k' & Hk' & Hk'e).
  { apply Rabs_le_between. fold M. lra. }
  apply Rabs_le_between in Hk'e.
  exists d, k'. split; [exact Hdelta | ]. split; [exact Hdbig | ].
  split; [now rewrite sub64_Fin | ].
  apply Rabs_le_between. fold M. lra.
Qed.

Lemma keplerLoop_continues (fuel : nat) :
  forall (k : Z) (d : R),
    Rabs (IZR k / 262144 - meanAnomalyAfterOneDay) <= 1 ->
    3 / 1000000 <= Rabs d ->
    ManoeuvreNode64.keplerLoop libm fuel (Fin meanAnomalyAfterOneDay) (Fin oneTenth)
      ManoeuvreNode64.tolerance_default (Fin (IZR k / 262144)) (Fin d)
    = None.
Proof.
  destruct (tolerance_default_value libm) as (tolerance & -> & Htol).
  induction fuel as [ | fuel IH]; intros k d HE Hd.
  - cbn [ManoeuvreNode64.keplerLoop].
    rewrite abs_Fin, gt_Fin, Rltb_true by lra. reflexivity.
  - cbn [ManoeuvreNode64.keplerLoop].
    rewrite abs_Fin, gt_Fin, Rltb_true by lra.
    destruct (newtonDelta_on_the_grid k HE) as (d' & k' & -> & Hd' & -> & HE').
    exact (IH k' d' HE' Hd').
Qed.

Lemma solveKeplersEquation_loops (fuel : nat) :
  ManoeuvreNode64.solveKeplersEquation libm fuel (Fin meanAnomalyAfterOneDay)
                                       (Fin oneTenth) = None.
Proof.
  unfold ManoeuvreNode64.solveKeplersEquation.
  replace meanAnomalyAfterOneDay with (IZR 8251054988944105 / 262144) at 2
    by reflexivity.
  change (ManoeuvreNode64.keplerLoop libm fuel (Fin meanAnomalyAfterOneDay)
            (Fin oneTenth) ManoeuvreNode64.tolerance_default
            (Fin (IZR 8251054988944105 / 262144)) (Fin 1) = None).
  apply keplerLoop_continues.
  - unfold meanAnomalyAfterOneDay.
    replace (IZR 8251054988944105 / 262144 - 8251054988944105 / 262144) with 0 by lra.
    rewrite Rabs_R0. lra.
  - rewrite Rabs_pos_eq; lra.
Qed.

End Iteration.


Lemma correctlyRounded_accurate : accurate Binary64.correctlyRounded.
Proof.
  intros x.
  pose proof (SIN_bound x) as [Hs1 Hs2]. pose proof (COS_bound x) as [Hc1 Hc2].
  destruct (@round_small (sin x)) as (s & Hs & Hse); [apply Rabs_le_between; lra | ].
  destruct (@round_small (cos x)) as (c & Hc & Hce); [apply Rabs_le_between; lra | ].
  assert (H52 : / 9007199254740992 <= / 2 ^ 52).
  { apply Rinv_le_contravar; [apply pow_lt; lra | ]. simpl. lra. }
  exists s, c. unfold Binary64.correctlyRounded. cbn [Binary64.Math_sin Binary64.Math_cos].
  rewrite sin_Fin, cos_Fin. repeat split; try assumption; lra.
Qed.

Lemma the_inputs_are_doubles :
  Binary64.round (Fin meanAnomalyAfterOneDay) = Fin meanAnomalyAfterOneDay
  /\ Binary64.round (Fin oneTenth) = Fin oneTenth.
Proof.
  assert (P18 : powerRZ 2 (-18) = / 262144) by (simpl; lra).
  assert (P55 : powerRZ 2 (-55) = / 36028797018963968) by (simpl; lra).
  assert (Hbig : 34359738368 < powerRZ 2 1023).
  { apply Rlt_le_trans with (powerRZ 2 36); [simpl; lra | apply pow2_le; lia]. }
  split.
  - replace meanAnomalyAfterOneDay with (IZR 8251054988944105 * powerRZ 2 (-18))
      by (rewrite P18; reflexivity).
    apply round_exact; [lia | change (2 ^ 53)%Z with 9007199254740992%Z; lia | ].
    rewrite P18, Rabs_pos_eq; lra.
  - replace oneTenth with (IZR 3602879701896397 * powerRZ 2 (-55))
      by (rewrite P55; reflexivity).
    apply round_exact; [lia | change (2 ^ 53)%Z with 9007199254740992%Z; lia | ].
    rewrite P55, Rabs_pos_eq; lra.
Qed.

(** C9 fails on the code.  [solveKeplersEquation(31475276904.846592, 0.1)]
    does not return.  Both arguments are doubles, and the first one is the
    mean anomaly that [propagateOrbit] passes for a node 86400 s ahead on an
    orbit of semi-major axis 1 AU.  In exact arithmetic the loop would end
    within seven iterations.  Over doubles, whatever the implementation of
    [Math.sin] and [Math.cos] (accurate to [2^-52]), it never ends: near that
    mean anomaly neighbouring doubles are [2^-18], about 3.8e-6, apart, the
    computed residual [E - e sin E - M] is a multiple of that distance and is
    zero at no double, so every correction is larger than the tolerance
    [1e-6] in magnitude, and the loop has no bound on its iterations. *)
Theorem solveKeplersEquation_never_returns :
  Binary64.round (Fin meanAnomalyAfterOneDay) = Fin meanAnomalyAfterOneDay
  /\ Binary64.round (Fin oneTenth) = Fin oneTenth
  /\ 0 <= oneTenth < 1
  /\ (exists E : R,
        ManoeuvreNode.solveKeplersEquation 7 (Fin meanAnomalyAfterOneDay) (Fin oneTenth)
        = Some (Fin E))
  /\ (forall libm : Binary64.Libm,
        accurate libm ->
        forall fuel : nat,
          ManoeuvreNode64.solveKeplersEquation libm fuel
            (Fin meanAnomalyAfterOneDay) (Fin oneTenth) = None).
Proof.
  destruct the_inputs_are_doubles as [HM He].
  split; [exact HM | ]. split; [exact He | ].
  split; [unfold oneTenth; lra | ].
  split.
  - destruct (@solveKeplersEquation_converges meanAnomalyAfterOneDay oneTenth)
      as (E & HE & _); [unfold oneTenth; lra | ].
    now exists E.
  - intros libm Hlibm fuel. now apply solveKeplersEquation_loops.
Qed.

(** The theorem for the implementation that rounds the exact sine and
    cosine, and a thousand iterations. *)
Lemma solveKeplersEquation_never_returns_witness :
  ManoeuvreNode64.solveKeplersEquation Binary64.correctlyRounded 1000
    (Fin meanAnomalyAfterOneDay) (Fin oneTenth) = None.
Proof.
  exact (proj2 (proj2 (proj2 (proj2 solveKeplersEquation_never_returns)))
           Binary64.correctlyRounded correctlyRounded_accurate 1000%nat).
Defined.

End KeplerSolverInDoubles.

(** ** The manoeuvre-node propagator (ManoeuvreNode.propagateOrbit) *)

Section Propagator.

Import ManoeuvreNode.
Local Open Scope R_scope.




End Propagator.

(** ** Gravity (BaseSpacecraft.calculateGravitationalAcceleration) *)

Section Gravity.

Import Dynamics.
Local Open Scope R_scope.

Lemma length_Fin_inv (v : Vector3.t) (d : R) :
  Vector3.length v = Fin d -> exists a b c : R, v = fin3 a b c.
Proof.
  destruct v as [[a | | | ] [b | | | ] [c | | | ]];
    unfold Vector3.length, Math_sqrt, Num.add, Num.mul; simpl;
    intros H; try discriminate H.
  now exists a, b, c.
Qed.

Lemma norm3_zero (a b c : R) : norm3 a b c = 0 -> a = 0 /\ b = 0 /\ c = 0.
Proof.
  intros H. pose proof (norm3_sqr a b c) as Hs. rewrite H in Hs.
  pose proof (Rle_0_sqr a) as Sa. pose proof (Rle_0_sqr b) as Sb.
  pose proof (Rle_0_sqr c) as Sc. unfold Rsqr in Sa, Sb, Sc.
  assert (Ha : a * a = 0) by lra. assert (Hb : b * b = 0) by lra.
  assert (Hc : c * c = 0) by lra.
  apply Rmult_integral in Ha, Hb, Hc. intuition.
Qed.

Lemma normalize_nonzero (a b c : R) :
  norm3 a b c <> 0 ->
  Vector3.normalize (fin3 a b c)
  = fin3 (a * (1 / norm3 a b c)) (b * (1 / norm3 a b c)) (c * (1 / norm3 a b c)).
Proof.
  intros Hn. unfold Vector3.normalize, Vector3.divideScalar, fin3.
  rewrite length_finite. unfold or_else, truthy.
  rewrite (Reqb_false Hn). simpl.
  unfold Vector3.multiplyScalar. simpl.
  rewrite (div_Fin 1 Hn). now rewrite !mul_Fin.
Qed.

Lemma normalize_zero_norm (a b c : R) :
  norm3 a b c = 0 -> Vector3.normalize (fin3 a b c) = fin3 0 0 0.
Proof.
  intros Hn. destruct (norm3_zero a b c Hn) as (-> & -> & ->).
  unfold Vector3.normalize, Vector3.divideScalar, fin3.
  rewrite length_finite, Hn. unfold or_else, truthy.
  rewrite (Reqb_true (eq_refl 0)). simpl.
  unfold Vector3.multiplyScalar. simpl.
  rewrite div_Fin by lra. rewrite !mul_Fin.
  unfold fin3. do 3 f_equal; lra.
Qed.

Lemma normalize_fin3 (a b c : R) :
  exists s : R, 0 < s /\ Vector3.normalize (fin3 a b c) = fin3 (a * s) (b * s) (c * s).
Proof.
  destruct (Req_dec_T (norm3 a b c) 0) as [Hz | Hnz].
  - exists 1. split; [lra | ]. rewrite (normalize_zero_norm _ _ _ Hz).
    destruct (norm3_zero a b c Hz) as (-> & -> & ->).
    unfold fin3. do 3 f_equal; lra.
  - exists (1 / norm3 a b c). split.
    + pose proof (norm3_nonneg a b c). apply Rdiv_lt_0_compat; lra.
    + now apply normalize_nonzero.
Qed.

Lemma sub_fin3 (a b c x y z : R) :
  Vector3.sub (fin3 a b c) (fin3 x y z) = fin3 (a - x) (b - y) (c - z).
Proof. reflexivity. Qed.

Lemma add_fin3 (a b c x y z : R) :
  Vector3.add (fin3 a b c) (fin3 x y z) = fin3 (a + x) (b + y) (c + z).
Proof. reflexivity. Qed.

Lemma multiplyScalar_fin3 (a b c k : R) :
  Vector3.multiplyScalar (fin3 a b c) (Fin k) = fin3 (a * k) (b * k) (c * k).
Proof. reflexivity. Qed.

Lemma length_fin3 (a b c : R) : Vector3.length (fin3 a b c) = Fin (norm3 a b c).
Proof. apply length_finite. Qed.

Lemma finitePosition_fin3 (v : Vector3.t) :
  BaseSpacecraft.finitePosition v = true <-> exists a b c : R, v = fin3 a b c.
Proof.
  split.
  - destruct v as [[a | | | ] [b | | | ] [c | | | ]]; simpl; intros H;
      try discriminate H.
    now exists a, b, c.
  - intros (a & b & c & ->). reflexivity.
Qed.

Lemma bodyAcceleration_finite (position : Vector3.t) (key : string) (body : Body.t)
    (a : Vector3.t) :
  bodyAcceleration position key body = Some a ->
  BaseSpacecraft.finitePosition a = true.
Proof.
  unfold bodyAcceleration.
  destruct (Body.data body) as [data | ]; [ | discriminate].
  destruct (Body.mass data) as [mass | ]; [ | discriminate].
  destruct (negb (truthy mass)); [discriminate | ].
  destruct (bodyPosition body) as [bodyPos | ]; [ | discriminate].
  cbv zeta.
  set (r := Vector3.sub (Vector3.clone bodyPos) position).
  destruct (Vector3.length r) as [d | | | ] eqn:Hlen;
    try (rewrite orb_true_r; discriminate).
  destruct (length_Fin_inv r Hlen) as (x & y & z & Hr).
  destruct ((Fin d <? Fin (1 / 100))%num || negb (isFinite (Fin d)));
    [discriminate | ].
  match goal with
  | |- context [isFinite ?m] => destruct m as [g | | | ]; simpl; try discriminate
  end.
  intros H. injection H as <-.
  rewrite Hr. destruct (normalize_fin3 x y z) as (s & _ & ->).
  rewrite multiplyScalar_fin3. reflexivity.
Qed.

(** X1: whatever the bodies and the position of the craft are (also when they
    hold infinities or NaN), the gravitational acceleration returned has three
    finite components: every contribution that is not finite is skipped. *)
Theorem calculateGravitationalAcceleration_always_finite
    (position : Vector3.t) (bodies : list (string * Body.t)) :
  BaseSpacecraft.finitePosition (calculateGravitationalAcceleration position bodies)
  = true.
Proof.
  unfold calculateGravitationalAcceleration.
  assert (Hinit : BaseSpacecraft.finitePosition Vector3.zero = true) by reflexivity.
  revert Hinit. generalize Vector3.zero as acc.
  induction bodies as [ | [key body] bodies IH]; intros acc Hacc; simpl.
  - exact Hacc.
  - apply IH.
    destruct (bodyAcceleration position key body) as [a | ] eqn:Ha; [ | exact Hacc].
    apply bodyAcceleration_finite in Ha.
    apply finitePosition_fin3 in Ha. destruct Ha as (x & y & z & ->).
    apply finitePosition_fin3 in Hacc. destruct Hacc as (u & v & w & ->).
    rewrite add_fin3. reflexivity.
Qed.

Lemma norm3_scale_abs (a b c k : R) :
  norm3 (a * k) (b * k) (c * k) = norm3 a b c * Rabs k.
Proof.
  unfold norm3.
  replace (a * k * (a * k) + b * k * (b * k) + c * k * (c * k))
    with ((a * a + b * b + c * c) * (k * k)) by ring.
  rewrite sqrt_mult by nra.
  f_equal. replace (k * k) with (Rsqr k) by reflexivity. apply sqrt_Rsqr_abs.
Qed.

(** X2: gravity follows the inverse-square law outside a cut-off and is
    switched off inside it.  For a craft at a finite position and a body of
    non-zero mass at a finite position, [d] astronomical units away, whose
    gravitational parameter is the finite number [mu]: when [d < 0.01] the body
    contributes nothing; when [d >= 0.01] it contributes a vector along the line
    from the craft to the body, of magnitude [|mu| / (d * AU_TO_METERS)^2]. *)
Theorem bodyAcceleration_inverse_square_outside_cutoff
    (px py pz bx b_y bz m mu : R) (key : string)
    (sma rad : option num) (gp mp : option Vector3.t) :
  m <> 0 ->
  property_or (GRAVITATIONAL_PARAMETERS key) (G * Fin m)%num = Fin mu ->
  let body :=
    Body.mk (Some (Body.mkData (Some (Fin m)) sma rad)) (Some (fin3 bx b_y bz)) gp mp in
  let d := norm3 (bx - px) (b_y - py) (bz - pz) in
  let g := newtonAcceleration mu d in
  (d < 1 / 100 -> bodyAcceleration (fin3 px py pz) key body = None)
  /\ (1 / 100 <= d ->
      bodyAcceleration (fin3 px py pz) key body
      = Some (fin3 ((bx - px) * (1 / d) * g) ((b_y - py) * (1 / d) * g)
                   ((bz - pz) * (1 / d) * g))
      /\ norm3 ((bx - px) * (1 / d) * g) ((b_y - py) * (1 / d) * g)
               ((bz - pz) * (1 / d) * g) = Rabs g).
Proof.
  intros Hm Hmu body d g.
  assert (Hshape : forall rest : num -> option Vector3.t,
    bodyAcceleration (fin3 px py pz) key body
    = if ((Fin d <? Fin (1 / 100))%num || negb (isFinite (Fin d)))
      then None
      else
        if negb (isFinite (Fin mu / (Fin d * AU_TO_METERS * (Fin d * AU_TO_METERS)))%num)
        then None
        else Some (Vector3.multiplyScalar
                     (Vector3.normalize (fin3 (bx - px) (b_y - py) (bz - pz)))
                     (Fin mu / (Fin d * AU_TO_METERS * (Fin d * AU_TO_METERS)))%num)).
  { intros _. unfold bodyAcceleration, body. simpl.
    unfold truthy. rewrite (Reqb_false Hm). simpl.
    unfold Vector3.clone. rewrite sub_fin3, length_fin3. fold d.
    rewrite Hmu. reflexivity. }
  specialize (Hshape (fun _ => None)).
  split.
  - intros Hd. rewrite Hshape, lt_Fin, (Rltb_true Hd). reflexivity.
  - intros Hd. rewrite Hshape, lt_Fin, (Rltb_false Hd). simpl.
    unfold AU_TO_METERS. rewrite !mul_Fin.
    assert (Hden : d * 149597870700 * (d * 149597870700) <> 0) by nra.
    rewrite (div_Fin mu Hden). simpl.
    assert (Hdn : norm3 (bx - px) (b_y - py) (bz - pz) <> 0) by (fold d; lra).
    rewrite (normalize_nonzero _ _ _ Hdn), multiplyScalar_fin3. fold d.
    fold (newtonAcceleration mu d). fold g.
    split; [reflexivity | ].
    replace ((bx - px) * (1 / d) * g) with ((bx - px) * ((1 / d) * g)) by ring.
    replace ((b_y - py) * (1 / d) * g) with ((b_y - py) * ((1 / d) * g)) by ring.
    replace ((bz - pz) * (1 / d) * g) with ((bz - pz) * ((1 / d) * g)) by ring.
    rewrite norm3_scale_abs. fold d.
    rewrite Rabs_mult, (Rabs_pos_eq (1 / d)).
    + field. lra.
    + apply Rlt_le, Rdiv_lt_0_compat; lra.
Qed.

Lemma bodyAcceleration_inverse_square_witness :
  bodyAcceleration (fin3 1 0 0) "sun"
    (Body.mk (Some (Body.mkData (Some (Fin 1)) None None)) (Some (fin3 0 0 0)) None None)
  = Some (fin3 ((0 - 1) * (1 / norm3 (0 - 1) (0 - 0) (0 - 0))
                * newtonAcceleration 132712440018000000000
                    (norm3 (0 - 1) (0 - 0) (0 - 0)))
               ((0 - 0) * (1 / norm3 (0 - 1) (0 - 0) (0 - 0))
                * newtonAcceleration 132712440018000000000
                    (norm3 (0 - 1) (0 - 0) (0 - 0)))
               ((0 - 0) * (1 / norm3 (0 - 1) (0 - 0) (0 - 0))
                * newtonAcceleration 132712440018000000000
                    (norm3 (0 - 1) (0 - 0) (0 - 0)))).
Proof.
  assert (Hm : 1 <> 0) by lra.
  assert (Hmu : property_or (GRAVITATIONAL_PARAMETERS "sun") (G * Fin 1)%num
                = Fin 132712440018000000000).
  { simpl. unfold or_else, truthy. rewrite Reqb_false by lra. reflexivity. }
  assert (Hd : 1 / 100 <= norm3 (0 - 1) (0 - 0) (0 - 0)).
  { replace (norm3 (0 - 1) (0 - 0) (0 - 0)) with 1; [lra | ].
    unfold norm3. replace ((0 - 1) * (0 - 1) + (0 - 0) * (0 - 0) + (0 - 0) * (0 - 0))
      with 1 by ring. now rewrite sqrt_1. }
  exact (proj1 (proj2 (@bodyAcceleration_inverse_square_outside_cutoff
                         1 0 0 0 0 0 1 132712440018000000000 "sun"
                         None None None None Hm Hmu) Hd)).
Defined.

End Gravity.

(** ** The craft's own engine (BaseSpacecraft.calculateThrustAcceleration) *)

Section Thrust.

Import Dynamics.
Local Open Scope R_scope.

Lemma engineRun_cons (e : Engine) (tick : Tick) (ticks : list Tick) :
  engineRun e (tick :: ticks)
  = engineRun
      (snd (calculateTotalAcceleration (tick_position tick) e (tick_bodies tick)
                                       (tick_dt tick)))
      ticks.
Proof. reflexivity. Qed.

(** What one call of [calculateTotalAcceleration] does to the engine. *)
Lemma calculateTotalAcceleration_engine
    (position : Vector3.t) (e : Engine) (bodies : list (string * Body.t)) (dt : num) :
  snd (calculateTotalAcceleration position e bodies dt)
  = if engineOn e && (fuelMass e >? 0)%num
    then mkEngine (mass e)
           (fuelMass e
            - Math_min (thrustPower e / (exhaustVelocity e * Fin (981 / 100)) * dt)
                       (fuelMass e))%num
           (exhaustVelocity e) (thrustPower e) (thrustVector e) (engineOn e) true
    else e.
Proof.
  unfold calculateTotalAcceleration. cbv zeta.
  destruct (engineOn e && (fuelMass e >? 0)%num) eqn:Hguard; [ | reflexivity].
  apply andb_true_iff in Hguard. destruct Hguard as [_ Hpos].
  unfold calculateThrustAcceleration.
  assert (Hle : (fuelMass e <=? 0)%num = false).
  { destruct (fuelMass e) as [f | | | ]; try discriminate Hpos; try reflexivity.
    rewrite gt_Fin in Hpos. rewrite le_Fin.
    unfold Rltb in Hpos. unfold Rleb.
    destruct (Rlt_dec 0 f); [ | discriminate]. destruct (Rle_dec f 0); [lra | reflexivity]. }
  rewrite Hle. reflexivity.
Qed.

(** Taking [Math.min(x, fuel)] from [fuel] never leaves a negative number. *)
Lemma fuel_minus_min_not_negative (x fuel : num) :
  (fuel >? 0)%num = true ->
  (fuel - Math_min x fuel <? 0)%num = false.
Proof.
  intros Hpos.
  destruct fuel as [f | | | ]; try discriminate Hpos.
  - rewrite gt_Fin in Hpos. unfold Rltb in Hpos.
    destruct (Rlt_dec 0 f) as [Hf | ]; [ | discriminate].
    destruct x as [r | | | ]; unfold Math_min, Num.lt, Num.sub, Num.neg, Num.add;
      try reflexivity.
    + unfold Rltb. destruct (Rlt_dec f r); destruct (Rlt_dec _ 0); try reflexivity; lra.
    + unfold Rltb. destruct (Rlt_dec (f + - f) 0); [lra | reflexivity].
  - destruct x as [r | | | ]; reflexivity.
Qed.

(** X3: the propellant of the craft's own engine is never driven below zero.
    Whatever the time steps, thrust and exhaust velocity are (negative,
    infinite or NaN included), a craft whose [fuelMass] is not negative keeps
    a [fuelMass] that is not negative through every run of
    [calculateTotalAcceleration]: the amount burnt is capped at what is
    left. *)
Theorem thrust_fuel_never_negative (e : Engine) (ticks : list Tick) :
  (fuelMass e <? 0)%num = false ->
  (fuelMass (engineRun e ticks) <? 0)%num = false.
Proof.
  revert e. induction ticks as [ | tick ticks IH]; intros e He.
  - exact He.
  - rewrite engineRun_cons. apply IH.
    rewrite calculateTotalAcceleration_engine.
    destruct (engineOn e && (fuelMass e >? 0)%num) eqn:Hguard; [ | exact He].
    apply andb_true_iff in Hguard. destruct Hguard as [_ Hpos]. simpl.
    now apply fuel_minus_min_not_negative.
Qed.

Lemma thrust_fuel_never_negative_witness :
  (fuelMass
     (engineRun (mkEngine 1000 500 3000 50000 (fin3 0 1 0) true false)
                [mkTick (fin3 1 0 0) [] 86400; mkTick (fin3 1 0 0) [] NaN])
   <? 0)%num = false.
Proof.
  apply thrust_fuel_never_negative.
  simpl. rewrite lt_Fin. apply Rltb_false. lra.
Defined.

(** X4: running dry never switches the engine off.  [calculateTotalAcceleration]
    calls [calculateThrustAcceleration] only while [fuelMass > 0], so the branch
    of the latter that clears [engineOn] is never taken from it: through every
    run of updates [engineOn] keeps the value [setThrust] gave it. *)
Theorem engine_flag_survives_empty_tank (e : Engine) (ticks : list Tick) :
  engineOn (engineRun e ticks) = engineOn e.
Proof.
  revert e. induction ticks as [ | tick ticks IH]; intros e.
  - reflexivity.
  - rewrite engineRun_cons, IH, calculateTotalAcceleration_engine.
    destruct (engineOn e && (fuelMass e >? 0)%num); reflexivity.
Qed.

Lemma engineRun_fields (e : Engine) (ticks : list Tick) :
  mass (engineRun e ticks) = mass e
  /\ exhaustVelocity (engineRun e ticks) = exhaustVelocity e
  /\ thrustPower (engineRun e ticks) = thrustPower e
  /\ thrustVector (engineRun e ticks) = thrustVector e.
Proof.
  revert e. induction ticks as [ | tick ticks IH]; intros e.
  - repeat split.
  - rewrite engineRun_cons.
    destruct (IH (snd (calculateTotalAcceleration (tick_position tick) e
                         (tick_bodies tick) (tick_dt tick)))) as (H1 & H2 & H3 & H4).
    rewrite H1, H2, H3, H4, calculateTotalAcceleration_engine.
    destruct (engineOn e && (fuelMass e >? 0)%num); repeat split.
Qed.

(** X5: with the engine on, the propellant left after a run of updates depends
    only on the time that has passed: for a finite propellant [f >= 0], thrust
    [P >= 0], exhaust velocity [ve > 0] and time steps that are finite and not
    negative, [fuelMass] ends at [max(0, f - P / (ve * 9.81) * T)], [T] the sum
    of the time steps. *)
Theorem thrust_fuel_after_run
    (e : Engine) (ticks : list Tick) (dts : list R) (f ve P : R) :
  engineOn e = true ->
  fuelMass e = Fin f -> 0 <= f ->
  exhaustVelocity e = Fin ve -> 0 < ve ->
  thrustPower e = Fin P -> 0 <= P ->
  map tick_dt ticks = map Fin dts ->
  Forall (fun dt => 0 <= dt) dts ->
  fuelMass (engineRun e ticks) = Fin (Rmax 0 (f - P / (ve * (981 / 100)) * total dts)).
Proof.
  intros Hon Hf Hf0 Hve Hve0 HP HP0 Hdts Hpos.
  revert e f dts Hon Hf Hf0 Hve HP Hdts Hpos.
  induction ticks as [ | tick ticks IH]; intros e f dts Hon Hf Hf0 Hve HP Hdts Hpos.
  - destruct dts; [ | discriminate]. simpl. rewrite Hf. f_equal.
    rewrite Rmax_right; lra.
  - destruct dts as [ | dt dts]; [discriminate | ].
    simpl in Hdts. injection Hdts as Hdt Hdts.
    inversion Hpos as [ | ? ? Hdt0 Hpos']; subst.
    assert (Hrate : 0 <= P / (ve * (981 / 100))).
    { apply Rmult_le_pos; [lra | ]. apply Rlt_le, Rinv_0_lt_compat. lra. }
    set (rate := P / (ve * (981 / 100))) in *.
    assert (Htot : 0 <= total dts).
    { clear - Hpos'. induction Hpos' as [ | d ds Hd _ IHd]; simpl; lra. }
    rewrite engineRun_cons, calculateTotalAcceleration_engine, Hon, Hf, gt_Fin.
    simpl andb.
    destruct (Rlt_dec 0 f) as [Hfpos | Hfzero].
    + rewrite (Rltb_true Hfpos), Hve, HP, Hdt.
      rewrite mul_Fin. rewrite div_Fin by lra. fold rate. rewrite mul_Fin.
      unfold Math_min. rewrite lt_Fin.
      assert (Hstep : 0 <= rate * dt) by now apply Rmult_le_pos.
      destruct (Rlt_dec f (rate * dt)) as [Hall | Hpart].
      * rewrite (Rltb_true Hall), sub_Fin.
        rewrite (IH _ (f - f) dts); simpl; try assumption; try reflexivity; try lra.
        f_equal. assert (0 <= rate * total dts) by now apply Rmult_le_pos.
        rewrite !Rmax_left; lra.
      * apply Rnot_lt_le in Hpart. rewrite (Rltb_false Hpart), sub_Fin.
        rewrite (IH _ (f - rate * dt) dts); simpl; try assumption; try reflexivity;
          try lra.
        f_equal. f_equal. ring.
    + assert (f = 0) by lra. subst f.
      rewrite (Rltb_false (Rle_refl 0)).
      rewrite (IH e 0 dts); try assumption.
      f_equal. assert (0 <= rate * total dts) by now apply Rmult_le_pos.
      assert (0 <= rate * dt) by now apply Rmult_le_pos.
      simpl. rewrite !Rmax_left; lra.
Qed.

Lemma thrust_fuel_after_run_witness :
  fuelMass
    (engineRun (mkEngine 1000 500 3000 50000 (fin3 0 1 0) true false)
               [mkTick (fin3 1 0 0) [] 100; mkTick (fin3 1 0 0) [] 200])
  = Fin (Rmax 0 (500 - 50000 / (3000 * (981 / 100)) * total [100; 200])).
Proof.
  apply (@thrust_fuel_after_run
           (mkEngine 1000 500 3000 50000 (fin3 0 1 0) true false)
           [mkTick (fin3 1 0 0) [] 100; mkTick (fin3 1 0 0) [] 200]
           [100; 200] 500 3000 50000);
    try reflexivity; try lra.
  repeat constructor; lra.
Defined.

End Thrust.

(** ** Impulsive manoeuvres (BaseSpacecraft.applyManeuver) *)

Section ImpulsiveManoeuvre.

Import Dynamics.
Local Open Scope R_scope.

Lemma norm3_opp (a b c x y z : R) :
  norm3 (a - x) (b - y) (c - z) = norm3 (x - a) (y - b) (z - c).
Proof. unfold norm3. f_equal. ring. Qed.

Lemma applyManeuver_fin3 (vx vy vz dx dy dz dV : R) :
  norm3 dx dy dz <> 0 ->
  applyManeuver (fin3 vx vy vz) (Fin dV) (Other (fin3 dx dy dz))
  = (fin3 (vx + dx * (1 / norm3 dx dy dz) * dV)
          (vy + dy * (1 / norm3 dx dy dz) * dV)
          (vz + dz * (1 / norm3 dx dy dz) * dV),
     fin3 (dx * (1 / norm3 dx dy dz) * dV) (dy * (1 / norm3 dx dy dz) * dV)
          (dz * (1 / norm3 dx dy dz) * dV)).
Proof.
  intros Hd. unfold applyManeuver.
  now rewrite (normalize_nonzero _ _ _ Hd), multiplyScalar_fin3, add_fin3.
Qed.

Lemma norm3_direction_scaled (dx dy dz dV : R) :
  norm3 dx dy dz <> 0 ->
  norm3 (dx * (1 / norm3 dx dy dz) * dV) (dy * (1 / norm3 dx dy dz) * dV)
        (dz * (1 / norm3 dx dy dz) * dV) = Rabs dV.
Proof.
  intros Hd. set (n := norm3 dx dy dz) in *.
  assert (Hn : 0 < n) by (pose proof (norm3_nonneg dx dy dz); fold n in H; lra).
  replace (dx * (1 / n) * dV) with (dx * ((1 / n) * dV)) by ring.
  replace (dy * (1 / n) * dV) with (dy * ((1 / n) * dV)) by ring.
  replace (dz * (1 / n) * dV) with (dz * ((1 / n) * dV)) by ring.
  rewrite norm3_scale_abs. fold n.
  rewrite Rabs_mult, (Rabs_pos_eq (1 / n)).
  - field. lra.
  - apply Rlt_le, Rdiv_lt_0_compat; lra.
Qed.

(** X6: an impulsive manoeuvre of [deltaV] km/s with a direction vector that
    is not the craft's velocity object changes the velocity by a vector of
    magnitude exactly [|deltaV|], whatever the length of the direction given,
    so the speed changes by at most [|deltaV|]; with a copy of the velocity
    as direction (prograde, or retrograde with [|deltaV|] up to the speed)
    the speed changes by exactly [deltaV]; with the zero vector as direction
    the velocity is left as it was.  The direction vector itself is
    overwritten with the change of velocity.  Hence, called with the craft's
    own velocity object as direction, [applyManeuver] does not add to the
    speed: it leaves the velocity at [2 * deltaV] along its former direction,
    whatever the speed was. *)
Theorem applyManeuver_changes_speed_by_deltaV (vx vy vz dx dy dz dV : R) :
  (norm3 dx dy dz = 0 ->
   applyManeuver (fin3 vx vy vz) (Fin dV) (Other (fin3 dx dy dz))
   = (fin3 vx vy vz, fin3 0 0 0))
  /\ (norm3 dx dy dz <> 0 ->
      exists ux uy uz : R,
        applyManeuver (fin3 vx vy vz) (Fin dV) (Other (fin3 dx dy dz))
        = (fin3 ux uy uz, fin3 (ux - vx) (uy - vy) (uz - vz))
        /\ norm3 (ux - vx) (uy - vy) (uz - vz) = Rabs dV
        /\ norm3 vx vy vz - Rabs dV <= norm3 ux uy uz <= norm3 vx vy vz + Rabs dV)
  /\ (forall k : R,
        0 < k -> dx = k * vx -> dy = k * vy -> dz = k * vz ->
        norm3 vx vy vz <> 0 -> - norm3 vx vy vz <= dV ->
        exists ux uy uz : R,
          fst (applyManeuver (fin3 vx vy vz) (Fin dV) (Other (fin3 dx dy dz)))
          = fin3 ux uy uz
          /\ norm3 ux uy uz = norm3 vx vy vz + dV)
  /\ (norm3 vx vy vz <> 0 ->
      exists ux uy uz : R,
        applyManeuver (fin3 vx vy vz) (Fin dV) ItsVelocity
        = (fin3 ux uy uz, fin3 ux uy uz)
        /\ ux * norm3 vx vy vz = 2 * dV * vx
        /\ uy * norm3 vx vy vz = 2 * dV * vy
        /\ uz * norm3 vx vy vz = 2 * dV * vz
        /\ norm3 ux uy uz = 2 * Rabs dV).
Proof.
  split; [ | split; [ | split]].
  - intros Hz. unfold applyManeuver.
    rewrite (normalize_zero_norm _ _ _ Hz), multiplyScalar_fin3, add_fin3.
    unfold fin3. f_equal; do 3 f_equal; ring.
  - intros Hd. rewrite (@applyManeuver_fin3 vx vy vz dx dy dz dV Hd).
    pose proof (@norm3_direction_scaled dx dy dz dV Hd) as Hdelta.
    set (n := norm3 dx dy dz) in *.
    exists (vx + dx * (1 / n) * dV), (vy + dy * (1 / n) * dV),
           (vz + dz * (1 / n) * dV).
    replace (vx + dx * (1 / n) * dV - vx) with (dx * (1 / n) * dV) by ring.
    replace (vy + dy * (1 / n) * dV - vy) with (dy * (1 / n) * dV) by ring.
    replace (vz + dz * (1 / n) * dV - vz) with (dz * (1 / n) * dV) by ring.
    split; [reflexivity | ]. split; [exact Hdelta | ].
    set (wx := dx * (1 / n) * dV) in *.
    set (wy := dy * (1 / n) * dV) in *.
    set (wz := dz * (1 / n) * dV) in *.
    split.
    + pose proof (norm3_triangle (vx + wx) (vy + wy) (vz + wz) (- wx) (- wy) (- wz))
        as Ht.
      replace (vx + wx + - wx) with vx in Ht by ring.
      replace (vy + wy + - wy) with vy in Ht by ring.
      replace (vz + wz + - wz) with vz in Ht by ring.
      replace (norm3 (- wx) (- wy) (- wz)) with (norm3 wx wy wz) in Ht
        by (unfold norm3; f_equal; ring).
      lra.
    + pose proof (norm3_triangle vx vy vz wx wy wz) as Ht. lra.
  - intros k Hk -> -> -> Hv HdV.
    set (n := norm3 vx vy vz) in *.
    assert (Hn : 0 < n) by (pose proof (norm3_nonneg vx vy vz); fold n in H; lra).
    assert (Hkn : norm3 (k * vx) (k * vy) (k * vz) = n * k).
    { replace (k * vx) with (vx * k) by ring. replace (k * vy) with (vy * k) by ring.
      replace (k * vz) with (vz * k) by ring. apply norm3_scale. lra. }
    assert (Hd : norm3 (k * vx) (k * vy) (k * vz) <> 0) by (rewrite Hkn; nra).
    rewrite (@applyManeuver_fin3 vx vy vz _ _ _ dV Hd), Hkn.
    do 3 eexists. split; [reflexivity | ].
    replace (vx + k * vx * (1 / (n * k)) * dV) with (vx * (1 + dV / n)) by (field; lra).
    replace (vy + k * vy * (1 / (n * k)) * dV) with (vy * (1 + dV / n)) by (field; lra).
    replace (vz + k * vz * (1 / (n * k)) * dV) with (vz * (1 + dV / n)) by (field; lra).
    rewrite norm3_scale.
    + fold n. field. lra.
    + assert (- 1 <= dV / n).
      { apply Rmult_le_reg_r with n; [exact Hn | ].
        unfold Rdiv. rewrite Rmult_assoc, Rinv_l by lra. lra. }
      lra.
  - intros Hv. pose proof (@norm3_direction_scaled vx vy vz dV Hv) as Hdelta.
    set (n := norm3 vx vy vz) in *.
    assert (Hn : 0 < n) by (pose proof (norm3_nonneg vx vy vz); fold n in H; lra).
    unfold applyManeuver.
    rewrite (normalize_nonzero _ _ _ Hv), multiplyScalar_fin3, add_fin3. fold n.
    set (wx := vx * (1 / n) * dV) in *.
    set (wy := vy * (1 / n) * dV) in *.
    set (wz := vz * (1 / n) * dV) in *.
    exists (wx + wx), (wy + wy), (wz + wz).
    split; [reflexivity | ].
    split; [unfold wx; field; lra | ].
    split; [unfold wy; field; lra | ].
    split; [unfold wz; field; lra | ].
    replace (wx + wx) with (wx * 2) by ring.
    replace (wy + wy) with (wy * 2) by ring.
    replace (wz + wz) with (wz * 2) by ring.
    rewrite norm3_scale by lra. rewrite Hdelta. ring.
Qed.

Lemma applyManeuver_changes_speed_witness :
  exists ux uy uz : R,
    applyManeuver (fin3 0 30 0) (Fin 2) ItsVelocity = (fin3 ux uy uz, fin3 ux uy uz)
    /\ ux * norm3 0 30 0 = 2 * 2 * 0
    /\ uy * norm3 0 30 0 = 2 * 2 * 30
    /\ uz * norm3 0 30 0 = 2 * 2 * 0
    /\ norm3 ux uy uz = 2 * Rabs 2.
Proof.
  assert (Hn : norm3 0 30 0 = 30) by (apply norm3_axis_y; lra).
  apply (proj2 (proj2 (proj2 (applyManeuver_changes_speed_by_deltaV 0 30 0 0 5 0 2)))).
  lra.
Defined.

End ImpulsiveManoeuvre.

(** ** The environment of the subsystems (SpacecraftSystems.updateEnvironment) *)

Section Environment.

Import Subsystems.
Local Open Scope R_scope.

Lemma Math_sqrt_cases (a : num) :
  (exists d : R, 0 <= d /\ Math_sqrt a = Fin d) \/ Math_sqrt a = PInf \/ Math_sqrt a = NaN.
Proof.
  destruct a as [r | | | ]; unfold Math_sqrt; auto.
  unfold Rltb. destruct (Rlt_dec r 0); auto.
  left. exists (sqrt r). split; [apply sqrt_pos | reflexivity].
Qed.

Lemma sqrt_hundredth : sqrt (1 / 100) = 1 / 10.
Proof.
  replace (1 / 100) with ((1 / 10) * (1 / 10)) by field.
  apply sqrt_square. lra.
Qed.

Lemma Rpower_minus_half (m : R) : 0 < m -> Rpower m (- (1 / 2)) = / sqrt m.
Proof.
  intros Hm. rewrite Rpower_Ropp. f_equal.
  replace (1 / 2) with (/ 2) by field. now apply Rpower_sqrt.
Qed.

(** The two values the environment step computes from a finite distance
    [m >= 0.01] to the Sun. *)
Lemma sunlight_bounds (m : R) :
  1 / 100 <= m ->
  0 < 1361 / (m * m) <= 13610000
  /\ 27 / 10 < 27 / 10 + 278 * Rpower m (- (1 / 2)) <= 27827 / 10.
Proof.
  intros Hm.
  assert (Hmm : 1 / 10000 <= m * m) by nra.
  split.
  - split.
    + apply Rdiv_lt_0_compat; lra.
    + apply Rmult_le_reg_r with (m * m); [lra | ].
      unfold Rdiv. rewrite Rmult_assoc, Rinv_l by lra. lra.
  - rewrite Rpower_minus_half by lra.
    assert (Hs : 1 / 10 <= sqrt m).
    { rewrite <- sqrt_hundredth. apply sqrt_le_1; lra. }
    assert (Hinv : 0 < / sqrt m <= 10).
    { split; [apply Rinv_0_lt_compat; lra | ].
      apply Rmult_le_reg_r with (sqrt m); [lra | ].
      rewrite Rinv_l by lra. lra. }
    lra.
Qed.

Lemma environment_values (s : t) (position : Vector3.t)
    (bodies : list (string * Body.t)) :
  exists (intensity external : R) (distance : num) (console' : list string),
    updateEnvironment s position bodies
    = set_environment s (Fin intensity) (Fin external) distance console'
    /\ 0 < intensity <= 13610000
    /\ 27 / 10 < external <= 27827 / 10.
Proof.
  unfold updateEnvironment.
  destruct (positionOf (bodies_get bodies "sun")) as [sunPos | ].
  2:{ exists 1361, 278, (Fin 1), (console s). repeat split; lra. }
  cbv zeta. unfold Vector3.distanceTo.
  destruct (Math_sqrt_cases (Vector3.distanceToSquared position sunPos))
    as [(d & Hd & ->) | [-> | ->]].
  - unfold Math_max. rewrite lt_Fin.
    destruct (Rlt_dec d (1 / 100)) as [Hnear | Hfar].
    + rewrite (Rltb_true Hnear). simpl isFinite. rewrite strict_eq_Fin.
      rewrite Reqb_false by lra. simpl negb. simpl orb. cbv iota beta.
      rewrite mul_Fin, div_Fin by lra.
      unfold Math_pow_real. rewrite Rltb_true by lra. rewrite mul_Fin, add_Fin.
      do 4 eexists. split; [reflexivity | ].
      apply sunlight_bounds. lra.
    + apply Rnot_lt_le in Hfar.
      rewrite (Rltb_false Hfar). simpl isFinite. rewrite strict_eq_Fin.
      rewrite Reqb_false by lra. simpl negb. simpl orb. cbv iota beta.
      assert (Hdd : d * d <> 0) by nra.
      rewrite mul_Fin, (div_Fin 1361 Hdd).
      unfold Math_pow_real. rewrite Rltb_true by lra. rewrite mul_Fin, add_Fin.
      do 4 eexists. split; [reflexivity | ].
      now apply sunlight_bounds.
  - simpl. do 4 eexists. split; [reflexivity | ]. split; lra.
  - simpl. do 4 eexists. split; [reflexivity | ]. split; lra.
Qed.

(** X7: whatever the positions of the craft and of the Sun are (coincident,
    infinitely far apart or NaN included), and whether or not the Sun is
    loaded, [updateEnvironment] leaves a solar intensity that is finite, in
    (0, 13 610 000] W/m^2, and an external temperature that is finite, in
    (2.7, 2782.7] K: the distance is floored at 0.01 AU and an invalid one
    replaced by the values at 1 AU. *)
Theorem updateEnvironment_sunlight_bounded (s : t) (position : Vector3.t)
    (bodies : list (string * Body.t)) :
  exists intensity external : R,
    solarIntensity (updateEnvironment s position bodies) = Fin intensity
    /\ externalTemp (thermal (updateEnvironment s position bodies)) = Fin external
    /\ 0 < intensity <= 13610000
    /\ 27 / 10 < external <= 27827 / 10.
Proof.
  destruct (environment_values s position bodies)
    as (intensity & external & distance & console' & -> & Hi & He).
  exists intensity, external. repeat split; tauto.
Qed.

End Environment.


(** ** Battery and temperature (updatePowerSystem, updateThermalSystem) *)

Section PowerAndThermal.

Import Subsystems.
Local Open Scope R_scope.

Lemma clamp_Fin (lo hi x : R) :
  exists c : R,
    Math_max (Fin lo) (Math_min (Fin hi) (Fin x)) = Fin c
    /\ lo <= c /\ c <= Rmax lo hi.
Proof.
  unfold Math_min. rewrite lt_Fin. unfold Rltb.
  destruct (Rlt_dec x hi) as [Hx | Hx]; unfold Math_max; rewrite lt_Fin; unfold Rltb.
  - destruct (Rlt_dec lo x) as [Hl | Hl].
    + exists x. repeat split; try lra. apply Rle_trans with hi; [lra | apply Rmax_r].
    + exists lo. repeat split; try lra. apply Rmax_l.
  - destruct (Rlt_dec lo hi) as [Hl | Hl].
    + exists hi. repeat split; try lra. apply Rmax_r.
    + exists lo. repeat split; try lra. apply Rmax_l.
Qed.

Lemma attitudeStep_power (c : SpacecraftSystems.t)
    (x : SpacecraftSystems.AttitudeCommand * num) :
  SpacecraftSystems.power (SpacecraftSystems.attitudeStep c x)
  = SpacecraftSystems.power c
  /\ SpacecraftSystems.main (SpacecraftSystems.attitudeStep c x)
     = SpacecraftSystems.main c.
Proof.
  unfold SpacecraftSystems.attitudeStep.
  destruct (fst x) as [ | torque]; [split; reflexivity | ].
  unfold SpacecraftSystems.applyTorque, SpacecraftSystems.desaturateReactionWheels.
  cbv zeta.
  destruct (_ <? _)%num; [split; reflexivity | ].
  destruct (_ <=? _)%num; split; reflexivity.
Qed.

(** What one [update] leaves in the fields of the power and thermal steps,
    in terms of the state after these two steps. *)
Lemma update_stages (s : t) (position : Vector3.t)
    (bodies : list (string * Body.t)) (deltaTime : num)
    (command : SpacecraftSystems.AttitudeCommand) :
  let heated :=
    updateThermalSystem
      (updatePowerSystem (updateEnvironment s position bodies) deltaTime)
      deltaTime in
  let s' := update s position bodies deltaTime command in
  SpacecraftSystems.power (core s') = SpacecraftSystems.power (core heated)
  /\ SpacecraftSystems.main (core s') = SpacecraftSystems.main (core heated)
  /\ bus s' = bus heated
  /\ thermal s' = thermal heated
  /\ health s' = health (updateSystemHealth heated deltaTime).
Proof.
  intros heated s'. subst s'. unfold update. fold heated.
  generalize heated. clear. intros heated.
  repeat split; try reflexivity.
  - apply (attitudeStep_power (core (updateCommunications heated))
             (command, deltaTime)).
  - apply (attitudeStep_power (core (updateCommunications heated))
             (command, deltaTime)).
Qed.

(** The power step from finite numbers. *)
Lemma updatePowerSystem_finite (s : t) (dt cap charge b eff area sp bl pr co i : R) :
  SpacecraftSystems.power (core s) = SpacecraftSystems.mkPower (Fin cap) (Fin charge) ->
  battery (degradation (health s)) = Fin b ->
  solarPanels (degradation (health s)) = Fin sp ->
  solarPanelEfficiency (bus s) = Fin eff ->
  solarPanelArea (bus s) = Fin area ->
  baseload (consumers (bus s)) = Fin bl ->
  propulsion (consumers (bus s)) = Fin pr ->
  communications (consumers (bus s)) = Fin co ->
  solarIntensity s = Fin i ->
  exists c gen w : R,
    updatePowerSystem s (Fin dt)
    = mk (set_charge (core s) (Fin c))
         (mkBus (Fin eff) (Fin area) (Fin gen) (Fin w) (consumers (bus s)))
         (thermal s) (comms s) (health s) (solarIntensity s) (thrust s) (console s)
    /\ 0 <= c <= Rmax 0 (cap * (1 - b / 100)).
Proof.
  intros Hp Hb Hsp Heff Harea Hbl Hpr Hco Hi.
  unfold updatePowerSystem. cbv zeta.
  rewrite Hp, Hb, Hsp, Heff, Harea, Hbl, Hpr, Hco, Hi. simpl.
  set (consumption1 :=
         (if (SpacecraftSystems.throttle (SpacecraftSystems.main (core s)) >? 0)%num
          then Fin bl + Fin pr else Fin bl)%num).
  assert (H1 : exists w1 : R, consumption1 = Fin w1).
  { unfold consumption1. destruct (_ >? _)%num; fin_arith; eauto. }
  destruct H1 as (w1 & ->).
  set (consumption := (if inContact (comms s) then Fin w1 + Fin co else Fin w1)%num).
  assert (H2 : exists w : R, consumption = Fin w).
  { unfold consumption. destruct (inContact (comms s)); fin_arith; eauto. }
  destruct H2 as (w & ->).
  fin_arith.
  destruct (clamp_Fin 0 (cap * (1 - b / 100))
              (charge + (i * area * (eff * (1 - sp / 100)) - w) * (dt / 3600) / 1000))
    as (c & -> & Hc0 & Hc1).
  exists c, (i * area * (eff * (1 - sp / 100))), w. split; [reflexivity | lra].
Qed.

(** The thermal step from finite numbers. *)
Lemma updateThermalSystem_finite (s : t) (dt w i hc ra re : R) :
  currentConsumption (bus s) = Fin w ->
  solarIntensity s = Fin i ->
  heatCapacity (thermal s) = Fin hc ->
  hc <> 0 ->
  radiatorArea (thermal s) = Fin ra ->
  radiatorEmissivity (thermal s) = Fin re ->
  exists T : R,
    internalTemp (thermal (updateThermalSystem s (Fin dt))) = Fin T
    /\ 100 <= T <= 400.
Proof.
  intros Hw Hi Hhc Hhc0 Hra Hre.
  unfold updateThermalSystem. cbv zeta. simpl.
  rewrite Hw, Hi, Hhc, Hra, Hre.
  set (temp0 := if negb (isFinite (internalTemp (thermal s)))
                   || (internalTemp (thermal s) <? 0)%num
                then Fin 293 else internalTemp (thermal s)).
  assert (Htemp0 : exists t0 : R, temp0 = Fin t0).
  { unfold temp0. destruct (internalTemp (thermal s)) as [t0 | | | ]; simpl; eauto.
    destruct (Fin t0 <? 0)%num; eauto. }
  destruct Htemp0 as (t0 & ->).
  unfold Math_pow. fin_arith.
  destruct (clamp_Fin 100 400
              (t0 + (w + i * 2
                     - re * ra * (567 / 10000000000) * (t0 * (t0 * (t0 * t0))))
                    * dt / hc)) as (T & -> & HT0 & HT1).
  exists T. split; [reflexivity | ].
  rewrite Rmax_right in HT1 by lra. lra.
Qed.

Lemma updateThermalSystem_frame (s : t) (deltaTime : num) :
  let s' := updateThermalSystem s deltaTime in
  core s' = core s
  /\ health s' = health s
  /\ solarPanelEfficiency (bus s') = solarPanelEfficiency (bus s)
  /\ solarPanelArea (bus s') = solarPanelArea (bus s)
  /\ baseload (consumers (bus s')) = baseload (consumers (bus s))
  /\ propulsion (consumers (bus s')) = propulsion (consumers (bus s))
  /\ communications (consumers (bus s')) = communications (consumers (bus s))
  /\ heatCapacity (thermal s') = heatCapacity (thermal s)
  /\ radiatorArea (thermal s') = radiatorArea (thermal s)
  /\ radiatorEmissivity (thermal s') = radiatorEmissivity (thermal s).
Proof. repeat split. Qed.

Lemma updateSystemHealth_degradation (s : t) (dt sp b rw : R) :
  degradation (health s) = mkDegradation (Fin sp) (Fin b) (Fin rw) ->
  degradation (health (updateSystemHealth s (Fin dt)))
  = mkDegradation (Fin (sp + 5 / 10 * (dt / 86400) / 365))
                  (Fin (b + 2 * (dt / 86400) / 365))
                  (Fin (rw + 1 * (dt / 86400) / 365)).
Proof.
  intros Hd. unfold updateSystemHealth. cbv zeta. simpl. rewrite Hd. simpl.
  now fin_arith.
Qed.

Lemma isFinite_inv (a : num) : isFinite a = true -> exists r : R, a = Fin r.
Proof. destruct a as [r | | | ]; try discriminate. eauto. Qed.

(** One update from a sound state, with a finite time step. *)
Lemma update_within_limits (s : t) (position : Vector3.t)
    (bodies : list (string * Body.t)) (dt cap b : R)
    (command : SpacecraftSystems.AttitudeCommand) :
  sound s ->
  SpacecraftSystems.batteryCapacity (SpacecraftSystems.power (core s)) = Fin cap ->
  battery (degradation (health s)) = Fin b ->
  let s' := update s position bodies (Fin dt) command in
  sound s'
  /\ SpacecraftSystems.batteryCapacity (SpacecraftSystems.power (core s')) = Fin cap
  /\ battery (degradation (health s')) = Fin (b + 2 * (dt / 86400) / 365)
  /\ exists c T : R,
       SpacecraftSystems.batteryCharge (SpacecraftSystems.power (core s')) = Fin c
       /\ 0 <= c <= Rmax 0 (cap * (1 - b / 100))
       /\ internalTemp (thermal s') = Fin T
       /\ 100 <= T <= 400.
Proof.
  intros Hsound Hcap Hb s'.
  destruct (update_stages s position bodies (Fin dt) command)
    as (Hpower & _ & Hbus & Hthermal & Hhealth).
  fold s' in Hpower, Hbus, Hthermal, Hhealth.
  destruct (environment_values s position bodies)
    as (i & external & distance & console' & Henv & _ & _).
  rewrite Henv in Hpower, Hbus, Hthermal, Hhealth.
  set (s0 := set_environment s (Fin i) (Fin external) distance console') in *.
  unfold sound in Hsound. cbv zeta in Hsound.
  destruct Hsound as (H1 & H2 & H3 & H4 & H5 & H6 & H7 & H8 & H9 & H10 & H11
                      & H12 & H13 & H14).
  destruct (isFinite_inv _ H1) as (eff & Heff).
  destruct (isFinite_inv _ H2) as (area & Harea).
  destruct (isFinite_inv _ H3) as (bl & Hbl).
  destruct (isFinite_inv _ H4) as (pr & Hpr).
  destruct (isFinite_inv _ H5) as (co & Hco).
  destruct (isFinite_inv _ H7) as (charge & Hcharge).
  destruct (isFinite_inv _ H8) as (sp & Hsp).
  destruct (isFinite_inv _ H10) as (rw & Hrw).
  destruct (isFinite_inv _ H11) as (hc & Hhc).
  destruct (isFinite_inv _ H13) as (ra & Hra).
  destruct (isFinite_inv _ H14) as (re & Hre).
  assert (Hhc0 : hc <> 0).
  { rewrite Hhc in H12. unfold truthy, Reqb in H12.
    destruct (Req_dec_T hc 0); [discriminate | assumption]. }
  assert (Hp0 : SpacecraftSystems.power (core s0)
                = SpacecraftSystems.mkPower (Fin cap) (Fin charge)).
  { change (SpacecraftSystems.power (core s0)) with (SpacecraftSystems.power (core s)).
    destruct (SpacecraftSystems.power (core s)) as [cap0 charge0].
    simpl in Hcap, Hcharge. now subst. }
  destruct (@updatePowerSystem_finite s0 dt cap charge b eff area sp bl pr co i
              Hp0 Hb Hsp Heff Harea Hbl Hpr Hco eq_refl)
    as (c & gen & w & Hpow & Hc).
  rewrite Hpow in Hpower, Hbus, Hthermal, Hhealth.
  set (s1 := mk (set_charge (core s0) (Fin c))
                (mkBus (Fin eff) (Fin area) (Fin gen) (Fin w) (consumers (bus s0)))
                (thermal s0) (comms s0) (health s0) (solarIntensity s0) (thrust s0)
                (console s0)) in *.
  destruct (@updateThermalSystem_finite s1 dt w i hc ra re eq_refl eq_refl Hhc Hhc0
              Hra Hre) as (T & HT & HTr).
  destruct (updateThermalSystem_frame s1 (Fin dt))
    as (F1 & F2 & F3 & F4 & F5 & F6 & F7 & F8 & F9 & F10).
  cbv zeta in F1, F2, F3, F4, F5, F6, F7, F8, F9, F10.
  assert (Hdeg : degradation (health s')
                 = mkDegradation (Fin (sp + 5 / 10 * (dt / 86400) / 365))
                                 (Fin (b + 2 * (dt / 86400) / 365))
                                 (Fin (rw + 1 * (dt / 86400) / 365))).
  { rewrite Hhealth. apply updateSystemHealth_degradation.
    rewrite F2. change (health s1) with (health s).
    destruct (degradation (health s)) as [sp0 b0 rw0]. simpl in Hsp, Hb, Hrw.
    now subst. }
  assert (Hpow' : SpacecraftSystems.power (core s')
                  = SpacecraftSystems.mkPower (Fin cap) (Fin c)).
  { rewrite Hpower, F1. unfold s1, set_charge. simpl.
    change (SpacecraftSystems.power (core s0)) with (SpacecraftSystems.power (core s)).
    now rewrite Hcap. }
  split.
  - unfold sound. cbv zeta.
    rewrite Hbus, Hthermal, Hpow', Hdeg, F3, F4, F5, F6, F7, F8, F9, F10.
    unfold s1. simpl.
    change (consumers (bus s0)) with (consumers (bus s)).
    change (thermal s0) with
      (mkThermal (internalTemp (thermal s)) (Fin external) (heatCapacity (thermal s))
                 (radiatorArea (thermal s)) (radiatorEmissivity (thermal s))
                 (limits (thermal s))).
    simpl. rewrite Hbl, Hpr, Hco, Hhc, Hra, Hre. simpl.
    unfold truthy. rewrite (Reqb_false Hhc0). repeat split.
  - rewrite Hpow', Hdeg, Hthermal. simpl.
    split; [reflexivity | ]. split; [reflexivity | ].
    exists c, T. repeat split; try tauto; lra.
Qed.

Lemma run_cons (s : t) (tick : Tick) (ticks : list Tick) :
  run s (tick :: ticks)
  = run (update s (tick_position tick) (tick_bodies tick) (tick_deltaTime tick)
                (tick_command tick)) ticks.
Proof. reflexivity. Qed.

(** X8: the battery and the cabin temperature stay within their limits.
    From a state whose power and thermal parameters are finite (heat capacity
    not zero, battery capacity and battery degradation not negative), after
    every non-empty run of updates with finite time steps that are not
    negative, whatever the environment, the throttle and the attitude
    commands: the battery charge is a finite number in [0, batteryCapacity]
    and the internal temperature a finite number in [100, 400] K. *)
Theorem battery_and_temperature_stay_within_limits
    (s : t) (ticks : list Tick) (dts : list R) (cap b : R) :
  sound s ->
  SpacecraftSystems.batteryCapacity (SpacecraftSystems.power (core s)) = Fin cap ->
  0 <= cap ->
  battery (degradation (health s)) = Fin b ->
  0 <= b ->
  map tick_deltaTime ticks = map Fin dts ->
  Forall (fun dt => 0 <= dt) dts ->
  ticks <> [] ->
  exists c T : R,
    SpacecraftSystems.batteryCharge (SpacecraftSystems.power (core (run s ticks)))
    = Fin c
    /\ 0 <= c <= cap
    /\ internalTemp (thermal (run s ticks)) = Fin T
    /\ 100 <= T <= 400.
Proof.
  intros Hsound Hcap Hcap0 Hb Hb0 Hdts Hpos Hne.
  revert s dts b Hsound Hcap Hb Hb0 Hdts Hpos Hne.
  induction ticks as [ | tick ticks IH]; intros s dts b Hsound Hcap Hb Hb0 Hdts Hpos Hne.
  - contradiction.
  - destruct dts as [ | dt dts]; [discriminate | ].
    simpl in Hdts. injection Hdts as Hdt Hdts.
    inversion Hpos as [ | ? ? Hdt0 Hpos']; subst.
    rewrite run_cons, Hdt.
    destruct (@update_within_limits s (tick_position tick) (tick_bodies tick)
                dt cap b (tick_command tick) Hsound Hcap Hb)
      as (Hsound' & Hcap' & Hb' & c & T & Hc & Hcr & HT & HTr).
    destruct ticks as [ | tick' ticks].
    + exists c, T. simpl. repeat split; try assumption; try lra.
      apply Rle_trans with (Rmax 0 (cap * (1 - b / 100))); [lra | ].
      apply Rmax_lub; [lra | nra].
    + apply (IH _ dts (b + 2 * (dt / 86400) / 365)); try assumption.
      * assert (0 <= dt / 86400) by (apply Rmult_le_pos; lra). lra.
      * discriminate.
Qed.

Lemma battery_and_temperature_witness :
  exists c T : R,
    SpacecraftSystems.batteryCharge
      (SpacecraftSystems.power
         (core (run (create Config.empty)
                    [mkTick (fin3 1 0 0) [] 3600 SpacecraftSystems.Hold])))
    = Fin c
    /\ 0 <= c <= 100
    /\ internalTemp
         (thermal (run (create Config.empty)
                       [mkTick (fin3 1 0 0) [] 3600 SpacecraftSystems.Hold]))
       = Fin T
    /\ 100 <= T <= 400.
Proof.
  apply (@battery_and_temperature_stay_within_limits
           (create Config.empty)
           [mkTick (fin3 1 0 0) [] 3600 SpacecraftSystems.Hold]
           [3600] 100 0); try reflexivity; try lra.
  - unfold sound. simpl. unfold truthy. rewrite Reqb_false by lra. repeat split.
  - repeat constructor; lra.
  - discriminate.
Defined.

End PowerAndThermal.

(** ** Wear (SpacecraftSystems.updateSystemHealth) *)

Section Wear.

Import Subsystems.
Local Open Scope R_scope.

Lemma update_health (s : t) (position : Vector3.t)
    (bodies : list (string * Body.t)) (dt o sp b rw : R)
    (command : SpacecraftSystems.AttitudeCommand) :
  health s = mkHealth (Fin o) (mkDegradation (Fin sp) (Fin b) (Fin rw)) ->
  exists o' sp' b' rw' : R,
    health (update s position bodies (Fin dt) command)
    = mkHealth (Fin o') (mkDegradation (Fin sp') (Fin b') (Fin rw'))
    /\ sp' = sp + 5 / 10 * (dt / 86400) / 365
    /\ b' = b + 2 * (dt / 86400) / 365
    /\ rw' = rw + 1 * (dt / 86400) / 365
    /\ o' = 100 - (sp' * (3 / 10) + b' * (4 / 10) + rw' * (3 / 10)).
Proof.
  intros Hh.
  destruct (update_stages s position bodies (Fin dt) command)
    as (_ & _ & _ & _ & Hhealth).
  cbv zeta in Hhealth. rewrite Hhealth.
  destruct (environment_values s position bodies)
    as (intensity & external & distance & console' & -> & _ & _).
  unfold updateSystemHealth. cbv zeta.
  change (health (updateThermalSystem
                    (updatePowerSystem
                       (set_environment s (Fin intensity) (Fin external) distance
                                        console') (Fin dt)) (Fin dt)))
    with (health s).
  rewrite Hh. simpl. fin_arith.
  do 4 eexists. split; [reflexivity | ]. repeat split.
Qed.

Lemma run_health (s : t) (ticks : list Tick) (dts : list R) (o sp b rw : R) :
  health s = mkHealth (Fin o) (mkDegradation (Fin sp) (Fin b) (Fin rw)) ->
  o = 100 - (sp * (3 / 10) + b * (4 / 10) + rw * (3 / 10)) ->
  map tick_deltaTime ticks = map Fin dts ->
  exists o' sp' b' rw' : R,
    health (run s ticks)
    = mkHealth (Fin o') (mkDegradation (Fin sp') (Fin b') (Fin rw'))
    /\ sp' = sp + 5 / 10 * (total dts / 86400) / 365
    /\ b' = b + 2 * (total dts / 86400) / 365
    /\ rw' = rw + 1 * (total dts / 86400) / 365
    /\ o' = 100 - (sp' * (3 / 10) + b' * (4 / 10) + rw' * (3 / 10)).
Proof.
  revert s dts o sp b rw.
  induction ticks as [ | tick ticks IH]; intros s dts o sp b rw Hh Ho Hdts.
  - destruct dts; [ | discriminate]. exists o, sp, b, rw. simpl.
    split; [exact Hh | ]. repeat split; lra.
  - destruct dts as [ | dt dts]; [discriminate | ].
    simpl in Hdts. injection Hdts as Hdt Hdts.
    rewrite run_cons, Hdt.
    destruct (@update_health s (tick_position tick) (tick_bodies tick) dt o sp b rw
                (tick_command tick) Hh)
      as (o1 & sp1 & b1 & rw1 & Hh1 & Hsp1 & Hb1 & Hrw1 & Ho1).
    destruct (IH _ dts o1 sp1 b1 rw1 Hh1 Ho1 Hdts)
      as (o' & sp' & b' & rw' & Hh' & Hsp' & Hb' & Hrw' & Ho').
    exists o', sp', b', rw'. split; [exact Hh' | ].
    simpl total. repeat split; try assumption; subst; field.
Qed.

(** X9: the overall health of a new craft depends only on the simulated time
    that has passed, not on how it was cut into steps nor on anything else
    that happened: after updates with finite time steps that sum to [T]
    seconds it is [100 - 1.25 * (T / 86400) / 365], that is 1.25 points lost
    per 365 days, without a floor at zero. *)
Theorem health_depends_only_on_elapsed_time
    (config : Config.t) (ticks : list Tick) (dts : list R) :
  map tick_deltaTime ticks = map Fin dts ->
  overall (health (run (create config) ticks))
  = Fin (100 - 125 / 100 * (total dts / 86400) / 365).
Proof.
  intros Hdts.
  destruct (@run_health (create config) ticks dts 100 0 0 0 eq_refl)
    as (o' & sp' & b' & rw' & -> & Hsp & Hb & Hrw & Ho); [lra | exact Hdts | ].
  simpl. f_equal. subst. field.
Qed.

Lemma health_depends_only_on_elapsed_time_witness :
  overall
    (health (run (create Config.empty)
                 [mkTick (fin3 1 0 0) [] 86400 SpacecraftSystems.Hold;
                  mkTick (fin3 1 0 0) [] 172800 SpacecraftSystems.Hold]))
  = Fin (100 - 125 / 100 * (total [86400; 172800] / 86400) / 365).
Proof.
  apply (@health_depends_only_on_elapsed_time Config.empty
           [mkTick (fin3 1 0 0) [] 86400 SpacecraftSystems.Hold;
            mkTick (fin3 1 0 0) [] 172800 SpacecraftSystems.Hold]
           [86400; 172800]).
  reflexivity.
Defined.

End Wear.

(** ** Planning a burn (ManoeuvreNode.calculateBurnParameters, execute) *)

Section BurnPlanning.

Import ManoeuvrePlanning.
Local Open Scope R_scope.

(** The two estimates of the propellant of a burn, for a mass ratio [E]: the
    node's, on the total mass, exceeds the propellant on board exactly when
    the engine's, on the dry mass, does. *)
Lemma fuel_estimates_agree (m f E : R) :
  0 < E ->
  Rltb f ((m + f) * (1 - 1 / E)) = Rltb f (m * (E - 1)).
Proof.
  intros HE.
  assert (Hid : (m + f) * (1 - 1 / E) - f = (m * (E - 1) - f) / E) by (field; lra).
  assert (Hinv : 0 < / E) by now apply Rinv_0_lt_compat.
  unfold Rltb.
  destruct (Rlt_dec f ((m + f) * (1 - 1 / E))) as [H1 | H1];
    destruct (Rlt_dec f (m * (E - 1))) as [H2 | H2]; try reflexivity; exfalso.
  - assert (0 < (m * (E - 1) - f) / E) by lra.
    assert ((m * (E - 1) - f) / E <= 0).
    { unfold Rdiv. apply Rnot_lt_le in H2.
      replace 0 with (0 * / E) by ring. apply Rmult_le_compat_r; lra. }
    lra.
  - assert ((m * (E - 1) - f) / E <= 0) by lra.
    assert (0 < (m * (E - 1) - f) / E).
    { unfold Rdiv. apply Rmult_lt_0_compat; lra. }
    lra.
Qed.

Lemma calculateBurnParameters_values
    (n : Node) (st : Subsystems.t) (dx dy dz m f isp : R) :
  deltaV n = fin3 dx dy dz ->
  norm3 dx dy dz <> 0 ->
  SpacecraftSystems.fuel (SpacecraftSystems.main (Subsystems.core st)) = Fin f ->
  SpacecraftSystems.specificImpulse (SpacecraftSystems.main (Subsystems.core st))
  = Fin isp ->
  isp <> 0 ->
  calculateBurnParameters n (Fin m) (Some st)
  = (mkNode (id n) (timeFromNow n) (deltaV n)
       (Fin ((m + f) * (1 - 1 / exp (norm3 dx dy dz / (isp * (981 / 100) / 1000))))
        / (Subsystems.thrust st / Fin (isp * (981 / 100))))%num
       (Fin ((m + f) * (1 - 1 / exp (norm3 dx dy dz / (isp * (981 / 100) / 1000))))),
     []).
Proof.
  intros Hdv Hn Hf Hisp Hisp0.
  unfold calculateBurnParameters. rewrite Hdv, length_fin3, strict_eq_Fin.
  rewrite (Reqb_false Hn). cbv zeta. rewrite Hf, Hisp.
  assert (Hve : isp * (981 / 100) / 1000 <> 0).
  { unfold Rdiv. repeat apply Rmult_integral_contrapositive_currified; lra. }
  rewrite mul_Fin. rewrite (div_Fin (isp * (981 / 100))) by lra.
  rewrite (div_Fin _ Hve), exp_Fin.
  pose proof (exp_pos (norm3 dx dy dz / (isp * (981 / 100) / 1000))) as HE.
  rewrite (div_Fin 1) by lra. rewrite sub_Fin, add_Fin, mul_Fin.
  reflexivity.
Qed.

(** X10: the propellant a node plans for a burn is a fraction of the total
    mass.  For a finite non-zero delta-v, a positive total mass [m + f]
    (craft plus propellant), a positive specific impulse and a positive
    thrust, [calculateBurnParameters] sets [fuelRequired] to
    [(m + f) * (1 - e^(-dv / ve))], which lies strictly between 0 and the
    total mass, and [burnDuration] to that propellant divided by the mass flow
    [thrust / (isp * 9.81)], a positive time. *)
Theorem calculateBurnParameters_fuel_below_total_mass
    (n : Node) (st : Subsystems.t) (dx dy dz m f isp thrust : R) :
  deltaV n = fin3 dx dy dz ->
  norm3 dx dy dz <> 0 ->
  SpacecraftSystems.fuel (SpacecraftSystems.main (Subsystems.core st)) = Fin f ->
  SpacecraftSystems.specificImpulse (SpacecraftSystems.main (Subsystems.core st))
  = Fin isp ->
  Subsystems.thrust st = Fin thrust ->
  0 < m + f -> 0 < isp -> 0 < thrust ->
  exists F D : R,
    fuelRequired (fst (calculateBurnParameters n (Fin m) (Some st))) = Fin F
    /\ burnDuration (fst (calculateBurnParameters n (Fin m) (Some st))) = Fin D
    /\ F = (m + f) * (1 - exp (- (norm3 dx dy dz / (isp * (981 / 100) / 1000))))
    /\ 0 < F < m + f
    /\ D = F / (thrust / (isp * (981 / 100)))
    /\ 0 < D.
Proof.
  intros Hdv Hn Hf Hisp Hthrust Hm Hisp0 Hthrust0.
  rewrite (@calculateBurnParameters_values n st dx dy dz m f isp Hdv Hn Hf Hisp)
    by lra.
  simpl. rewrite Hthrust.
  assert (Hmdot : 0 < thrust / (isp * (981 / 100))).
  { apply Rdiv_lt_0_compat; lra. }
  rewrite (div_Fin thrust) by lra. rewrite div_Fin by lra.
  set (x := norm3 dx dy dz / (isp * (981 / 100) / 1000)).
  assert (Hx : 0 < x).
  { unfold x. pose proof (norm3_nonneg dx dy dz).
    apply Rdiv_lt_0_compat; lra. }
  assert (HE : 1 < exp x).
  { rewrite <- exp_0. now apply exp_increasing. }
  assert (Hinv : 1 / exp x = exp (- x)).
  { rewrite exp_Ropp. field. lra. }
  assert (Hfrac : 0 < 1 / exp x < 1).
  { split.
    - apply Rdiv_lt_0_compat; lra.
    - apply Rmult_lt_reg_r with (exp x); [lra | ].
      unfold Rdiv. rewrite Rmult_assoc, Rinv_l by lra. lra. }
  assert (HF : 0 < (m + f) * (1 - 1 / exp x) < m + f) by nra.
  do 2 eexists. split; [reflexivity | ]. split; [reflexivity | ].
  split; [now rewrite Hinv | ]. split; [exact HF | ].
  split; [reflexivity | ].
  apply Rdiv_lt_0_compat; lra.
Qed.

Lemma calculateBurnParameters_fuel_witness :
  exists F D : R,
    fuelRequired
      (fst (calculateBurnParameters (mkNode 0 3600 (fin3 0 1 0) 0 0) (Fin 1000)
                                    (Some (Subsystems.create Subsystems.Config.empty))))
    = Fin F
    /\ burnDuration
         (fst (calculateBurnParameters (mkNode 0 3600 (fin3 0 1 0) 0 0) (Fin 1000)
                                       (Some (Subsystems.create Subsystems.Config.empty))))
       = Fin D
    /\ F = (1000 + 500) * (1 - exp (- (norm3 0 1 0 / (350 * (981 / 100) / 1000))))
    /\ 0 < F < 1000 + 500
    /\ D = F / (50000 / (350 * (981 / 100)))
    /\ 0 < D.
Proof.
  assert (Hn : norm3 0 1 0 = 1) by (apply norm3_axis_y; lra).
  apply (@calculateBurnParameters_fuel_below_total_mass
           (mkNode 0 3600 (fin3 0 1 0) 0 0)
           (Subsystems.create Subsystems.Config.empty) 0 1 0 1000 500 350 50000);
    try reflexivity; lra.
Defined.

(** X11: planning and execution apply the same fuel test.  The node estimates
    the propellant on the total mass, [(m + f) * (1 - 1 / ratio)], and
    [executeBurn] on the craft's mass, [m * (ratio - 1)]; for finite numbers
    and a non-zero specific impulse one exceeds the propellant on board
    exactly when the other does.  Hence [execute()] schedules the burn of a
    node whose parameters were calculated exactly when [executeBurn], called
    as [startManoeuvre] calls it, is refused neither for its ignitions nor
    for its fuel. *)
Theorem planned_and_executed_fuel_checks_agree
    (n : Node) (st : Subsystems.t) (dx dy dz m f isp : R) (duration : num) :
  deltaV n = fin3 dx dy dz ->
  SpacecraftSystems.fuel (SpacecraftSystems.main (Subsystems.core st)) = Fin f ->
  SpacecraftSystems.specificImpulse (SpacecraftSystems.main (Subsystems.core st))
  = Fin isp ->
  isp <> 0 ->
  let planned := fst (calculateBurnParameters n (Fin m) (Some st)) in
  let burn :=
    fst (SpacecraftSystems.executeBurn (Subsystems.core st)
           (SpacecraftSystems.Magnitude (Vector3.length (deltaV planned)))
           duration (Fin m)) in
  (fuelRequired planned >? Fin f)%num
  = (SpacecraftSystems.calculateFuelRequired (Subsystems.core st)
       (Vector3.length (deltaV planned)) (Fin m) >? Fin f)%num
  /\ ((exists a b c d, execute planned (Some st) = Scheduled a b c d)
      <-> (SpacecraftSystems.success burn = true
           \/ burn = SpacecraftSystems.Failure "Insufficient power")).
Proof.
  intros Hdv Hf Hisp Hisp0 planned burn.
  assert (Hve : isp * (981 / 100) / 1000 <> 0).
  { unfold Rdiv. repeat apply Rmult_integral_contrapositive_currified; lra. }
  assert (Hdvp : deltaV planned = fin3 dx dy dz).
  { unfold planned, calculateBurnParameters. rewrite Hdv.
    destruct (_ === _)%num; reflexivity. }
  assert (Hsys : SpacecraftSystems.calculateFuelRequired (Subsystems.core st)
                   (Vector3.length (deltaV planned)) (Fin m)
                 = Fin (m * (exp (norm3 dx dy dz / (isp * (981 / 100) / 1000)) - 1))).
  { unfold SpacecraftSystems.calculateFuelRequired. rewrite Hdvp, length_fin3, Hisp.
    rewrite !mul_Fin. rewrite div_Fin by lra. rewrite exp_Fin, sub_Fin, mul_Fin.
    replace (norm3 dx dy dz * 1000 / (isp * (981 / 100)))
      with (norm3 dx dy dz / (isp * (981 / 100) / 1000)) by (field; lra).
    reflexivity. }
  assert (Hcheck : (fuelRequired planned >? Fin f)%num
                   = (Fin (m * (exp (norm3 dx dy dz / (isp * (981 / 100) / 1000)) - 1))
                      >? Fin f)%num).
  { destruct (Req_dec_T (norm3 dx dy dz) 0) as [Hz | Hnz].
    - unfold planned, calculateBurnParameters.
      rewrite Hdv, length_fin3, strict_eq_Fin, (Reqb_true Hz). simpl.
      rewrite !gt_Fin, Hz. f_equal.
      unfold Rdiv. rewrite Rmult_0_l, exp_0. ring.
    - unfold planned.
      rewrite (@calculateBurnParameters_values n st dx dy dz m f isp Hdv Hnz Hf Hisp
                 Hisp0).
      simpl. rewrite !gt_Fin. apply fuel_estimates_agree. apply exp_pos. }
  split; [now rewrite Hsys | ].
  assert (Hfields : fuelRequired planned = fuelRequired planned) by reflexivity.
  unfold execute. rewrite Hf, Hcheck.
  unfold burn, SpacecraftSystems.executeBurn. cbv zeta.
  unfold SpacecraftSystems.magnitudeOf. rewrite Hsys, Hf.
  destruct (SpacecraftSystems.ignitionsUsed _ >=? SpacecraftSystems.ignitions _)%num;
    destruct (Fin (m * (exp (norm3 dx dy dz / (isp * (981 / 100) / 1000)) - 1))
              >? Fin f)%num;
    simpl.
  - split; [intros (a & b & c & d & H); discriminate H | ].
    intros [H | H]; discriminate H.
  - split; [intros (a & b & c & d & H); discriminate H | ].
    intros [H | H]; discriminate H.
  - split; [intros (a & b & c & d & H); discriminate H | ].
    intros [H | H]; discriminate H.
  - split; [ | intros _; eauto].
    intros _. destruct (_ <? 10)%num; simpl; auto.
Qed.

Lemma planned_and_executed_fuel_checks_witness :
  (fuelRequired
     (fst (calculateBurnParameters (mkNode 0 3600 (fin3 0 1 0) 0 0) (Fin 1000)
             (Some (Subsystems.create Subsystems.Config.empty))))
   >? Fin 500)%num
  = (SpacecraftSystems.calculateFuelRequired
       (Subsystems.core (Subsystems.create Subsystems.Config.empty))
       (Vector3.length
          (deltaV
             (fst (calculateBurnParameters (mkNode 0 3600 (fin3 0 1 0) 0 0) (Fin 1000)
                     (Some (Subsystems.create Subsystems.Config.empty))))))
       (Fin 1000)
     >? Fin 500)%num.
Proof.
  refine (proj1 (@planned_and_executed_fuel_checks_agree
                   (mkNode 0 3600 (fin3 0 1 0) 0 0)
                   (Subsystems.create Subsystems.Config.empty)
                   0 1 0 1000 500 350 (Fin 10) eq_refl eq_refl eq_refl _)).
  lra.
Defined.

End BurnPlanning.

(** ** The orbital frame (OrbitalMechanics.getOrbitalReferenceFrame) *)

Section OrbitalFrame.

Import ReferenceFrame.
Local Open Scope R_scope.

Lemma crossVectors_fin3 (a b c x y z : R) :
  Vector3.crossVectors (fin3 a b c) (fin3 x y z)
  = fin3 (b * z - c * y) (c * x - a * z) (a * y - b * x).
Proof. reflexivity. Qed.

Lemma fin3_ext (a b c x y z : R) :
  a = x -> b = y -> c = z -> fin3 a b c = fin3 x y z.
Proof. now intros -> -> ->. Qed.

Lemma norm3_ext (a b c x y z : R) :
  a = x -> b = y -> c = z -> norm3 a b c = norm3 x y z.
Proof. now intros -> -> ->. Qed.

Lemma norm3_unit (a b c : R) : a * a + b * b + c * c = 1 -> norm3 a b c = 1.
Proof. intros H. unfold norm3. rewrite H. apply sqrt_1. Qed.

Lemma normalized_unit (a b c : R) :
  norm3 a b c <> 0 ->
  (a * (1 / norm3 a b c)) * (a * (1 / norm3 a b c))
  + (b * (1 / norm3 a b c)) * (b * (1 / norm3 a b c))
  + (c * (1 / norm3 a b c)) * (c * (1 / norm3 a b c)) = 1.
Proof.
  intros Hn. pose proof (norm3_sqr a b c) as Hs.
  set (n := norm3 a b c) in *.
  replace (a * (1 / n) * (a * (1 / n)) + b * (1 / n) * (b * (1 / n))
           + c * (1 / n) * (c * (1 / n)))
    with ((a * a + b * b + c * c) / (n * n)) by (field; exact Hn).
  rewrite <- Hs. field. exact Hn.
Qed.

(** The frame built on two unit vectors that are not parallel. *)
Lemma frame_of_units (a b c x y z : R) :
  a * a + b * b + c * c = 1 ->
  x * x + y * y + z * z = 1 ->
  let nh := norm3 (b * z - c * y) (c * x - a * z) (a * y - b * x) in
  nh <> 0 ->
  let hx := (b * z - c * y) * (1 / nh) in
  let hy := (c * x - a * z) * (1 / nh) in
  let hz := (a * y - b * x) * (1 / nh) in
  let tx := hy * c - hz * b in
  let ty := hz * a - hx * c in
  let tz := hx * b - hy * a in
  Vector3.normalize (Vector3.crossVectors (fin3 a b c) (fin3 x y z)) = fin3 hx hy hz
  /\ Vector3.normalize (Vector3.crossVectors (fin3 hx hy hz) (fin3 a b c))
     = fin3 tx ty tz
  /\ hx * hx + hy * hy + hz * hz = 1
  /\ tx * tx + ty * ty + tz * tz = 1
  /\ a * hx + b * hy + c * hz = 0
  /\ a * tx + b * ty + c * tz = 0
  /\ tx * hx + ty * hy + tz * hz = 0
  /\ tx * x + ty * y + tz * z = nh.
Proof.
  intros Hr Hv nh Hnh hx hy hz tx ty tz.
  assert (Hh : hx * hx + hy * hy + hz * hz = 1).
  { unfold hx, hy, hz, nh. now apply normalized_unit. }
  assert (Hrh : a * hx + b * hy + c * hz = 0).
  { unfold hx, hy, hz. ring. }
  assert (Ht : tx * tx + ty * ty + tz * tz = 1).
  { replace (tx * tx + ty * ty + tz * tz)
      with ((hx * hx + hy * hy + hz * hz) * (a * a + b * b + c * c)
            - (a * hx + b * hy + c * hz) * (a * hx + b * hy + c * hz))
      by (unfold tx, ty, tz; ring).
    rewrite Hh, Hr, Hrh. ring. }
  split; [ | split; [ | repeat split]].
  - rewrite crossVectors_fin3. now apply normalize_nonzero.
  - rewrite crossVectors_fin3. fold tx ty tz.
    assert (Hn1 : norm3 tx ty tz = 1) by now apply norm3_unit.
    rewrite normalize_nonzero by (rewrite Hn1; lra).
    rewrite Hn1. apply fin3_ext; field.
  - exact Hh.
  - exact Ht.
  - exact Hrh.
  - unfold tx, ty, tz. ring.
  - unfold tx, ty, tz. ring.
  - pose proof (norm3_sqr (b * z - c * y) (c * x - a * z) (a * y - b * x)) as Hs.
    fold nh in Hs.
    replace (tx * x + ty * y + tz * z)
      with (((b * z - c * y) * (b * z - c * y) + (c * x - a * z) * (c * x - a * z)
             + (a * y - b * x) * (a * y - b * x)) * (1 / nh))
      by (unfold tx, ty, tz, hx, hy, hz; ring).
    rewrite <- Hs. field. exact Hnh.
Qed.

Lemma cross_nonzero_norms (px py pz vx vy vz : R) :
  norm3 (py * vz - pz * vy) (pz * vx - px * vz) (px * vy - py * vx) <> 0 ->
  norm3 px py pz <> 0 /\ norm3 vx vy vz <> 0.
Proof.
  intros Hc. split; intros Hz; apply Hc;
    destruct (norm3_zero _ _ _ Hz) as (-> & -> & ->);
    unfold norm3;
    match goal with |- sqrt ?e = 0 => replace e with 0 by ring end;
    apply sqrt_0.
Qed.

Lemma orbital_frame_components (px py pz vx vy vz : R) :
  let cx := py * vz - pz * vy in
  let cy := pz * vx - px * vz in
  let cz := px * vy - py * vx in
  norm3 cx cy cz <> 0 ->
  exists r1 r2 r3 t1 t2 t3 n1 n2 n3 : R,
    getOrbitalReferenceFrame (fin3 px py pz) (fin3 vx vy vz)
    = mkFrame (fin3 r1 r2 r3) (fin3 t1 t2 t3) (fin3 n1 n2 n3)
    /\ norm3 r1 r2 r3 = 1 /\ norm3 t1 t2 t3 = 1 /\ norm3 n1 n2 n3 = 1
    /\ r1 * t1 + r2 * t2 + r3 * t3 = 0
    /\ r1 * n1 + r2 * n2 + r3 * n3 = 0
    /\ t1 * n1 + t2 * n2 + t3 * n3 = 0
    /\ (r1 * norm3 px py pz = px /\ r2 * norm3 px py pz = py
        /\ r3 * norm3 px py pz = pz)
    /\ (n1 * norm3 cx cy cz = cx /\ n2 * norm3 cx cy cz = cy
        /\ n3 * norm3 cx cy cz = cz)
    /\ 0 < t1 * vx + t2 * vy + t3 * vz.
Proof.
  intros cx cy cz Hc.
  destruct (cross_nonzero_norms px py pz vx vy vz Hc) as [Hp Hv].
  set (np := norm3 px py pz) in *. set (nv := norm3 vx vy vz) in *.
  set (cn := norm3 cx cy cz) in *.
  assert (Hnp : 0 < np) by (pose proof (norm3_nonneg px py pz); fold np in H; lra).
  assert (Hnv : 0 < nv) by (pose proof (norm3_nonneg vx vy vz); fold nv in H; lra).
  assert (Hcn : 0 < cn) by (pose proof (norm3_nonneg cx cy cz); fold cn in H; lra).
  set (a := px * (1 / np)). set (b := py * (1 / np)). set (c := pz * (1 / np)).
  set (x := vx * (1 / nv)). set (y := vy * (1 / nv)). set (z := vz * (1 / nv)).
  set (k := (1 / np) * (1 / nv)).
  assert (Hk : 0 < k).
  { unfold k. apply Rmult_lt_0_compat; apply Rdiv_lt_0_compat; lra. }
  assert (Hr : a * a + b * b + c * c = 1) by (apply normalized_unit; exact Hp).
  assert (Hvu : x * x + y * y + z * z = 1) by (apply normalized_unit; exact Hv).
  assert (Hnh : norm3 (b * z - c * y) (c * x - a * z) (a * y - b * x) = cn * k).
  { rewrite (@norm3_ext _ _ _ (cx * k) (cy * k) (cz * k));
      [ | unfold a, b, c, x, y, z, k, cx, cy, cz; ring ..].
    apply norm3_scale. lra. }
  assert (Hnh0 : norm3 (b * z - c * y) (c * x - a * z) (a * y - b * x) <> 0).
  { rewrite Hnh. apply Rmult_integral_contrapositive_currified; lra. }
  destruct (@frame_of_units a b c x y z Hr Hvu Hnh0)
    as (Hnormal & Hprograde & Hh & Ht & Hrh & Hrt & Hth & Htv).
  cbv zeta in Hnormal, Hprograde, Hh, Ht, Hrh, Hrt, Hth, Htv.
  rewrite Hnh in Hnormal, Hprograde, Hh, Ht, Hrh, Hrt, Hth, Htv.
  unfold getOrbitalReferenceFrame, Vector3.clone. cbv zeta.
  rewrite (normalize_nonzero _ _ _ Hp), (normalize_nonzero _ _ _ Hv).
  fold np nv a b c x y z. rewrite Hnormal, Hprograde.
  do 9 eexists. split; [reflexivity | ].
  split; [now apply norm3_unit | ].
  split; [now apply norm3_unit | ].
  split; [now apply norm3_unit | ].
  split; [exact Hrt | ]. split; [exact Hrh | ]. split; [exact Hth | ].
  split; [unfold a, b, c; repeat split; field; lra | ].
  split.
  - assert (Hck : cn * k <> 0) by (apply Rmult_integral_contrapositive_currified; lra).
    unfold a, b, c, x, y, z, k, cx, cy, cz; repeat split; field; fold cx cy cz cn;
      repeat split; lra.
  - replace (vx) with (x * nv) at 1 by (unfold x; field; lra).
    replace (vy) with (y * nv) at 1 by (unfold y; field; lra).
    replace (vz) with (z * nv) at 1 by (unfold z; field; lra).
    match goal with
    | |- 0 < ?t1 * (x * nv) + ?t2 * (y * nv) + ?t3 * (z * nv) =>
        replace (t1 * (x * nv) + t2 * (y * nv) + t3 * (z * nv))
          with ((t1 * x + t2 * y + t3 * z) * nv) by ring
    end.
    rewrite Htv. apply Rmult_lt_0_compat; [ | exact Hnv].
    apply Rmult_lt_0_compat; lra.
Qed.

(** X12: the orbital frame is orthonormal and right-handed whenever it is
    defined.  For a finite position and a finite velocity that are not
    parallel (their cross product is not zero), [getOrbitalReferenceFrame]
    returns three finite unit vectors that are pairwise perpendicular: the
    radial one is the position divided by its length, the normal one is the
    angular momentum [position x velocity] divided by its length, and the
    prograde one has a positive component along the velocity. *)
Theorem getOrbitalReferenceFrame_orthonormal (px py pz vx vy vz : R) :
  let cx := py * vz - pz * vy in
  let cy := pz * vx - px * vz in
  let cz := px * vy - py * vx in
  norm3 cx cy cz <> 0 ->
  exists r1 r2 r3 t1 t2 t3 n1 n2 n3 : R,
    getOrbitalReferenceFrame (fin3 px py pz) (fin3 vx vy vz)
    = mkFrame (fin3 r1 r2 r3) (fin3 t1 t2 t3) (fin3 n1 n2 n3)
    /\ norm3 r1 r2 r3 = 1 /\ norm3 t1 t2 t3 = 1 /\ norm3 n1 n2 n3 = 1
    /\ r1 * t1 + r2 * t2 + r3 * t3 = 0
    /\ r1 * n1 + r2 * n2 + r3 * n3 = 0
    /\ t1 * n1 + t2 * n2 + t3 * n3 = 0
    /\ (r1 * norm3 px py pz = px /\ r2 * norm3 px py pz = py
        /\ r3 * norm3 px py pz = pz)
    /\ (n1 * norm3 cx cy cz = cx /\ n2 * norm3 cx cy cz = cy
        /\ n3 * norm3 cx cy cz = cz)
    /\ 0 < t1 * vx + t2 * vy + t3 * vz.
Proof. exact (orbital_frame_components px py pz vx vy vz). Qed.

Lemma getOrbitalReferenceFrame_orthonormal_witness :
  exists r1 r2 r3 t1 t2 t3 n1 n2 n3 : R,
    getOrbitalReferenceFrame (fin3 1 0 0) (fin3 0 30 0)
    = mkFrame (fin3 r1 r2 r3) (fin3 t1 t2 t3) (fin3 n1 n2 n3)
    /\ norm3 r1 r2 r3 = 1 /\ norm3 t1 t2 t3 = 1 /\ norm3 n1 n2 n3 = 1
    /\ r1 * t1 + r2 * t2 + r3 * t3 = 0
    /\ r1 * n1 + r2 * n2 + r3 * n3 = 0
    /\ t1 * n1 + t2 * n2 + t3 * n3 = 0
    /\ (r1 * norm3 1 0 0 = 1 /\ r2 * norm3 1 0 0 = 0 /\ r3 * norm3 1 0 0 = 0)
    /\ (n1 * norm3 (0 * 0 - 0 * 30) (0 * 0 - 1 * 0) (1 * 30 - 0 * 0) = 0 * 0 - 0 * 30
        /\ n2 * norm3 (0 * 0 - 0 * 30) (0 * 0 - 1 * 0) (1 * 30 - 0 * 0) = 0 * 0 - 1 * 0
        /\ n3 * norm3 (0 * 0 - 0 * 30) (0 * 0 - 1 * 0) (1 * 30 - 0 * 0)
           = 1 * 30 - 0 * 0)
    /\ 0 < t1 * 0 + t2 * 30 + t3 * 0.
Proof.
  apply (getOrbitalReferenceFrame_orthonormal 1 0 0 0 30 0).
  replace (norm3 (0 * 0 - 0 * 30) (0 * 0 - 1 * 0) (1 * 30 - 0 * 0)) with 30; [lra | ].
  symmetry. rewrite (@norm3_ext _ _ _ 0 0 30) by ring. apply norm3_axis_z. lra.
Defined.

Lemma convertDeltaV_fin3 (kr ks kw r1 r2 r3 t1 t2 t3 n1 n2 n3 : R)
    (position velocity : Vector3.t) :
  getOrbitalReferenceFrame position velocity
  = mkFrame (fin3 r1 r2 r3) (fin3 t1 t2 t3) (fin3 n1 n2 n3) ->
  convertDeltaV (fin3 kr ks kw) position velocity
  = fin3 (r1 * kr + t1 * ks + n1 * kw) (r2 * kr + t2 * ks + n2 * kw)
         (r3 * kr + t3 * ks + n3 * kw).
Proof.
  intros Hframe. unfold convertDeltaV. cbv zeta. rewrite Hframe.
  unfold Vector3.addScaledVector, Vector3.zero, fin3. simpl.
  rewrite !mul_Fin, !add_Fin. apply fin3_ext; ring.
Qed.

(** X13: converting a delta-v from the orbital frame to inertial coordinates
    keeps its magnitude.  For a finite position and velocity that are not
    parallel and finite components (radial, along-track, cross-track),
    [convertDeltaV] returns a finite vector whose length is that of the
    components given. *)
Theorem convertDeltaV_preserves_magnitude (kr ks kw px py pz vx vy vz : R) :
  norm3 (py * vz - pz * vy) (pz * vx - px * vz) (px * vy - py * vx) <> 0 ->
  exists d1 d2 d3 : R,
    convertDeltaV (fin3 kr ks kw) (fin3 px py pz) (fin3 vx vy vz) = fin3 d1 d2 d3
    /\ norm3 d1 d2 d3 = norm3 kr ks kw.
Proof.
  intros Hc.
  destruct (orbital_frame_components px py pz vx vy vz Hc)
    as (r1 & r2 & r3 & t1 & t2 & t3 & n1 & n2 & n3 & Hframe & Hr & Ht & Hn
        & Hrt & Hrn & Htn & _).
  rewrite (convertDeltaV_fin3 kr ks kw Hframe).
  do 3 eexists. split; [reflexivity | ].
  pose proof (norm3_sqr r1 r2 r3) as Sr. rewrite Hr in Sr.
  pose proof (norm3_sqr t1 t2 t3) as St. rewrite Ht in St.
  pose proof (norm3_sqr n1 n2 n3) as Sn. rewrite Hn in Sn.
  unfold norm3. f_equal.
  replace ((r1 * kr + t1 * ks + n1 * kw) * (r1 * kr + t1 * ks + n1 * kw)
           + (r2 * kr + t2 * ks + n2 * kw) * (r2 * kr + t2 * ks + n2 * kw)
           + (r3 * kr + t3 * ks + n3 * kw) * (r3 * kr + t3 * ks + n3 * kw))
    with (kr * kr * (r1 * r1 + r2 * r2 + r3 * r3)
          + ks * ks * (t1 * t1 + t2 * t2 + t3 * t3)
          + kw * kw * (n1 * n1 + n2 * n2 + n3 * n3)
          + 2 * kr * ks * (r1 * t1 + r2 * t2 + r3 * t3)
          + 2 * kr * kw * (r1 * n1 + r2 * n2 + r3 * n3)
          + 2 * ks * kw * (t1 * n1 + t2 * n2 + t3 * n3)) by ring.
  rewrite <- Sr, <- St, <- Sn, Hrt, Hrn, Htn. ring.
Qed.

Lemma convertDeltaV_preserves_magnitude_witness :
  exists d1 d2 d3 : R,
    convertDeltaV (fin3 0 2 0) (fin3 1 0 0) (fin3 0 30 0) = fin3 d1 d2 d3
    /\ norm3 d1 d2 d3 = norm3 0 2 0.
Proof.
  apply (convertDeltaV_preserves_magnitude 0 2 0 1 0 0 0 30 0).
  rewrite (@norm3_ext _ _ _ 0 0 30) by ring.
  rewrite norm3_axis_z; lra.
Defined.

(** X14: at rest, at the origin and on a coordinate axis the frame collapses
    without any NaN.  For a finite position and a finite velocity of which
    every product of two different coordinates is zero (the position or the
    velocity is the zero vector, or both lie along the same coordinate axis),
    [getOrbitalReferenceFrame] returns the zero vector as normal and as
    prograde direction, so [convertDeltaV] keeps only the radial component of
    a manoeuvre: its along-track and cross-track components are dropped.
    Every term of the two cross products has a factor zero there, so this is
    so in exact arithmetic and in doubles alike. *)
Theorem getOrbitalReferenceFrame_degenerate (px py pz vx vy vz : R) :
  py * vz = 0 -> pz * vy = 0 -> pz * vx = 0 ->
  px * vz = 0 -> px * vy = 0 -> py * vx = 0 ->
  exists r1 r2 r3 : R,
    getOrbitalReferenceFrame (fin3 px py pz) (fin3 vx vy vz)
    = mkFrame (fin3 r1 r2 r3) (fin3 0 0 0) (fin3 0 0 0)
    /\ forall kr ks kw : R,
         convertDeltaV (fin3 kr ks kw) (fin3 px py pz) (fin3 vx vy vz)
         = fin3 (r1 * kr) (r2 * kr) (r3 * kr).
Proof.
  intros Hyz Hzy Hzx Hxz Hxy Hyx.
  assert (Hx : py * vz - pz * vy = 0) by lra.
  assert (Hy : pz * vx - px * vz = 0) by lra.
  assert (Hz : px * vy - py * vx = 0) by lra.
  destruct (normalize_fin3 px py pz) as (sp & _ & Hrad).
  destruct (normalize_fin3 vx vy vz) as (sv & _ & Hvel).
  assert (Hframe : getOrbitalReferenceFrame (fin3 px py pz) (fin3 vx vy vz)
                   = mkFrame (fin3 (px * sp) (py * sp) (pz * sp)) (fin3 0 0 0)
                             (fin3 0 0 0)).
  { unfold getOrbitalReferenceFrame, Vector3.clone. cbv zeta.
    rewrite Hrad, Hvel, crossVectors_fin3.
    assert (Hh : Vector3.normalize
                   (fin3 (py * sp * (vz * sv) - pz * sp * (vy * sv))
                         (pz * sp * (vx * sv) - px * sp * (vz * sv))
                         (px * sp * (vy * sv) - py * sp * (vx * sv)))
                 = fin3 0 0 0).
    { apply normalize_zero_norm.
      rewrite (@norm3_ext _ _ _ 0 0 0); [apply norm3_axis; lra | | | ].
      - replace (py * sp * (vz * sv) - pz * sp * (vy * sv))
          with ((py * vz - pz * vy) * (sp * sv)) by ring. rewrite Hx. ring.
      - replace (pz * sp * (vx * sv) - px * sp * (vz * sv))
          with ((pz * vx - px * vz) * (sp * sv)) by ring. rewrite Hy. ring.
      - replace (px * sp * (vy * sv) - py * sp * (vx * sv))
          with ((px * vy - py * vx) * (sp * sv)) by ring. rewrite Hz. ring. }
    rewrite Hh, crossVectors_fin3.
    rewrite (normalize_zero_norm (0 * (pz * sp) - 0 * (py * sp))
               (0 * (px * sp) - 0 * (pz * sp)) (0 * (py * sp) - 0 * (px * sp))).
    - reflexivity.
    - rewrite (@norm3_ext _ _ _ 0 0 0) by ring. apply norm3_axis. lra. }
  exists (px * sp), (py * sp), (pz * sp). split; [exact Hframe | ].
  intros kr ks kw. rewrite (convertDeltaV_fin3 kr ks kw Hframe).
  apply fin3_ext; ring.
Qed.

Lemma getOrbitalReferenceFrame_degenerate_witness :
  exists r1 r2 r3 : R,
    getOrbitalReferenceFrame (fin3 1 0 0) (fin3 5 0 0)
    = mkFrame (fin3 r1 r2 r3) (fin3 0 0 0) (fin3 0 0 0)
    /\ forall kr ks kw : R,
         convertDeltaV (fin3 kr ks kw) (fin3 1 0 0) (fin3 5 0 0)
         = fin3 (r1 * kr) (r2 * kr) (r3 * kr).
Proof.
  apply (@getOrbitalReferenceFrame_degenerate 1 0 0 5 0 0); lra.
Defined.

End OrbitalFrame.

(** ** The self-check (OrbitalMechanics.validatePhysics) *)

Section SelfCheck.

Import ReferenceFrame.
Import OrbitalMechanics.
Local Open Scope R_scope.

Local Abbreviation AU := (1495978707 / 10) (only parsing).

(** The semi-major axis and the period [getOrbitalElements] reports for a
    finite state away from the origin, by the sign of the specific energy. *)
Lemma getOrbitalElements_axis_and_period (px py pz vx vy vz : R) :
  let n := norm3 px py pz in
  let s := norm3 vx vy vz in
  let E := s * s / 2 - mu_sun / (n * AU) in
  let a := - mu_sun / (2 * E) in
  let el := Dynamics.getOrbitalElements (fin3 px py pz) (fin3 vx vy vz) in
  n <> 0 ->
  (E < 0 ->
   semiMajorAxis el = Fin (a / AU)
   /\ period el = Fin (2 * PI * sqrt (a * (a * a) / mu_sun) / 86400))
  /\ (0 < E -> semiMajorAxis el = Fin (a / AU) /\ period el = Fin 0)
  /\ (E = 0 -> semiMajorAxis el = Fin 0 /\ period el = Fin 0).
Proof.
  intros n s E a el Hn.
  pose proof mu_sun_pos as Hmu.
  assert (Hn0 : 0 < n) by (pose proof (norm3_nonneg px py pz); fold n in H; lra).
  assert (Hr : n * AU <> 0) by nra.
  assert (Hfields :
    semiMajorAxis el = safeValue (- Fin mu_sun / (2 * Fin E) / AU_TO_KM)%num
    /\ period el
       = safeValue (if (- Fin mu_sun / (2 * Fin E) >? 0)%num
                    then periodDays (- Fin mu_sun / (2 * Fin E))%num (Fin mu_sun)
                    else Fin 0)).
  { unfold el, Dynamics.getOrbitalElements, calculateOrbitalElements.
    rewrite mu_sun_Fin.
    unfold truthy. rewrite strict_eq_Fin, Reqb_false by lra. simpl negb. simpl orb.
    cbv iota. unfold Vector3.clone. change Vector3.zero with (fin3 0 0 0).
    cbv zeta. rewrite !sub_fin3, !length_fin3.
    rewrite !(@norm3_ext (px - 0) (py - 0) (pz - 0) px py pz) by ring.
    fold n s. unfold AU_TO_KM. rewrite !mul_Fin, strict_eq_Fin.
    rewrite (Reqb_false Hr). simpl negb. simpl orb. cbv iota.
    rewrite !(div_Fin (s * s)) by lra.
    rewrite !(div_Fin mu_sun Hr), !sub_Fin. fold E.
    simpl. split; reflexivity. }
  destruct Hfields as [-> ->].
  unfold safeValue. rewrite neg_Fin, mul_Fin. unfold AU_TO_KM.
  split; [ | split].
  - intros HE. assert (H2E : 2 * E <> 0) by lra.
    rewrite (div_Fin (- mu_sun) H2E). fold a.
    assert (Ha : 0 < a).
    { unfold a. replace (- mu_sun / (2 * E)) with (mu_sun / (- (2 * E)))
        by (field; lra). apply Rdiv_lt_0_compat; lra. }
    rewrite gt_Fin, (Rltb_true Ha). rewrite div_Fin by lra.
    unfold periodDays, Math_PI. rewrite pow3_Fin. rewrite (div_Fin (a * (a * a))) by lra.
    assert (Hq : 0 <= a * (a * a) / mu_sun).
    { apply Rlt_le, Rdiv_lt_0_compat; [ | lra].
      apply Rmult_lt_0_compat; [lra | nra]. }
    rewrite (sqrt_Fin Hq). rewrite !mul_Fin. rewrite div_Fin by lra.
    split; reflexivity.
  - intros HE. assert (H2E : 2 * E <> 0) by lra.
    rewrite (div_Fin (- mu_sun) H2E). fold a.
    assert (Ha : a < 0).
    { unfold a. replace (- mu_sun / (2 * E)) with (- (mu_sun / (2 * E)))
        by (field; lra).
      assert (0 < mu_sun / (2 * E)) by (apply Rdiv_lt_0_compat; lra). lra. }
    rewrite gt_Fin, Rltb_false by lra. rewrite div_Fin by lra.
    split; reflexivity.
  - intros HE. rewrite HE.
    replace (2 * 0) with 0 by ring.
    assert (Hdiv : (Fin (- mu_sun) / Fin 0)%num = NInf).
    { unfold div. rewrite (Reqb_true (eq_refl 0)).
      rewrite Reqb_false by lra. rewrite Rltb_false by lra. reflexivity. }
    assert (Hdiv2 : (NInf / Fin AU)%num = NInf).
    { unfold div. rewrite Rltb_false by lra. reflexivity. }
    rewrite Hdiv, Hdiv2. split; reflexivity.
Qed.

(** X15: the self-check cannot fail on a bound orbit and cannot pass on any
    other.  [validatePhysics] compares the energy and the period computed from
    the craft's position and velocity with those its orbital elements imply,
    and the elements come from the same position and velocity: for a finite
    state away from the origin with negative specific energy both errors are
    exactly zero and every flag is true, whatever the state; with a specific
    energy that is zero or positive [overallValid] is false. *)
Theorem validatePhysics_tests_only_the_sign_of_the_energy
    (px py pz vx vy vz : R) :
  let n := norm3 px py pz in
  let s := norm3 vx vy vz in
  let E := s * s / 2 - mu_sun / (n * AU) in
  n <> 0 ->
  (E < 0 ->
   validatePhysics (fin3 px py pz) (fin3 vx vy vz)
   = mkValidation true (Fin 0) true (Fin 0) true)
  /\ (0 <= E ->
      overallValid (validatePhysics (fin3 px py pz) (fin3 vx vy vz)) = false).
Proof.
  intros n s E Hn.
  pose proof mu_sun_pos as Hmu. pose proof PI_RGT_0 as Hpi.
  assert (Hn0 : 0 < n) by (pose proof (norm3_nonneg px py pz); fold n in H; lra).
  assert (Hr : n * AU <> 0) by nra.
  destruct (@getOrbitalElements_axis_and_period px py pz vx vy vz Hn)
    as (Hbound & Hopen & Hparabolic).
  fold n s E in Hbound, Hopen, Hparabolic.
  set (a := - mu_sun / (2 * E)) in *.
  set (el := Dynamics.getOrbitalElements (fin3 px py pz) (fin3 vx vy vz)) in *.
  assert (Hshape :
    validatePhysics (fin3 px py pz) (fin3 vx vy vz)
    = let expectedEnergy := (- Fin mu_sun / (2 * semiMajorAxis el * AU_TO_KM))%num in
      let energyError :=
        (Math_abs (Fin E - expectedEnergy) / Math_abs expectedEnergy)%num in
      let predictedPeriod :=
        (2 * Math_PI
         * Math_sqrt (Math_pow (semiMajorAxis el * AU_TO_KM) 3 / Fin mu_sun)
         / 86400)%num in
      let keplerError :=
        (Math_abs (predictedPeriod - period el) / period el)%num in
      mkValidation (energyError <? Fin (1 / 100))%num (energyError * 100)%num
                   (keplerError <? Fin (1 / 100))%num (keplerError * 100)%num
                   ((energyError <? Fin (1 / 100))%num
                    && (keplerError <? Fin (1 / 100))%num)).
  { unfold validatePhysics. fold el. unfold Vector3.clone. cbv zeta.
    rewrite !length_fin3, !mu_sun_Fin. fold n s.
    assert (Hau : (Fin n * AU_TO_KM)%num = Fin (n * AU)) by reflexivity.
    rewrite !Hau, !mul_Fin.
    rewrite !(div_Fin (s * s)) by lra.
    rewrite !(div_Fin mu_sun Hr), !sub_Fin. fold E. reflexivity. }
  rewrite Hshape. cbv zeta. unfold AU_TO_KM.
  split.
  - intros HE. destruct (Hbound HE) as [-> ->].
    assert (Ha : 0 < a).
    { unfold a. replace (- mu_sun / (2 * E)) with (mu_sun / (- (2 * E)))
        by (field; lra). apply Rdiv_lt_0_compat; lra. }
    rewrite neg_Fin, !mul_Fin.
    assert (Haxis : a / AU * AU = a) by (field; lra).
    assert (Hden : 2 * (a / AU) * AU <> 0).
    { replace (2 * (a / AU) * AU) with (2 * a) by (field; lra). lra. }
    rewrite !(div_Fin (- mu_sun) Hden).
    assert (Hexp : - mu_sun / (2 * (a / AU) * AU) = E).
    { unfold a. field. lra. }
    rewrite Hexp, Haxis, sub_Fin, !abs_Fin.
    assert (HabsE : Rabs E <> 0) by (apply Rabs_no_R0; lra).
    rewrite !(div_Fin _ HabsE).
    rewrite pow3_Fin. rewrite !(div_Fin (a * (a * a))) by lra.
    assert (Hq : 0 < a * (a * a) / mu_sun).
    { apply Rdiv_lt_0_compat; [ | lra]. apply Rmult_lt_0_compat; [lra | nra]. }
    rewrite !sqrt_Fin by lra. unfold Math_PI. rewrite !mul_Fin.
    rewrite !(div_Fin (2 * PI * sqrt (a * (a * a) / mu_sun))) by lra.
    set (P := 2 * PI * sqrt (a * (a * a) / mu_sun) / 86400).
    assert (HP : 0 < P).
    { unfold P. apply Rdiv_lt_0_compat; [ | lra].
      apply Rmult_lt_0_compat; [lra | ]. now apply sqrt_lt_R0. }
    rewrite sub_Fin, abs_Fin. rewrite !(div_Fin (Rabs (P - P))) by lra.
    replace (E - E) with 0 by ring. replace (P - P) with 0 by ring.
    rewrite Rabs_R0.
    assert (H0E : 0 / Rabs E = 0) by (unfold Rdiv; ring).
    assert (H0P : 0 / P = 0) by (unfold Rdiv; ring).
    rewrite !H0E, !H0P, !lt_Fin, !mul_Fin, Rmult_0_l. rewrite Rltb_true by lra.
    reflexivity.
  - intros HE. destruct (Rle_lt_or_eq_dec 0 E HE) as [Hpos | Hzero].
    + destruct (Hopen Hpos) as [-> ->].
      assert (Ha : a < 0).
      { unfold a. replace (- mu_sun / (2 * E)) with (- (mu_sun / (2 * E)))
          by (field; lra).
        assert (0 < mu_sun / (2 * E)) by (apply Rdiv_lt_0_compat; lra). lra. }
      simpl. rewrite !mul_Fin.
      assert (Haxis : a / AU * AU = a) by (field; lra).
      rewrite Haxis, pow3_Fin. rewrite (div_Fin (a * (a * a))) by lra.
      assert (Hq : a * (a * a) / mu_sun < 0).
      { assert (0 < (- a) * (a * a) / mu_sun).
        { apply Rdiv_lt_0_compat; [ | lra]. apply Rmult_lt_0_compat; [lra | nra]. }
        replace (a * (a * a) / mu_sun) with (- ((- a) * (a * a) / mu_sun))
          by (field; lra). lra. }
      unfold Math_sqrt. rewrite (Rltb_true Hq).
      apply andb_false_r.
    + destruct (Hparabolic (eq_sym Hzero)) as [-> _].
      simpl. rewrite neg_Fin, !mul_Fin.
      assert (Hdiv : (Fin (- mu_sun) / Fin (2 * 0 * AU))%num = NInf).
      { unfold div. rewrite Reqb_true by ring.
        rewrite Reqb_false by lra. rewrite Rltb_false by lra. reflexivity. }
      rewrite Hdiv. reflexivity.
Qed.

Lemma validatePhysics_witness :
  validatePhysics (fin3 1 0 0) (fin3 0 30 0)
  = mkValidation true (Fin 0) true (Fin 0) true.
Proof.
  assert (Hn : norm3 1 0 0 = 1) by (apply norm3_axis; lra).
  assert (Hs : norm3 0 30 0 = 30) by (apply norm3_axis_y; lra).
  apply (proj1 (@validatePhysics_tests_only_the_sign_of_the_energy 1 0 0 0 30 0
                  ltac:(rewrite Hn; lra))).
  rewrite Hn, Hs. unfold mu_sun. lra.
Defined.

End SelfCheck.

(** ** Executing manoeuvre nodes (BaseSpacecraft.checkManoeuvreExecution) *)

Section ManoeuvreExecution.

Import ManoeuvrePlanning.
Import Manoeuvres.
Local Open Scope R_scope.


Lemma splice_node_head (n : Node) (rest : list Node) :
  splice_node (n :: rest) n = rest.
Proof. simpl. now rewrite Nat.eqb_refl. Qed.

Lemma splice_node_In (nodes : list Node) (n x : Node) :
  In x (splice_node nodes n) -> In x nodes.
Proof.
  induction nodes as [ | first rest IH]; simpl; [tauto | ].
  destruct (Nat.eqb (id first) (id n)); simpl; intuition.
Qed.

Lemma splice_node_length (nodes : list Node) (n : Node) :
  (List.length (splice_node nodes n) <= List.length nodes)%nat.
Proof.
  induction nodes as [ | first rest IH]; simpl; [lia | ].
  destruct (Nat.eqb (id first) (id n)); simpl; lia.
Qed.

(** What [startManoeuvre] leaves in the queue and in [executingManoeuvre]. *)
Lemma startManoeuvre_queue (c : Craft) (n : Node) :
  let c' := startManoeuvre c n in
  (manoeuvreNodes c' = manoeuvreNodes c
   \/ manoeuvreNodes c' = splice_node (manoeuvreNodes c) n)
  /\ (executingManoeuvre c' = executingManoeuvre c
      \/ exists direction : Vector3.t,
           executingManoeuvre c'
           = Some (mkExecuting n direction (burnDuration n)
                               (Vector3.clone (deltaV n)))).
Proof.
  unfold startManoeuvre.
  destruct (SpacecraftSystems.executeBurn _ _ _ _) as [[reason | used] core'];
    simpl.
  - split; [right; reflexivity | left; reflexivity].
  - split; [left; reflexivity | right; eauto].
Qed.

(** The second half of [checkManoeuvreExecution]: the burn in progress. *)
Lemma burn_step_queue (c : Craft) (dt : num) :
  let c' :=
    match executingManoeuvre c with
    | Some executing =>
        let executing :=
          mkExecuting (node executing) (thrustDirection executing)
                      (timeRemaining executing - dt)%num (totalDeltaV executing) in
        let c :=
          mkCraft (position c) (velocity c) (mass c) (systems c)
                  (manoeuvreNodes c) (Some executing) (log c) in
        if (timeRemaining executing <=? 0)%num then completeManoeuvre c executing
        else c
    | None => c
    end in
  manoeuvreNodes c' = manoeuvreNodes c
  \/ exists n : Node, manoeuvreNodes c' = splice_node (manoeuvreNodes c) n.
Proof.
  destruct (executingManoeuvre c) as [executing | ]; [ | left; reflexivity].
  cbv zeta. destruct (_ <=? _)%num; [ | left; reflexivity].
  right. exists (node executing). reflexivity.
Qed.

(** X16: only the head of the queue counts down, and only while nothing is
    executing.  After one [checkManoeuvreExecution], whatever the state and
    the time step, every node still in the queue is a node that was in it,
    unchanged, or is the former head with [dt] taken from its [timeFromNow]
    (which happens only when no manoeuvre was executing); and the queue has
    not grown.  So the [timeFromNow] of a node that is not the head does not
    advance while it waits: its count-down starts when it reaches the head. *)
Theorem checkManoeuvreExecution_counts_down_only_the_head
    (c : Craft) (dt : num) :
  (forall x : Node,
     In x (manoeuvreNodes (checkManoeuvreExecution c dt)) ->
     In x (manoeuvreNodes c)
     \/ (executingManoeuvre c = None
         /\ exists (n : Node) (rest : list Node),
              manoeuvreNodes c = n :: rest /\ x = counted n dt))
  /\ (List.length (manoeuvreNodes (checkManoeuvreExecution c dt))
      <= List.length (manoeuvreNodes c))%nat.
Proof.
  unfold checkManoeuvreExecution.
  set (c1 :=
         match executingManoeuvre c, manoeuvreNodes c with
         | None, nextNode :: rest =>
             let nextNode :=
               mkNode (id nextNode) (timeFromNow nextNode - dt)%num
                      (deltaV nextNode) (burnDuration nextNode)
                      (fuelRequired nextNode) in
             let c :=
               mkCraft (position c) (velocity c) (mass c) (systems c)
                       (nextNode :: rest) (executingManoeuvre c) (log c) in
             if (timeFromNow nextNode <=? 0)%num then startManoeuvre c nextNode
             else c
         | _, _ => c
         end).
  assert (H1 : (manoeuvreNodes c1 = manoeuvreNodes c)
               \/ (executingManoeuvre c = None
                   /\ exists (n : Node) (rest : list Node),
                        manoeuvreNodes c = n :: rest
                        /\ (manoeuvreNodes c1 = counted n dt :: rest
                            \/ manoeuvreNodes c1 = rest))).
  { unfold c1. destruct (executingManoeuvre c) as [executing | ] eqn:Hex;
      [left; reflexivity | ].
    destruct (manoeuvreNodes c) as [ | n rest] eqn:Hq; [left; exact Hq | ].
    right. split; [reflexivity | ]. exists n, rest. split; [reflexivity | ].
    cbv zeta. destruct (_ <=? _)%num; [ | left; reflexivity].
    match goal with
    | |- context [startManoeuvre ?craft ?nd] =>
        destruct (startManoeuvre_queue craft nd) as [[Hs | Hs] _];
          cbv zeta in Hs; rewrite Hs; simpl
    end.
    - left; reflexivity.
    - right. now rewrite Nat.eqb_refl. }
  destruct (burn_step_queue c1 dt) as [H2 | (m & H2)]; cbv zeta in H2;
    fold c1; rewrite H2.
  - destruct H1 as [H1 | (Hnone & n & rest & Hq & [H1 | H1])]; rewrite H1, ?Hq.
    + split; [intros x Hx; left; exact Hx | lia].
    + split; [ | simpl; lia].
      intros x [Hx | Hx]; [right | left; right; exact Hx].
      split; [exact Hnone | ]. exists n, rest. split; [reflexivity | now symmetry].
    + split; [intros x Hx; left; right; exact Hx | simpl; lia].
  - pose proof (splice_node_length (manoeuvreNodes c1) m) as Hlen.
    destruct H1 as [H1 | (Hnone & n & rest & Hq & [H1 | H1])];
      rewrite H1 in *; rewrite ?Hq in *.
    + split; [ | exact Hlen].
      intros x Hx. left. eapply splice_node_In; eassumption.
    + split; [ | exact Hlen].
      intros x Hx. apply splice_node_In in Hx. destruct Hx as [Hx | Hx].
      * right. split; [exact Hnone | ]. exists n, rest.
        split; [reflexivity | now symmetry].
      * left; right; exact Hx.
    + split; [ | simpl; simpl in Hlen; lia].
      intros x Hx. left; right. eapply splice_node_In; eassumption.
Qed.

Lemma executeBurn_success_state (s : SpacecraftSystems.t)
    (deltaV : SpacecraftSystems.DeltaV) (duration spacecraftMass used : num) :
  fst (SpacecraftSystems.executeBurn s deltaV duration spacecraftMass)
  = SpacecraftSystems.Success used ->
  snd (SpacecraftSystems.executeBurn s deltaV duration spacecraftMass)
  = SpacecraftSystems.mk (SpacecraftSystems.power s) (SpacecraftSystems.attitude s)
      (SpacecraftSystems.mkMain
         (SpacecraftSystems.fuel (SpacecraftSystems.main s))
         (SpacecraftSystems.specificImpulse (SpacecraftSystems.main s))
         1
         (SpacecraftSystems.ignitions (SpacecraftSystems.main s))
         (SpacecraftSystems.ignitionsUsed (SpacecraftSystems.main s) + 1)%num)
      (SpacecraftSystems.timeouts s ++ [(duration * 1000)%num]).
Proof.
  unfold SpacecraftSystems.executeBurn. cbv zeta.
  destruct (_ >=? _)%num; [discriminate | ].
  destruct (_ >? _)%num; [discriminate | ].
  destruct (_ <? _)%num; [discriminate | ].
  reflexivity.
Qed.

Lemma executeBurn_failure_state (s : SpacecraftSystems.t)
    (deltaV : SpacecraftSystems.DeltaV) (duration spacecraftMass : num)
    (reason : string) :
  fst (SpacecraftSystems.executeBurn s deltaV duration spacecraftMass)
  = SpacecraftSystems.Failure reason ->
  snd (SpacecraftSystems.executeBurn s deltaV duration spacecraftMass) = s.
Proof.
  unfold SpacecraftSystems.executeBurn. cbv zeta.
  destruct (_ >=? _)%num; [reflexivity | ].
  destruct (_ >? _)%num; [reflexivity | ].
  destruct (_ <? _)%num; [reflexivity | ].
  discriminate.
Qed.

(** X17: a burn no longer than the time step gives no thrust.  When nothing is
    executing, the head of the queue is due within this step ([timeFromNow <=
    dt]), its [burnDuration] is at most [dt] and [executeBurn] accepts it, one
    [checkManoeuvreExecution] starts and completes the manoeuvre: the node is
    gone, an ignition is used, the throttle is back at 0 and no manoeuvre is
    executing, so [calculateManoeuvreThrust] returns the zero vector and the
    burn adds nothing to the acceleration of the craft. *)
Theorem short_burn_starts_and_completes_in_one_step
    (c : Craft) (n : Node) (rest : list Node) (t d D : R) (used : num) :
  executingManoeuvre c = None ->
  manoeuvreNodes c = n :: rest ->
  timeFromNow n = Fin t -> t <= d ->
  burnDuration n = Fin D -> D <= d ->
  fst (SpacecraftSystems.executeBurn (Subsystems.core (systems c))
         (SpacecraftSystems.Magnitude (Vector3.length (deltaV n))) (Fin D) (mass c))
  = SpacecraftSystems.Success used ->
  let c' := checkManoeuvreExecution c (Fin d) in
  let engine c := SpacecraftSystems.main (Subsystems.core (systems c)) in
  executingManoeuvre c' = None
  /\ manoeuvreNodes c' = rest
  /\ SpacecraftSystems.throttle (engine c') = Fin 0
  /\ SpacecraftSystems.ignitionsUsed (engine c')
     = (SpacecraftSystems.ignitionsUsed (engine c) + 1)%num
  /\ log c'
     = log c ++ [ManoeuvreStarting (Vector3.length (deltaV n)); ManoeuvreComplete]
  /\ (forall dt' : num, calculateManoeuvreThrust c' dt' = Vector3.zero)
  /\ position c' = position c /\ velocity c' = velocity c.
Proof.
  intros Hex Hq Ht Htd HD HDd Hburn c' engine.
  pose proof (executeBurn_success_state _ _ _ _ Hburn) as Hstate.
  assert (Hc' : c'
    = mkCraft (position c) (velocity c) (mass c)
        (set_throttle
           (set_core (systems c)
              (snd (SpacecraftSystems.executeBurn (Subsystems.core (systems c))
                      (SpacecraftSystems.Magnitude (Vector3.length (deltaV n)))
                      (Fin D) (mass c))))
           0)
        rest None
        (log c ++ [ManoeuvreStarting (Vector3.length (deltaV n))]
         ++ [ManoeuvreComplete])).
  { unfold c', checkManoeuvreExecution. rewrite Hex, Hq. cbv zeta.
    cbn [timeFromNow]. rewrite Ht, sub_Fin, le_Fin, Rleb_true by lra.
    unfold startManoeuvre. cbn [deltaV burnDuration mass systems position velocity
                                 manoeuvreNodes executingManoeuvre log].
    rewrite HD.
    destruct (SpacecraftSystems.executeBurn (Subsystems.core (systems c))
                (SpacecraftSystems.Magnitude (Vector3.length (deltaV n)))
                (Fin D) (mass c)) as [result core'] eqn:Hcall.
    simpl in Hburn. subst result.
    cbn [executingManoeuvre timeRemaining mass systems position velocity
         manoeuvreNodes log node thrustDirection totalDeltaV snd].
    rewrite sub_Fin, le_Fin, Rleb_true by lra.
    unfold completeManoeuvre, removeManoeuvreNode.
    cbn [executingManoeuvre timeRemaining mass systems position velocity
         manoeuvreNodes log node thrustDirection totalDeltaV id].
    rewrite splice_node_head, <- app_assoc. reflexivity. }
  rewrite Hc', Hstate. unfold engine. simpl.
  repeat split.
Qed.

Lemma short_burn_witness :
  let c :=
    mkCraft (fin3 1 0 0) (fin3 0 30 0) 1000
            (Subsystems.create Subsystems.Config.empty)
            [mkNode 0 3600 (fin3 0 1 0) 60 100] None [] in
  calculateManoeuvreThrust (checkManoeuvreExecution c (Fin 7200)) (Fin 60)
  = Vector3.zero.
Proof.
  intros c.
  assert (Hn : norm3 0 1 0 = 1) by (apply norm3_axis_y; lra).
  assert (Hburn :
    fst (SpacecraftSystems.executeBurn (Subsystems.core (systems c))
           (SpacecraftSystems.Magnitude
              (Vector3.length (deltaV (mkNode 0 3600 (fin3 0 1 0) 60 100))))
           (Fin 60) (mass c))
    = SpacecraftSystems.Success
        (Fin (1000 * (exp (1 * 1000 / (350 * (981 / 100))) - 1)))).
  { unfold SpacecraftSystems.executeBurn, SpacecraftSystems.calculateFuelRequired.
    simpl. rewrite length_fin3, Hn. fin_arith.
    assert (Hexp : exp (1 * 1000 / (350 * (981 / 100))) < 3 / 2).
    { apply Rlt_trans with (exp (3 / 10)).
      - apply exp_increasing. lra.
      - pose proof (exp_ineq1 (- (3 / 10))) as H1.
        assert (H2 : 1 + - (3 / 10) < exp (- (3 / 10))) by (apply H1; lra).
        rewrite exp_Ropp in H2.
        pose proof (exp_pos (3 / 10)) as H3.
        apply Rmult_lt_reg_r with (/ exp (3 / 10)).
        + now apply Rinv_0_lt_compat.
        + rewrite Rinv_r by lra. lra. }
    rewrite Rleb_false by lra. rewrite Rltb_false by lra.
    rewrite Rltb_false by lra. reflexivity. }
  exact (proj1 (proj2 (proj2 (proj2 (proj2 (proj2
    (@short_burn_starts_and_completes_in_one_step c
       (mkNode 0 3600 (fin3 0 1 0) 60 100) [] 3600 7200 60 _
       eq_refl eq_refl eq_refl ltac:(lra) eq_refl ltac:(lra) Hburn))))))
    (Fin 60)).
Defined.

(** X18: a manoeuvre that is refused is dropped for good.  When nothing is
    executing, the head of the queue is due within this step and
    [executeBurn] refuses it (no ignition left, too little fuel, or a battery
    below 10 kWh), one [checkManoeuvreExecution] removes the node from the
    queue and records the reason; nothing is executing afterwards, no ignition
    is used, and the node is not tried again. *)
Theorem refused_manoeuvre_is_dropped
    (c : Craft) (n : Node) (rest : list Node) (t d : R) (reason : string) :
  executingManoeuvre c = None ->
  manoeuvreNodes c = n :: rest ->
  timeFromNow n = Fin t -> t <= d ->
  fst (SpacecraftSystems.executeBurn (Subsystems.core (systems c))
         (SpacecraftSystems.Magnitude (Vector3.length (deltaV n)))
         (burnDuration n) (mass c))
  = SpacecraftSystems.Failure reason ->
  let c' := checkManoeuvreExecution c (Fin d) in
  executingManoeuvre c' = None
  /\ manoeuvreNodes c' = rest
  /\ Subsystems.core (systems c') = Subsystems.core (systems c)
  /\ log c' = log c ++ [ManoeuvreFailed reason].
Proof.
  intros Hex Hq Ht Htd Hburn c'.
  pose proof (executeBurn_failure_state _ _ _ _ Hburn) as Hstate.
  assert (Hc' : c'
    = mkCraft (position c) (velocity c) (mass c)
        (set_core (systems c) (Subsystems.core (systems c)))
        rest None (log c ++ [ManoeuvreFailed reason])).
  { unfold c', checkManoeuvreExecution. rewrite Hex, Hq. cbv zeta.
    cbn [timeFromNow]. rewrite Ht, sub_Fin, le_Fin, Rleb_true by lra.
    unfold startManoeuvre. cbn [deltaV burnDuration mass systems position velocity
                                 manoeuvreNodes executingManoeuvre log].
    destruct (SpacecraftSystems.executeBurn (Subsystems.core (systems c))
                (SpacecraftSystems.Magnitude (Vector3.length (deltaV n)))
                (burnDuration n) (mass c)) as [result core'] eqn:Hcall.
    simpl in Hburn, Hstate. subst result core'.
    unfold removeManoeuvreNode.
    cbn [executingManoeuvre mass systems position velocity manoeuvreNodes log].
    rewrite splice_node_head. reflexivity. }
  rewrite Hc'. simpl. repeat split.
Qed.

Lemma refused_manoeuvre_witness :
  let c :=
    mkCraft (fin3 1 0 0) (fin3 0 30 0) 1000
            (Subsystems.create
               (Subsystems.Config.mk None None (Some (Fin 5)) None None None None
                                     None None None))
            [mkNode 0 3600 (fin3 0 1 0) 60 100] None [] in
  manoeuvreNodes (checkManoeuvreExecution c (Fin 7200)) = [].
Proof.
  intros c.
  assert (Hn : norm3 0 1 0 = 1) by (apply norm3_axis_y; lra).
  assert (Hburn :
    fst (SpacecraftSystems.executeBurn (Subsystems.core (systems c))
           (SpacecraftSystems.Magnitude
              (Vector3.length (deltaV (mkNode 0 3600 (fin3 0 1 0) 60 100))))
           (burnDuration (mkNode 0 3600 (fin3 0 1 0) 60 100)) (mass c))
    = SpacecraftSystems.Failure "Insufficient power").
  { unfold SpacecraftSystems.executeBurn, SpacecraftSystems.calculateFuelRequired.
    simpl. rewrite length_fin3, Hn. unfold or_else, truthy.
    rewrite !Reqb_false by lra. simpl. fin_arith.
    assert (Hexp : exp (1 * 1000 / (350 * (981 / 100))) < 3 / 2).
    { apply Rlt_trans with (exp (3 / 10)).
      - apply exp_increasing. lra.
      - pose proof (exp_ineq1 (- (3 / 10))) as H1.
        assert (H2 : 1 + - (3 / 10) < exp (- (3 / 10))) by (apply H1; lra).
        rewrite exp_Ropp in H2.
        pose proof (exp_pos (3 / 10)) as H3.
        apply Rmult_lt_reg_r with (/ exp (3 / 10)).
        + now apply Rinv_0_lt_compat.
        + rewrite Rinv_r by lra. lra. }
    rewrite Rleb_false by lra. rewrite Rltb_false by lra.
    rewrite Rltb_true by lra. reflexivity. }
  exact (proj1 (proj2
    (@refused_manoeuvre_is_dropped c (mkNode 0 3600 (fin3 0 1 0) 60 100) []
       3600 7200 "Insufficient power" eq_refl eq_refl eq_refl ltac:(lra) Hburn))).
Defined.

End ManoeuvreExecution.

(** ** The transfer calculators of the planner (TrajectoryPlanner.js) *)

Section TransferPlans.

Import TransferPlanner.
Local Open Scope R_scope.

Local Abbreviation AU := (1495978707 / 10) (only parsing).

Lemma sqrt2_gt_1 : 1 < sqrt 2.
Proof. rewrite <- sqrt_1 at 1. apply sqrt_lt_1; lra. Qed.

(** Leaving a circular parking orbit of speed [sqrt c] with a hyperbolic
    excess [w] costs at least [(sqrt 2 - 1) * sqrt c]. *)
Lemma escape_burn_bound (c w : R) :
  0 < c ->
  (sqrt 2 - 1) * sqrt c <= sqrt (sqrt (2 * c) * sqrt (2 * c) + w * w) - sqrt c
  /\ 0 < sqrt (sqrt (2 * c) * sqrt (2 * c) + w * w) - sqrt c.
Proof.
  intros Hc.
  assert (Hsc : 0 < sqrt c) by now apply sqrt_lt_R0.
  assert (H2c : sqrt (2 * c) * sqrt (2 * c) = 2 * c) by (apply sqrt_sqrt; lra).
  assert (Hmono : sqrt (2 * c) <= sqrt (sqrt (2 * c) * sqrt (2 * c) + w * w)).
  { apply sqrt_le_1; [lra | | ]; rewrite H2c; pose proof (Rle_0_sqr w) as Hw;
      unfold Rsqr in Hw; lra. }
  assert (Hprod : sqrt (2 * c) = sqrt 2 * sqrt c) by (apply sqrt_mult; lra).
  pose proof sqrt2_gt_1 as H2.
  split; [lra | nra].
Qed.

(** The plan of the Hohmann calculator for two bodies of the simulation with
    positive data. *)
Lemma planner_hohmann_plan
    (bodies : list (string * Body.t)) (dep arr : string) (depAlt arrAlt : num)
    (depBody arrBody : Body.t) (depData arrData : Body.Data)
    (a1 a2 R1 R2 g1 g2 : R) :
  Subsystems.bodies_get bodies dep = Some depBody ->
  Subsystems.bodies_get bodies arr = Some arrBody ->
  Body.data depBody = Some depData ->
  Body.data arrBody = Some arrData ->
  Body.field_or (Body.semiMajorAxis depData) 1 = Fin a1 ->
  Body.field_or (Body.semiMajorAxis arrData) (Fin (15 / 10)) = Fin a2 ->
  (Body.field_or (Body.radius depData) 6371 + depAlt)%num = Fin R1 ->
  (Body.field_or (Body.radius arrData) 3390 + arrAlt)%num = Fin R2 ->
  GRAVITATIONAL_PARAMETERS dep = Own (Fin g1) ->
  GRAVITATIONAL_PARAMETERS arr = Own (Fin g2) ->
  0 < a1 -> 0 < a2 -> 0 < R1 -> 0 < R2 -> 0 < g1 -> 0 < g2 ->
  exists L A T : R,
    calculateHohmannTransfer bodies dep arr depAlt arrAlt
    = Returns
        (Some
           (mkPlan (mkBudget (Fin L) (Fin A) (Fin (L + A))) (Fin T)
                   [mkManoeuvre 0 (dep ++ " orbit") (Fin L) "Prograde";
                    mkManoeuvre (Fin T) (arr ++ " orbit") (Fin A) "Retrograde"]
                   None))
    /\ (sqrt 2 - 1) * sqrt (g1 / 1000000000 / R1) <= L
    /\ (sqrt 2 - 1) * sqrt (g2 / 1000000000 / R2) <= A
    /\ 0 < L /\ 0 < A /\ 0 < T.
Proof.
  intros Hdep Harr Hd1 Hd2 Ha1 Ha2 HR1 HR2 Hg1 Hg2 P1 P2 P3 P4 P5 P6.
  pose proof mu_sun_pos as Hmu. pose proof PI_RGT_0 as Hpi.
  unfold calculateHohmannTransfer.
  rewrite Hdep, Harr, Hd1, Hd2. cbv zeta.
  rewrite Ha1, Ha2, HR1, HR2, Hg1, Hg2, !mu_sun_Fin.
  unfold toNumber, AU_TO_KM, SECONDS_PER_DAY, Math_PI.
  set (r1 := a1 * AU). set (r2 := a2 * AU).
  assert (Hr1 : 0 < r1) by (unfold r1; lra).
  assert (Hr2 : 0 < r2) by (unfold r2; lra).
  rewrite !mul_Fin. fold r1 r2. rewrite !add_Fin.
  set (at_ := (r1 + r2) / 2).
  assert (Hat : 0 < at_) by (unfold at_; lra).
  rewrite !(div_Fin (r1 + r2)) by lra. fold at_.
  set (m1 := g1 / 1000000000). set (m2 := g2 / 1000000000).
  assert (Hm1 : 0 < m1) by (unfold m1; lra).
  assert (Hm2 : 0 < m2) by (unfold m2; lra).
  rewrite !(div_Fin g1), !(div_Fin g2) by lra. fold m1 m2.
  rewrite !(div_Fin mu_sun) by lra.
  rewrite !(div_Fin 2), !(div_Fin 1) by lra. rewrite !sub_Fin, !mul_Fin.
  assert (F1 : 0 < mu_sun / r1) by (apply Rdiv_lt_0_compat; lra).
  assert (F2 : 0 < mu_sun / r2) by (apply Rdiv_lt_0_compat; lra).
  assert (F3 : 0 <= mu_sun * (2 / r1 - 1 / at_)).
  { apply Rmult_le_pos; [lra | ].
    replace (2 / r1 - 1 / at_) with (2 * r2 / (r1 * (r1 + r2)))
      by (unfold at_; field; lra).
    apply Rlt_le, Rdiv_lt_0_compat; nra. }
  assert (F4 : 0 <= mu_sun * (2 / r2 - 1 / at_)).
  { apply Rmult_le_pos; [lra | ].
    replace (2 / r2 - 1 / at_) with (2 * r1 / (r2 * (r1 + r2)))
      by (unfold at_; field; lra).
    apply Rlt_le, Rdiv_lt_0_compat; nra. }
  rewrite !(sqrt_Fin (Rlt_le _ _ F1)), !(sqrt_Fin (Rlt_le _ _ F2)).
  rewrite !(sqrt_Fin F3), !(sqrt_Fin F4). rewrite !sub_Fin, !abs_Fin.
  set (w1 := Rabs (sqrt (mu_sun * (2 / r1 - 1 / at_)) - sqrt (mu_sun / r1))).
  set (w2 := Rabs (sqrt (mu_sun / r2) - sqrt (mu_sun * (2 / r2 - 1 / at_)))).
  rewrite !(div_Fin (2 * m1)), !(div_Fin (2 * m2)) by lra.
  rewrite !(div_Fin m1), !(div_Fin m2) by lra.
  assert (E1 : 2 * m1 / R1 = 2 * (m1 / R1)) by (field; lra).
  assert (E2 : 2 * m2 / R2 = 2 * (m2 / R2)) by (field; lra).
  rewrite E1, E2.
  set (c1 := m1 / R1). set (c2 := m2 / R2).
  assert (Hc1 : 0 < c1) by (apply Rdiv_lt_0_compat; lra).
  assert (Hc2 : 0 < c2) by (apply Rdiv_lt_0_compat; lra).
  rewrite !(sqrt_Fin (a := 2 * c1)), !(sqrt_Fin (a := 2 * c2)) by lra.
  rewrite !(sqrt_Fin (a := c1)), !(sqrt_Fin (a := c2)) by lra.
  rewrite !mul_Fin, !add_Fin.
  assert (S1 : 0 <= sqrt (2 * c1) * sqrt (2 * c1) + w1 * w1).
  { rewrite sqrt_sqrt by lra. pose proof (Rle_0_sqr w1) as H. unfold Rsqr in H. lra. }
  assert (S2 : 0 <= sqrt (2 * c2) * sqrt (2 * c2) + w2 * w2).
  { rewrite sqrt_sqrt by lra. pose proof (Rle_0_sqr w2) as H. unfold Rsqr in H. lra. }
  rewrite !(sqrt_Fin S1), !(sqrt_Fin S2), !sub_Fin, !add_Fin.
  rewrite pow3_Fin. rewrite !(div_Fin (at_ * (at_ * at_))) by lra.
  assert (F5 : 0 < at_ * (at_ * at_) / mu_sun).
  { apply Rdiv_lt_0_compat; [ | lra]. apply Rmult_lt_0_compat; [lra | nra]. }
  rewrite !(sqrt_Fin (Rlt_le _ _ F5)), !mul_Fin.
  rewrite !(div_Fin (PI * sqrt (at_ * (at_ * at_) / mu_sun))) by lra.
  destruct (escape_burn_bound w1 Hc1) as [B1 B1'].
  destruct (escape_burn_bound w2 Hc2) as [B2 B2'].
  do 3 eexists. split; [reflexivity | ].
  repeat split; try assumption.
  apply Rdiv_lt_0_compat; [ | lra].
  apply Rmult_lt_0_compat; [lra | now apply sqrt_lt_R0].
Qed.

(** X19: the planner's Hohmann transfer is never free.  For two bodies of the
    simulation (possibly the same one) with positive orbital radii, positive
    parking-orbit radii and gravitational parameters from the table, the plan
    has a launch burn of at least [(sqrt 2 - 1)] times the circular speed of
    the departure parking orbit and a capture burn of at least [(sqrt 2 - 1)]
    times that of the arrival parking orbit; its total is their sum and its
    transfer time is positive. *)
Theorem planner_hohmann_costs_at_least_the_escape_burns
    (bodies : list (string * Body.t)) (dep arr : string) (depAlt arrAlt : num)
    (depBody arrBody : Body.t) (depData arrData : Body.Data)
    (a1 a2 R1 R2 g1 g2 : R) :
  Subsystems.bodies_get bodies dep = Some depBody ->
  Subsystems.bodies_get bodies arr = Some arrBody ->
  Body.data depBody = Some depData ->
  Body.data arrBody = Some arrData ->
  Body.field_or (Body.semiMajorAxis depData) 1 = Fin a1 ->
  Body.field_or (Body.semiMajorAxis arrData) (Fin (15 / 10)) = Fin a2 ->
  (Body.field_or (Body.radius depData) 6371 + depAlt)%num = Fin R1 ->
  (Body.field_or (Body.radius arrData) 3390 + arrAlt)%num = Fin R2 ->
  GRAVITATIONAL_PARAMETERS dep = Own (Fin g1) ->
  GRAVITATIONAL_PARAMETERS arr = Own (Fin g2) ->
  0 < a1 -> 0 < a2 -> 0 < R1 -> 0 < R2 -> 0 < g1 -> 0 < g2 ->
  exists L A T : R,
    calculateHohmannTransfer bodies dep arr depAlt arrAlt
    = Returns
        (Some
           (mkPlan (mkBudget (Fin L) (Fin A) (Fin (L + A))) (Fin T)
                   [mkManoeuvre 0 (dep ++ " orbit") (Fin L) "Prograde";
                    mkManoeuvre (Fin T) (arr ++ " orbit") (Fin A) "Retrograde"]
                   None))
    /\ (sqrt 2 - 1) * sqrt (g1 / 1000000000 / R1) <= L
    /\ (sqrt 2 - 1) * sqrt (g2 / 1000000000 / R2) <= A
    /\ 0 < L /\ 0 < A /\ 0 < T.
Proof. exact (@planner_hohmann_plan bodies dep arr depAlt arrAlt depBody arrBody
                depData arrData a1 a2 R1 R2 g1 g2). Qed.

(** Two bodies for the examples: the Earth and Mars of the table of planets,
    at the origin. *)
Local Abbreviation earthBody :=
  (Body.mk (Some (Body.mkData (Some (Fin 5972000000000000000000000)) (Some (Fin 1))
                              (Some (Fin 6371))))
           (Some (fin3 0 0 0)) None None) (only parsing).

Local Abbreviation marsBody :=
  (Body.mk (Some (Body.mkData (Some (Fin 641700000000000000000000))
                              (Some (Fin (1524 / 1000)))
                              (Some (Fin (33895 / 10)))))
           (Some (fin3 0 0 0)) None None) (only parsing).

Local Abbreviation twoBodies :=
  [("earth"%string, earthBody); ("mars"%string, marsBody)] (only parsing).

Lemma planner_hohmann_witness :
  exists L A T : R,
    calculateHohmannTransfer twoBodies "earth" "mars" (Fin 200) (Fin 300)
    = Returns
        (Some
           (mkPlan (mkBudget (Fin L) (Fin A) (Fin (L + A))) (Fin T)
                   [mkManoeuvre 0 ("earth" ++ " orbit") (Fin L) "Prograde";
                    mkManoeuvre (Fin T) ("mars" ++ " orbit") (Fin A) "Retrograde"]
                   None))
    /\ (sqrt 2 - 1) * sqrt (398600441800000 / 1000000000 / (6371 + 200)) <= L
    /\ (sqrt 2 - 1) * sqrt (42828370000000 / 1000000000 / (33895 / 10 + 300)) <= A
    /\ 0 < L /\ 0 < A /\ 0 < T.
Proof.
  apply (@planner_hohmann_costs_at_least_the_escape_burns
           twoBodies "earth" "mars" (Fin 200) (Fin 300) earthBody marsBody
           (Body.mkData (Some (Fin 5972000000000000000000000)) (Some (Fin 1))
                        (Some (Fin 6371)))
           (Body.mkData (Some (Fin 641700000000000000000000))
                        (Some (Fin (1524 / 1000))) (Some (Fin (33895 / 10))))
           1 (1524 / 1000) (6371 + 200) (33895 / 10 + 300)
           398600441800000 42828370000000);
    try reflexivity; try lra;
    unfold Body.field_or, or_else, truthy; simpl;
    rewrite Reqb_false by lra; reflexivity.
Defined.

(** X20: in a direct transfer the arrival burn is planned after the arrival.
    [calculateDirectTransfer] multiplies every delta-v of the Hohmann plan by
    1.3 and its transfer time by 0.6, but keeps the times of its manoeuvres:
    under the conditions of the Hohmann plan, the plan it returns has
    [transferTime = 0.6 * T] while its second manoeuvre, the capture burn, is
    at the Hohmann time [T > 0.6 * T]. *)
Theorem direct_transfer_keeps_the_hohmann_arrival_time
    (bodies : list (string * Body.t)) (dep arr : string) (depAlt arrAlt : num)
    (depBody arrBody : Body.t) (depData arrData : Body.Data)
    (a1 a2 R1 R2 g1 g2 : R) :
  Subsystems.bodies_get bodies dep = Some depBody ->
  Subsystems.bodies_get bodies arr = Some arrBody ->
  Body.data depBody = Some depData ->
  Body.data arrBody = Some arrData ->
  Body.field_or (Body.semiMajorAxis depData) 1 = Fin a1 ->
  Body.field_or (Body.semiMajorAxis arrData) (Fin (15 / 10)) = Fin a2 ->
  (Body.field_or (Body.radius depData) 6371 + depAlt)%num = Fin R1 ->
  (Body.field_or (Body.radius arrData) 3390 + arrAlt)%num = Fin R2 ->
  GRAVITATIONAL_PARAMETERS dep = Own (Fin g1) ->
  GRAVITATIONAL_PARAMETERS arr = Own (Fin g2) ->
  0 < a1 -> 0 < a2 -> 0 < R1 -> 0 < R2 -> 0 < g1 -> 0 < g2 ->
  exists L A T : R,
    calculateDirectTransfer bodies dep arr depAlt arrAlt
    = Returns
        (mkPlan (mkBudget (Fin (L * (13 / 10))) (Fin (A * (13 / 10)))
                          (Fin ((L + A) * (13 / 10))))
                (Fin (T * (6 / 10)))
                [mkManoeuvre 0 (dep ++ " orbit") (Fin (L * (13 / 10))) "Prograde";
                 mkManoeuvre (Fin T) (arr ++ " orbit") (Fin (A * (13 / 10)))
                             "Retrograde"]
                None)
    /\ T * (6 / 10) < T.
Proof.
  intros Hdep Harr Hd1 Hd2 Ha1 Ha2 HR1 HR2 Hg1 Hg2 P1 P2 P3 P4 P5 P6.
  destruct (@planner_hohmann_plan bodies dep arr depAlt arrAlt depBody arrBody
              depData arrData a1 a2 R1 R2 g1 g2 Hdep Harr Hd1 Hd2 Ha1 Ha2 HR1 HR2
              Hg1 Hg2 P1 P2 P3 P4 P5 P6)
    as (L & A & T & Hplan & _ & _ & _ & _ & HT).
  exists L, A, T. unfold calculateDirectTransfer. rewrite Hplan. simpl.
  split; [reflexivity | lra].
Qed.

Lemma direct_transfer_witness :
  exists L A T : R,
    calculateDirectTransfer twoBodies "earth" "mars" (Fin 200) (Fin 300)
    = Returns
        (mkPlan (mkBudget (Fin (L * (13 / 10))) (Fin (A * (13 / 10)))
                          (Fin ((L + A) * (13 / 10))))
                (Fin (T * (6 / 10)))
                [mkManoeuvre 0 ("earth" ++ " orbit") (Fin (L * (13 / 10))) "Prograde";
                 mkManoeuvre (Fin T) ("mars" ++ " orbit") (Fin (A * (13 / 10)))
                             "Retrograde"]
                None)
    /\ T * (6 / 10) < T.
Proof.
  apply (@direct_transfer_keeps_the_hohmann_arrival_time
           twoBodies "earth" "mars" (Fin 200) (Fin 300) earthBody marsBody
           (Body.mkData (Some (Fin 5972000000000000000000000)) (Some (Fin 1))
                        (Some (Fin 6371)))
           (Body.mkData (Some (Fin 641700000000000000000000))
                        (Some (Fin (1524 / 1000))) (Some (Fin (33895 / 10))))
           1 (1524 / 1000) (6371 + 200) (33895 / 10 + 300)
           398600441800000 42828370000000);
    try reflexivity; try lra;
    unfold Body.field_or, or_else, truthy; simpl;
    rewrite Reqb_false by lra; reflexivity.
Defined.

(** X21: a body the simulation does not have makes the Hohmann calculator
    return [null] and the two others throw.  When the departure or the
    arrival body is not in the map of bodies, [calculateHohmannTransfer]
    returns [null], which [calculateDirectTransfer] and, with at least one
    fly-by ticked, [calculateGravityAssist] dereference: they throw instead of
    returning. *)
Theorem unknown_body_gives_null_or_throws
    (bodies : list (string * Body.t)) (dep arr : string) (depAlt arrAlt : num)
    (flyby : string) (flybys : list string) :
  (Subsystems.bodies_get bodies dep = None -> 
   calculateHohmannTransfer bodies dep arr depAlt arrAlt = Returns None
   /\ calculateDirectTransfer bodies dep arr depAlt arrAlt = Throws
   /\ calculateGravityAssist bodies [] dep arr depAlt arrAlt = Returns None
   /\ calculateGravityAssist bodies (flyby :: flybys) dep arr depAlt arrAlt = Throws)
  /\ (Subsystems.bodies_get bodies arr = None ->
      calculateHohmannTransfer bodies dep arr depAlt arrAlt = Returns None
      /\ calculateDirectTransfer bodies dep arr depAlt arrAlt = Throws
      /\ calculateGravityAssist bodies [] dep arr depAlt arrAlt = Returns None
      /\ calculateGravityAssist bodies (flyby :: flybys) dep arr depAlt arrAlt
         = Throws).
Proof.
  assert (Hnull : Subsystems.bodies_get bodies dep = None
                  \/ Subsystems.bodies_get bodies arr = None ->
                  calculateHohmannTransfer bodies dep arr depAlt arrAlt = Returns None).
  { unfold calculateHohmannTransfer. intros [-> | ->]; [reflexivity | ].
    destruct (Subsystems.bodies_get bodies dep); reflexivity. }
  split; intros H;
    (assert (Hh : calculateHohmannTransfer bodies dep arr depAlt arrAlt = Returns None)
       by (apply Hnull; auto));
    unfold calculateDirectTransfer, calculateGravityAssist; rewrite Hh;
    repeat split.
Qed.

Lemma unknown_body_witness :
  calculateDirectTransfer twoBodies "pluto" "mars" (Fin 200) (Fin 300) = Throws.
Proof.
  exact (proj1 (proj2 (proj1 (unknown_body_gives_null_or_throws
           twoBodies "pluto" "mars" (Fin 200) (Fin 300) "venus" []) eq_refl))).
Defined.

Lemma Math_pow_Fin (a : R) (n : nat) : Math_pow (Fin a) (S n) = Fin (a ^ S n).
Proof.
  induction n as [ | n IH].
  - unfold Math_pow. f_equal. simpl. ring.
  - change (Math_pow (Fin a) (S (S n))) with (Fin a * Math_pow (Fin a) (S n))%num.
    rewrite IH, mul_Fin. reflexivity.
Qed.

Lemma planDeltaV_flybys (transferTime : num) (index : nat) (flybys : list string)
    (rest : list Manoeuvre) (x : R) :
  planDeltaV rest = Fin x ->
  planDeltaV (flybyManoeuvres transferTime index flybys ++ rest)
  = Fin (5 / 10 * INR (List.length flybys) + x).
Proof.
  intros Hrest. revert index.
  induction flybys as [ | body flybys IH]; intros index.
  - simpl. rewrite Hrest. f_equal. ring.
  - change (planDeltaV (flybyManoeuvres transferTime index (body :: flybys) ++ rest))
      with (Fin (5 / 10)
            + planDeltaV (flybyManoeuvres transferTime (S index) flybys ++ rest))%num.
    rewrite IH, add_Fin. f_equal.
    change (List.length (body :: flybys)) with (S (List.length flybys)).
    rewrite S_INR. ring.
Qed.

(** X22: the total of a plan is the sum of its manoeuvres, and each fly-by
    trades a fifth of the burns for half a km/s.  Under the conditions of the
    Hohmann plan, with launch burn [L], capture burn [A] and time [T]: the
    total delta-v of the Hohmann plan and of the direct plan is the sum of the
    delta-v of their manoeuvres; and with [n >= 1] fly-bys the
    gravity-assist plan has launch [L * 0.8^n], arrival [A * 0.8^n], total
    [(L + A) * 0.8^n + 0.5 * n], again the sum of its [n + 2] manoeuvres, and
    transfer time [T * (1 + 0.5 * n)]. *)
Theorem plan_total_is_the_sum_of_its_manoeuvres
    (bodies : list (string * Body.t)) (dep arr : string) (depAlt arrAlt : num)
    (depBody arrBody : Body.t) (depData arrData : Body.Data)
    (a1 a2 R1 R2 g1 g2 : R) (flyby : string) (more : list string) :
  Subsystems.bodies_get bodies dep = Some depBody ->
  Subsystems.bodies_get bodies arr = Some arrBody ->
  Body.data depBody = Some depData ->
  Body.data arrBody = Some arrData ->
  Body.field_or (Body.semiMajorAxis depData) 1 = Fin a1 ->
  Body.field_or (Body.semiMajorAxis arrData) (Fin (15 / 10)) = Fin a2 ->
  (Body.field_or (Body.radius depData) 6371 + depAlt)%num = Fin R1 ->
  (Body.field_or (Body.radius arrData) 3390 + arrAlt)%num = Fin R2 ->
  GRAVITATIONAL_PARAMETERS dep = Own (Fin g1) ->
  GRAVITATIONAL_PARAMETERS arr = Own (Fin g2) ->
  0 < a1 -> 0 < a2 -> 0 < R1 -> 0 < R2 -> 0 < g1 -> 0 < g2 ->
  let n := List.length (flyby :: more) in
  exists (L A T : R) (hohmann direct assisted : Plan),
    calculateHohmannTransfer bodies dep arr depAlt arrAlt = Returns (Some hohmann)
    /\ calculateDirectTransfer bodies dep arr depAlt arrAlt = Returns direct
    /\ calculateGravityAssist bodies (flyby :: more) dep arr depAlt arrAlt
       = Returns (Some assisted)
    /\ budget hohmann = mkBudget (Fin L) (Fin A) (Fin (L + A))
    /\ transferTime hohmann = Fin T
    /\ planDeltaV (maneuvers hohmann) = total (budget hohmann)
    /\ planDeltaV (maneuvers direct) = total (budget direct)
    /\ budget assisted
       = mkBudget (Fin (L * (8 / 10) ^ n)) (Fin (A * (8 / 10) ^ n))
                  (Fin ((L + A) * (8 / 10) ^ n + 5 / 10 * INR n))
    /\ planDeltaV (maneuvers assisted) = total (budget assisted)
    /\ List.length (maneuvers assisted) = (n + 2)%nat
    /\ transferTime assisted = Fin (T * (1 + INR n * (5 / 10)))
    /\ flybys assisted = Some (flyby :: more).
Proof.
  intros Hdep Harr Hd1 Hd2 Ha1 Ha2 HR1 HR2 Hg1 Hg2 P1 P2 P3 P4 P5 P6 n.
  destruct (@planner_hohmann_plan bodies dep arr depAlt arrAlt depBody arrBody
              depData arrData a1 a2 R1 R2 g1 g2 Hdep Harr Hd1 Hd2 Ha1 Ha2 HR1 HR2
              Hg1 Hg2 P1 P2 P3 P4 P5 P6)
    as (L & A & T & Hplan & _).
  exists L, A, T. unfold calculateDirectTransfer, calculateGravityAssist.
  rewrite Hplan. do 3 eexists.
  split; [reflexivity | ]. split; [reflexivity | ]. split; [reflexivity | ].
  cbn [budget transferTime maneuvers flybys launch arrival total map time location
       deltaV direction].
  subst n. change (List.length (flyby :: more)) with (S (List.length more)).
  rewrite Math_pow_Fin. set (n := S (List.length more)).
  autorewrite with num_fin.
  split; [reflexivity | ]. split; [reflexivity | ].
  split; [unfold planDeltaV; simpl; rewrite !add_Fin; f_equal; ring | ].
  split; [unfold planDeltaV; simpl; rewrite !add_Fin; f_equal; ring | ].
  split; [do 2 f_equal; ring | ].
  split.
  - change (planDeltaV
              ([mkManoeuvre 0 (dep ++ " orbit") (Fin (L * (8 / 10) ^ n)) "Prograde"]
               ++ flybyManoeuvres (Fin T) 0 (flyby :: more)
               ++ [mkManoeuvre (Fin (T * (1 + INR n * (5 / 10)))) (arr ++ " orbit")
                               (Fin (A * (8 / 10) ^ n)) "Retrograde"]))
      with (Fin (L * (8 / 10) ^ n)
            + planDeltaV
                (flybyManoeuvres (Fin T) 0 (flyby :: more)
                 ++ [mkManoeuvre (Fin (T * (1 + INR n * (5 / 10)))) (arr ++ " orbit")
                                 (Fin (A * (8 / 10) ^ n)) "Retrograde"]))%num.
    rewrite (@planDeltaV_flybys (Fin T) 0 (flyby :: more) _ (A * (8 / 10) ^ n + 0))
      by reflexivity.
    change (List.length (flyby :: more)) with n. rewrite add_Fin. f_equal. ring.
  - split; [ | split; reflexivity].
    rewrite !length_app. simpl.
    assert (Hlen : forall T' k fl, List.length (flybyManoeuvres T' k fl)
                                   = List.length fl).
    { intros T' k fl. revert k. induction fl as [ | b fl IH]; intros k; simpl;
        [reflexivity | now rewrite IH]. }
    rewrite Hlen. unfold n. simpl. lia.
Qed.

Lemma plan_total_witness :
  exists (L A T : R) (hohmann direct assisted : Plan),
    calculateHohmannTransfer twoBodies "earth" "mars" (Fin 200) (Fin 300)
    = Returns (Some hohmann)
    /\ calculateDirectTransfer twoBodies "earth" "mars" (Fin 200) (Fin 300)
       = Returns direct
    /\ calculateGravityAssist twoBodies ["venus"%string] "earth" "mars" (Fin 200)
                              (Fin 300)
       = Returns (Some assisted)
    /\ budget hohmann = mkBudget (Fin L) (Fin A) (Fin (L + A))
    /\ transferTime hohmann = Fin T
    /\ planDeltaV (maneuvers hohmann) = total (budget hohmann)
    /\ planDeltaV (maneuvers direct) = total (budget direct)
    /\ budget assisted
       = mkBudget (Fin (L * (8 / 10) ^ 1)) (Fin (A * (8 / 10) ^ 1))
                  (Fin ((L + A) * (8 / 10) ^ 1 + 5 / 10 * INR 1))
    /\ planDeltaV (maneuvers assisted) = total (budget assisted)
    /\ List.length (maneuvers assisted) = (1 + 2)%nat
    /\ transferTime assisted = Fin (T * (1 + INR 1 * (5 / 10)))
    /\ flybys assisted = Some ["venus"%string].
Proof.
  apply (@plan_total_is_the_sum_of_its_manoeuvres
           twoBodies "earth" "mars" (Fin 200) (Fin 300) earthBody marsBody
           (Body.mkData (Some (Fin 5972000000000000000000000)) (Some (Fin 1))
                        (Some (Fin 6371)))
           (Body.mkData (Some (Fin 641700000000000000000000))
                        (Some (Fin (1524 / 1000))) (Some (Fin (33895 / 10))))
           1 (1524 / 1000) (6371 + 200) (33895 / 10 + 300)
           398600441800000 42828370000000 "venus" []);
    try reflexivity; try lra;
    unfold Body.field_or, or_else, truthy; simpl;
    rewrite Reqb_false by lra; reflexivity.
Defined.

End TransferPlans.

(** ** The ignition budget (SpacecraftSystems.executeBurn, in sequence) *)

Section IgnitionBudget.

Import SpacecraftSystems.
Local Open Scope R_scope.

Lemma executeBurn_step (s : t) (deltaV : DeltaV) (duration spacecraftMass : num) :
  let r := executeBurn s deltaV duration spacecraftMass in
  (success (fst r) = false /\ snd r = s)
  \/ (success (fst r) = true
      /\ (ignitionsUsed (main s) >=? ignitions (main s))%num = false
      /\ fuel (main (snd r)) = fuel (main s)
      /\ ignitions (main (snd r)) = ignitions (main s)
      /\ ignitionsUsed (main (snd r)) = (ignitionsUsed (main s) + 1)%num).
Proof.
  unfold executeBurn. cbv zeta.
  destruct (_ >=? _)%num eqn:Hign; [left; split; reflexivity | ].
  destruct (_ >? _)%num; [left; split; reflexivity | ].
  destruct (_ <? _)%num; [left; split; reflexivity | ].
  right. repeat split.
Qed.

Lemma burns_budget (calls : list BurnCall) (s : t) (N k : nat) :
  ignitions (main s) = Fin (INR N) ->
  ignitionsUsed (main s) = Fin (INR k) ->
  (k <= N)%nat ->
  let r := burns s calls in
  (k + successes (fst r) <= N)%nat
  /\ ignitionsUsed (main (snd r)) = Fin (INR (k + successes (fst r)))
  /\ fuel (main (snd r)) = fuel (main s).
Proof.
  revert s k. induction calls as [ | call calls IH]; intros s k HN Hk Hle.
  - simpl. rewrite Nat.add_0_r. repeat split; assumption.
  - cbv zeta. simpl burns.
    destruct (executeBurn_step s (call_deltaV call) (call_duration call)
                (call_mass call)) as [[Hfail Hsame] | (Hok & Hign & Hfuel & Hmax & Hused)];
      cbv zeta in *;
      destruct (executeBurn s (call_deltaV call) (call_duration call) (call_mass call))
        as [result s'];
      simpl in *.
    + subst s'. specialize (IH s k HN Hk Hle). cbv zeta in IH.
      destruct (burns s calls) as [results final]. simpl in *.
      unfold successes in *. simpl. rewrite Hfail. exact IH.
    + rewrite HN, Hk, ge_Fin in Hign.
      assert (Hlt : (k < N)%nat).
      { unfold Rleb in Hign. destruct (Rle_dec (INR N) (INR k)); [discriminate | ].
        apply INR_lt. lra. }
      assert (Hk' : ignitionsUsed (main s') = Fin (INR (S k))).
      { rewrite Hused, Hk, add_Fin, S_INR. reflexivity. }
      rewrite <- Hmax in HN.
      specialize (IH s' (S k) HN Hk' Hlt). cbv zeta in IH.
      destruct (burns s' calls) as [results final]. simpl in *.
      unfold successes in *. simpl. rewrite Hok. simpl.
      rewrite Nat.add_succ_r. rewrite <- Hfuel. exact IH.
Qed.

(** X23: ignitions are rationed, propellant is not.  For a main engine with [N]
    ignitions, none used yet, and any sequence of calls of [executeBurn]
    whatever their arguments: at most [N] of them succeed, [ignitionsUsed]
    ends at the number that succeeded, and the propellant of the main engine
    is the same after the sequence as before it: a burn that succeeds reports
    the fuel it needs but does not take it from the tank. *)
Theorem ignitions_are_rationed_and_fuel_is_not
    (s : t) (calls : list BurnCall) (N : nat) :
  ignitions (main s) = Fin (INR N) ->
  ignitionsUsed (main s) = Fin 0 ->
  (successes (fst (burns s calls)) <= N)%nat
  /\ ignitionsUsed (main (snd (burns s calls)))
     = Fin (INR (successes (fst (burns s calls))))
  /\ fuel (main (snd (burns s calls))) = fuel (main s).
Proof.
  intros HN Hused.
  exact (@burns_budget calls s N 0 HN Hused (Nat.le_0_l N)).
Qed.

Lemma ignitions_are_rationed_witness :
  (successes
     (fst (burns initial [mkBurnCall (Magnitude (Fin 0)) (Fin 10) (Fin 1000);
                          mkBurnCall (Magnitude (Fin 0)) (Fin 10) (Fin 1000)]))
   <= 10)%nat.
Proof.
  apply (@ignitions_are_rationed_and_fuel_is_not initial
           [mkBurnCall (Magnitude (Fin 0)) (Fin 10) (Fin 1000);
            mkBurnCall (Magnitude (Fin 0)) (Fin 10) (Fin 1000)] 10).
  - simpl. f_equal. simpl. lra.
  - reflexivity.
Defined.

End IgnitionBudget.

(** ** Warnings, status and link (checkSystemConstraints, getThermalStatus,
       updateCommunications) *)

Section WarningsAndLink.

Import Subsystems.
Local Open Scope R_scope.

(** X24: the warnings agree with the thermal status and with the attitude
    controller.  [checkSystemConstraints] lists a thermal violation exactly
    when [getThermalStatus] is COLD or HOT; and for reaction wheels with a
    finite momentum and a positive [maxMomentum], whenever it lists the
    wheels as saturating, [applyTorque] no longer adds momentum but
    desaturates them. *)
Theorem warnings_agree_with_status_and_controller (s : t) :
  ((exists celsius : num, In (THERMAL_VIOLATION celsius) (checkSystemConstraints s))
   <-> (getThermalStatus s = "COLD"%string \/ getThermalStatus s = "HOT"%string))
  /\ (forall (cap mx my mz : R) (torque : Vector3.t) (dt : num),
        SpacecraftSystems.maxMomentum
          (SpacecraftSystems.reactionWheels (SpacecraftSystems.attitude (core s)))
        = Fin cap ->
        0 < cap ->
        SpacecraftSystems.momentum
          (SpacecraftSystems.reactionWheels (SpacecraftSystems.attitude (core s)))
        = fin3 mx my mz ->
        (exists percent : num,
           In (REACTION_WHEELS_SATURATING percent) (checkSystemConstraints s)) ->
        SpacecraftSystems.applyTorque (core s) torque dt
        = SpacecraftSystems.desaturateReactionWheels (core s) dt).
Proof.
  split.
  - unfold checkSystemConstraints, getThermalStatus. cbv zeta.
    destruct (internalTemp (thermal s) <? min (limits (thermal s)))%num;
      destruct (internalTemp (thermal s) >? max (limits (thermal s)))%num;
      cbn [orb];
      repeat match goal with
             | |- context [if ?b then _ else _] => destruct b
             end;
      simpl; split;
      try (intros _; eexists; simpl; tauto);
      try (intros [H | H]; discriminate H);
      try (intros (celsius & H); simpl in H; intuition discriminate).
  - intros cap mx my mz torque dt Hcap Hcap0 Hm (percent & Hin).
    apply applyTorque_at_threshold. unfold wheelMomentum, wheelCap.
    rewrite Hcap, Hm, length_fin3, mul_Fin, lt_Fin.
    assert (Hsat : (Vector3.length
                      (SpacecraftSystems.momentum
                         (SpacecraftSystems.reactionWheels
                            (SpacecraftSystems.attitude (core s))))
                    / SpacecraftSystems.maxMomentum
                        (SpacecraftSystems.reactionWheels
                           (SpacecraftSystems.attitude (core s)))
                    >? Fin (8 / 10))%num = true).
    { revert Hin. unfold checkSystemConstraints. cbv zeta.
      match goal with
      | |- context [if (?q >? Fin (8 / 10))%num then _ else _] =>
          destruct (q >? Fin (8 / 10))%num; [reflexivity | ]
      end.
      repeat match goal with
             | |- context [if ?b then _ else _] => destruct b
             end;
        simpl; intuition discriminate. }
    rewrite Hcap, Hm, length_fin3 in Hsat. rewrite div_Fin in Hsat by lra.
    rewrite gt_Fin in Hsat. unfold Rltb in Hsat.
    destruct (Rlt_dec (8 / 10) (norm3 mx my mz / cap)) as [Hgt | ]; [ | discriminate].
    apply Rltb_false.
    assert (Hmul : 8 / 10 * cap < norm3 mx my mz).
    { apply Rmult_lt_compat_r with (r := cap) in Hgt; [ | exact Hcap0].
      unfold Rdiv in Hgt at 2. rewrite Rmult_assoc, Rinv_l in Hgt by lra. lra. }
    lra.
Qed.

Lemma warnings_agree_witness :
  let spun :=
    Manoeuvres.set_core (create Config.empty)
      (SpacecraftSystems.set_attitude SpacecraftSystems.initial
         (SpacecraftSystems.mkAttitude Quaternion.identity Vector3.zero
            (SpacecraftSystems.mkWheels (fin3 45 0 0) 50) 50)) in
  SpacecraftSystems.applyTorque (core spun) (fin3 1 0 0) (Fin 1)
  = SpacecraftSystems.desaturateReactionWheels (core spun) (Fin 1).
Proof.
  intros spun.
  assert (Hn : norm3 45 0 0 = 45) by (apply norm3_axis; lra).
  apply (proj2 (warnings_agree_with_status_and_controller spun) 50 45 0 0);
    try reflexivity; try lra.
  exists (Fin (45 / 50 * 100)).
  unfold checkSystemConstraints. cbv zeta.
  change (SpacecraftSystems.momentum _) with (fin3 45 0 0).
  rewrite length_fin3, Hn. simpl.
  fin_arith. rewrite !Rltb_false by lra. rewrite Rltb_true by lra.
  simpl. rewrite !Rltb_false by lra. simpl. auto.
Defined.

Lemma pow2_Fin (a : R) : Math_pow (Fin a) 2 = Fin (a * a).
Proof. reflexivity. Qed.

Lemma ln_2_pos : 0 < ln 2.
Proof. rewrite <- ln_1. apply ln_increasing; lra. Qed.

(** The data rate [updateCommunications] computes at a positive distance. *)
Lemma dataRate_at_distance (s : t) (P D f d : R) :
  transmitPower (comms s) = Fin P ->
  dishDiameter (comms s) = Fin D ->
  frequency (comms s) = Fin f ->
  earthDistance (comms s) = Fin d ->
  0 < f -> 0 < d ->
  let y := 4 * PI * (d * (1495978707 / 10)) * f / 300000000 in
  dataRate (comms (updateCommunications s))
  = Fin (20000 * (ln (1 + P * (D * D) * 4900 / (y * y)
                          / (1 / 100000000000000000000)) / ln 2))
    \/ (P * (D * D) * 4900 / (y * y) / (1 / 100000000000000000000) <= -1).
Proof.
  intros HP HD Hf Hd Hf0 Hd0 y.
  pose proof PI_RGT_0 as Hpi.
  assert (Hy : 0 < y).
  { unfold y. apply Rdiv_lt_0_compat; [ | lra].
    apply Rmult_lt_0_compat; [ | lra].
    apply Rmult_lt_0_compat; lra. }
  unfold updateCommunications. cbv zeta. simpl.
  rewrite HP, HD, Hf, Hd. unfold Math_PI.
  rewrite !mul_Fin. rewrite (div_Fin (4 * PI * (d * (1495978707 / 10)) * f)) by lra.
  fold y. rewrite !pow2_Fin, !mul_Fin.
  assert (Hyy : y * y <> 0) by nra.
  rewrite (div_Fin _ Hyy). rewrite div_Fin by lra. rewrite add_Fin.
  set (x := P * (D * D) * 4900 / (y * y) / (1 / 100000000000000000000)).
  destruct (Rlt_dec 0 (1 + x)) as [Hpos | Hneg].
  - left. unfold Math_log2. rewrite (Rltb_true Hpos), mul_Fin. reflexivity.
  - right. lra.
Qed.


(** X25: the data rate falls with the distance to Earth and is infinite at
    Earth.  For a positive transmit power, a dish diameter that is not zero
    and a positive frequency: at a distance of zero [updateCommunications]
    sets [dataRate] to Infinity; at finite distances [0 < d1 < d2] it sets a
    finite positive rate, strictly smaller at [d2] than at [d1].  It always
    leaves the craft in contact. *)
Theorem data_rate_falls_with_distance (s : t) (P D f : R) :
  transmitPower (comms s) = Fin P ->
  dishDiameter (comms s) = Fin D ->
  frequency (comms s) = Fin f ->
  0 < P -> D <> 0 -> 0 < f ->
  dataRate (comms (updateCommunications (atDistance s (Fin 0)))) = PInf
  /\ (forall d1 d2 : R,
        0 < d1 < d2 ->
        exists r1 r2 : R,
          dataRate (comms (updateCommunications (atDistance s (Fin d1)))) = Fin r1
          /\ dataRate (comms (updateCommunications (atDistance s (Fin d2)))) = Fin r2
          /\ 0 < r2 < r1)
  /\ (forall distance : num,
        inContact (comms (updateCommunications (atDistance s distance))) = true).
Proof.
  intros HPs HDs Hfs HP HD Hf.
  pose proof PI_RGT_0 as Hpi. pose proof ln_2_pos as Hln2.
  assert (HK : 0 < P * (D * D) * 4900).
  { assert (0 < D * D) by nra. apply Rmult_lt_0_compat; [ | lra].
    now apply Rmult_lt_0_compat. }
  split; [ | split; [ | reflexivity]].
  - unfold updateCommunications, atDistance. cbv zeta. simpl.
    rewrite HPs, HDs, Hfs. unfold Math_PI.
    rewrite !mul_Fin. rewrite (div_Fin (4 * PI * (0 * (1495978707 / 10)) * f)) by lra.
    rewrite !pow2_Fin, !mul_Fin.
    unfold div at 2. rewrite Reqb_true by (unfold Rdiv; ring).
    rewrite Reqb_false by lra. rewrite (Rltb_true HK). simpl infinity.
    unfold div. rewrite Rltb_false by lra. simpl.
    unfold Num.add, Math_log2, Num.mul. rewrite Reqb_false by lra.
    rewrite Rltb_true by lra. reflexivity.
  - assert (Hrate : forall d : R,
              0 < d ->
              let y := 4 * PI * (d * (1495978707 / 10)) * f / 300000000 in
              let x := P * (D * D) * 4900 / (y * y) / (1 / 100000000000000000000) in
              dataRate (comms (updateCommunications (atDistance s (Fin d))))
              = Fin (20000 * (ln (1 + x) / ln 2)) /\ 0 < x).
    { intros d Hd0 y x.
      assert (Hy : 0 < y).
      { unfold y. apply Rdiv_lt_0_compat; [ | lra].
        apply Rmult_lt_0_compat; [ | lra].
        apply Rmult_lt_0_compat; lra. }
      assert (Hx : 0 < x).
      { unfold x. apply Rdiv_lt_0_compat; [ | lra].
        apply Rdiv_lt_0_compat; [exact HK | nra]. }
      destruct (@dataRate_at_distance (atDistance s (Fin d)) P D f d HPs HDs Hfs
                  eq_refl Hf Hd0)
        as [Hr | Hbad]; fold y in Hr || fold y in Hbad.
      - split; [exact Hr | exact Hx].
      - fold x in Hbad. lra. }
    intros d1 d2 Hd.
    destruct (Hrate d1) as [Hr1 Hx1]; [lra | ].
    destruct (Hrate d2) as [Hr2 Hx2]; [lra | ].
    cbv zeta in Hr1, Hx1, Hr2, Hx2.
    set (y1 := 4 * PI * (d1 * (1495978707 / 10)) * f / 300000000) in *.
    set (y2 := 4 * PI * (d2 * (1495978707 / 10)) * f / 300000000) in *.
    set (x1 := P * (D * D) * 4900 / (y1 * y1) / (1 / 100000000000000000000)) in *.
    set (x2 := P * (D * D) * 4900 / (y2 * y2) / (1 / 100000000000000000000)) in *.
    exists (20000 * (ln (1 + x1) / ln 2)), (20000 * (ln (1 + x2) / ln 2)).
    split; [exact Hr1 | ]. split; [exact Hr2 | ].
    assert (Hy1 : 0 < y1).
    { unfold y1. apply Rdiv_lt_0_compat; [ | lra].
      apply Rmult_lt_0_compat; [ | lra].
      apply Rmult_lt_0_compat; lra. }
    assert (Hy12 : y1 < y2).
    { unfold y1, y2. apply Rmult_lt_compat_r; [lra | ].
      apply Rmult_lt_compat_r; [lra | ].
      apply Rmult_lt_compat_l; [lra | ]. lra. }
    assert (Hsq : y1 * y1 < y2 * y2) by nra.
    assert (Hx21 : x2 < x1).
    { unfold x1, x2. apply Rmult_lt_compat_r; [lra | ].
      unfold Rdiv. apply Rmult_lt_compat_l; [exact HK | ].
      assert (Hy2 : 0 < y2) by lra.
      apply Rinv_lt_contravar; [ | exact Hsq].
      apply Rmult_lt_0_compat; apply Rmult_lt_0_compat; assumption. }
    assert (Hl2 : 0 < ln (1 + x2)).
    { rewrite <- ln_1. apply ln_increasing; lra. }
    assert (Hl21 : ln (1 + x2) < ln (1 + x1)) by (apply ln_increasing; lra).
    split.
    + apply Rmult_lt_0_compat; [lra | ]. apply Rdiv_lt_0_compat; lra.
    + apply Rmult_lt_compat_l; [lra | ].
      unfold Rdiv. apply Rmult_lt_compat_r; [ | exact Hl21].
      now apply Rinv_0_lt_compat.
Qed.

Lemma data_rate_witness :
  dataRate (comms (updateCommunications (atDistance (create Config.empty) (Fin 0))))
  = PInf.
Proof.
  apply (@data_rate_falls_with_distance (create Config.empty) 100 2 8400000000);
    try reflexivity; lra.
Defined.

End WarningsAndLink.

(** ** Telemetry and mission phase (recordTelemetry, updateMissionPhase) *)

Section MissionRecords.

Import Mission.
Local Open Scope R_scope.

Lemma recordTelemetry_history (c : Craft) (history : list Telemetry.t) :
  telemetryHistory c = Some history ->
  exists record : Telemetry.t,
    Telemetry.time record = missionElapsedTime c
    /\ telemetryHistory (recordTelemetry c)
       = Some (if (maxTelemetryPoints c <? List.length (history ++ [record]))%nat
               then BaseSpacecraft.shift (history ++ [record])
               else history ++ [record]).
Proof.
  intros Hh. unfold recordTelemetry. rewrite Hh. cbv zeta.
  eexists. split; [ | reflexivity]. reflexivity.
Qed.

(** X26: the telemetry history holds the last records, at most
    [maxTelemetryPoints] of them.  From a history no longer than the bound,
    after one [recordTelemetry] per update the history has
    [min (length before + number of updates, bound)] records: it grows by one
    per update until it is full and keeps its length from then on, the oldest
    record being dropped. *)
Theorem telemetry_history_is_bounded
    (limit : nat) (history : list Telemetry.t) (snapshots : list Craft) :
  (List.length history <= limit)%nat ->
  exists history' : list Telemetry.t,
    recordAll limit history snapshots = Some history'
    /\ List.length history'
       = Nat.min (List.length history + List.length snapshots) limit.
Proof.
  revert history. induction snapshots as [ | c snapshots IH]; intros history Hlen.
  - exists history. split; [reflexivity | ]. simpl. lia.
  - cbn [recordAll].
    set (c' := mkCraft (missionElapsedTime c) (position c) (velocity c) (fuelMass c)
                       (systems c) (Some history) limit (targetBody c)
                       (missionPhase c)).
    destruct (@recordTelemetry_history c' history eq_refl) as (record & _ & ->).
    change (maxTelemetryPoints c') with limit.
    rewrite length_app. simpl List.length.
    destruct (limit <? List.length history + 1)%nat eqn:Hfull.
    + apply Nat.ltb_lt in Hfull.
      destruct (IH (BaseSpacecraft.shift (history ++ [record]))) as (h' & Hh' & Hl').
      { unfold BaseSpacecraft.shift.
        destruct (history ++ [record]) eqn:Happ.
        - simpl. lia.
        - assert (Hl : List.length (history ++ [record]) = S (List.length l))
            by (rewrite Happ; reflexivity).
          rewrite length_app in Hl. simpl in Hl. simpl. lia. }
      exists h'. split; [exact Hh' | ]. rewrite Hl'.
      assert (Hs : List.length (BaseSpacecraft.shift (history ++ [record]))
                   = List.length history).
      { unfold BaseSpacecraft.shift.
        destruct (history ++ [record]) eqn:Happ.
        - destruct history; discriminate Happ.
        - assert (Hl : List.length (history ++ [record]) = S (List.length l))
            by (rewrite Happ; reflexivity).
          rewrite length_app in Hl. simpl in Hl. simpl. lia. }
      rewrite Hs. lia.
    + apply Nat.ltb_ge in Hfull.
      destruct (IH (history ++ [record])) as (h' & Hh' & Hl').
      { rewrite length_app. simpl. lia. }
      exists h'. split; [exact Hh' | ]. rewrite Hl', length_app. simpl. lia.
Qed.

Lemma telemetry_history_witness :
  exists history' : list Telemetry.t,
    recordAll 1 []
      [mkCraft 0 (fin3 1 0 0) (fin3 0 30 0) 500 None None 1 None "CRUISE";
       mkCraft 60 (fin3 1 0 0) (fin3 0 30 0) 500 None None 1 None "CRUISE"]
    = Some history'
    /\ List.length history' = Nat.min (0 + 2) 1.
Proof.
  apply (@telemetry_history_is_bounded 1 []
           [mkCraft 0 (fin3 1 0 0) (fin3 0 30 0) 500 None None 1 None "CRUISE";
            mkCraft 60 (fin3 1 0 0) (fin3 0 30 0) 500 None None 1 None "CRUISE"]).
  simpl. lia.
Defined.

(** X27: the mission phase never goes back.  [updateMissionPhase] leaves the
    phase as it was or sets it to APPROACH, ENCOUNTER or ESCAPE, never to
    CRUISE: once a craft has come within ten spheres of influence of its
    target, moving away does not reset its phase.  ESCAPE takes precedence:
    it is set whenever the eccentricity is at least 1, whatever the distance
    to the target.  Without a target nothing changes. *)
Theorem mission_phase_never_goes_back (c c' : Craft) :
  updateMissionPhase c = Some c' ->
  (missionPhase c' = missionPhase c \/ missionPhase c' = "APPROACH"%string
   \/ missionPhase c' = "ENCOUNTER"%string \/ missionPhase c' = "ESCAPE"%string)
  /\ (targetBody c = None -> c' = c)
  /\ (targetBody c <> None ->
      (OrbitalMechanics.eccentricity
         (Dynamics.getOrbitalElements (position c) (velocity c)) >=? 1)%num = true ->
      missionPhase c' = "ESCAPE"%string)
  /\ (missionPhase c <> "CRUISE"%string -> missionPhase c' <> "CRUISE"%string).
Proof.
  unfold updateMissionPhase.
  destruct (targetBody c) as [target | ].
  2:{ intros H. injection H as <-. repeat split; auto. intros Hn. now contradiction Hn. }
  destruct (Body.position target) as [targetPosition | ]; [ | discriminate].
  cbv zeta. intros H. injection H as <-. cbn [missionPhase].
  repeat match goal with
         | |- context [if ?b then _ else _] => destruct b
         end;
    (split; [auto | split; [discriminate | split; [intros _ Hecc | intros Hphase]]]);
    try reflexivity; try discriminate; exact Hphase.
Qed.

Lemma mission_phase_witness :
  exists c' : Craft,
    updateMissionPhase
      (mkCraft 0 (fin3 1 0 0) (fin3 0 30 0) 500 None None 1000
         (Some (Body.mk (Some (Body.mkData (Some (Fin 641700000000000000000000))
                                           (Some (Fin (1524 / 1000))) None))
                        (Some (fin3 (3 / 2) 0 0)) None None))
         "ENCOUNTER")
    = Some c'
    /\ (missionPhase c' = "ENCOUNTER"%string \/ missionPhase c' = "APPROACH"%string
        \/ missionPhase c' = "ENCOUNTER"%string
        \/ missionPhase c' = "ESCAPE"%string).
Proof.
  eexists. split; [reflexivity | ].
  exact (proj1 (@mission_phase_never_goes_back
                  (mkCraft 0 (fin3 1 0 0) (fin3 0 30 0) 500 None None 1000
                     (Some (Body.mk
                              (Some (Body.mkData (Some (Fin 641700000000000000000000))
                                                 (Some (Fin (1524 / 1000))) None))
                              (Some (fin3 (3 / 2) 0 0)) None None))
                     "ENCOUNTER")
                  _ eq_refl)).
Defined.

End MissionRecords.

(** ** What the manoeuvre-node propagator returns (ManoeuvreNode.propagateOrbit) *)

Section PropagatedState.

Import ManoeuvreNode.
Local Open Scope R_scope.










End PropagatedState.
